(** * The image-optimisation pipeline of shopify-image-optimizer

    A shallow embedding of [app/services/optimizer.server.js] (the catalog
    scanner, the transcoder and the commit / restore engine) and of the bulk
    job runner of the index route, followed by the properties the
    specification states about them.

    Conventions.
    - The Prisma table [ImageRecord] has a unique index on [shopifyImageId];
      it is a finite map from that identifier to the other columns.  The
      surrogate primary key and the two timestamps are not represented.
    - Everything the code awaits from outside (the download, the two sharp
      encoders, the REST [PUT], the GraphQL catalog, whether a Prisma call
      rejects) is an oracle of the environment [Env]; so is what the page is
      told from outside (a stop, a revalidation of the loader).
    - An effectful function is a state transformer over a [World] (the table
      and the trace of effects issued so far) that returns or throws; the
      world survives a throw, as it does in JavaScript. *)

From Stdlib Require Import ZArith Ascii String PrimFloat FloatOps SpecFloat Uint63.
From stdpp Require Import gmap strings list fin_maps pretty.

Open Scope string_scope.
Open Scope Z_scope.

Set Warnings "-clear-no-such-hyp".

(** ** JavaScript values the code computes with *)
Module Js.

(** The value of [Math.round]: an integer, or one of the three non-finite
    doubles.  (Negative zero is identified with [0].) *)
Inductive number :=
| Int (z : Z)
| NaN
| PosInfinity
| NegInfinity.

#[global] Instance number_eq_dec : EqDecision number.
Proof. solve_decision. Defined.

(** An integer as a double.  Exact below 2^53, which covers every size in
    kilobytes the code handles. *)
Definition of_Z (z : Z) : float :=
  if z <? 0 then PrimFloat.opp (PrimFloat.of_uint63 (Uint63.of_Z (- z)))
  else PrimFloat.of_uint63 (Uint63.of_Z z).

(** [m * 2^e] rounded to the nearest integer, ties towards +infinity. *)
Definition round_half_up (m e : Z) : Z :=
  if 0 <=? e then m * 2 ^ e
  else (m + 2 ^ (- e - 1)) / 2 ^ (- e).

(** [Math.round] on a double. *)
Definition math_round (x : float) : number :=
  match Prim2SF x with
  | S754_zero _ => Int 0
  | S754_infinity false => PosInfinity
  | S754_infinity true => NegInfinity
  | S754_nan => NaN
  | S754_finite s m e =>
      Int (round_half_up (if s then Z.neg m else Z.pos m) e)
  end.

(** [Math.round(len / 1024)] for a byte length: the quotient is exact in
    double precision (a division by a power of two), so the result is the
    integer nearest to it, halves going up. *)
Definition round_kb (len : Z) : Z := (len + 512) / 1024.

(** [Math.round(((before - after) / before) * 100)], evaluated in double
    precision as JavaScript does.  The subtraction is on integers. *)
Definition percent_saved (before after : Z) : number :=
  math_round
    (PrimFloat.mul
       (PrimFloat.div (of_Z (before - after)) (of_Z before))
       (of_Z 100)).

(** Truthiness of a string: only the empty string is falsy. *)
Definition truthy (s : string) : bool :=
  match s with EmptyString => false | _ => true end.

(** [s.split("/").pop()]: what follows the last slash. *)
Fixpoint split_pop_aux (acc : string) (s : string) : string :=
  match s with
  | EmptyString => acc
  | String c rest =>
      if Ascii.eqb c "/"%char then split_pop_aux EmptyString rest
      else split_pop_aux (acc +:+ String c EmptyString) rest
  end.

Definition split_pop (s : string) : string := split_pop_aux EmptyString s.

End Js.

(** ** The record store *)

(** The columns of an [ImageRecord] row other than its key. *)
Record ImageFields := {
  productId : string;
  originalUrl : string;
  optimizedUrl : option string;
  status : string;
  savingsKb : Z;
  originalKb : Z;
  optimizedKb : Z
}.

(** A row as [findMany] returns it: the key [shopifyImageId] and the rest. *)
Definition ImageRecord : Type := string * ImageFields.

Definition shopifyImageId (r : ImageRecord) : string := r.1.

Abbreviation Table := (gmap string ImageFields).

Inductive Format := webp | avif.

Definition format_name (f : Format) : string :=
  match f with webp => "webp" | avif => "avif" end.

Definition Buffer : Type := list Byte.byte.

Definition byteLength (b : Buffer) : Z := Z.of_nat (length b).

(** The sharp pipeline handed to an encoder: the source bytes, always
    auto-rotated, and the width it is resized to, if any. *)
Record Pipeline := {
  source : Buffer;
  resize_to : option Z
}.

(** The REST request both commit and restore issue. *)
Inductive PutBody :=
| Attachment (bytes : Buffer) (filename : string)
| Src (url : string).

Record PutRequest := {
  put_shop : string;
  put_product : string;
  put_image : string;
  put_token : string;
  put_body : PutBody
}.

(** Prisma calls on [imageRecord]. *)
Inductive DbOp :=
| OpFindMany
| OpFindUnique (key : string)
| OpUpsert (key : string)
| OpDelete (key : string)
| OpDeleteMany (keys : list string).

(** Effects, in the order the code issues them. *)
Inductive Event :=
| EvDb (op : DbOp)
| EvFetch (url : string)
| EvEncode (f : Format)
| EvPut (r : PutRequest)
| EvGraphql (cursor : option string).

Record World := {
  db : Table;
  trace : list Event
}.

Definition is_db_event (ev : Event) : bool :=
  match ev with EvDb _ => true | _ => false end.

Definition is_put_event (ev : Event) : bool :=
  match ev with EvPut _ => true | _ => false end.

Definition is_encode_event (ev : Event) : bool :=
  match ev with EvEncode _ => true | _ => false end.

(** ** What the environment answers *)

Inductive EncodeResult :=
| EncOk (out : Buffer)
| EncErr (message : string).

Inductive FetchResult :=
| FetchThrows (message : string)
| FetchResponse (ok : bool) (status : Z) (body : Buffer).

(** A whole number below 2^53 in magnitude: [response.json()] reads such a
    numeral exactly and a template literal prints all its digits. *)
Record SafeInteger := {
  int_value : Z;
  int_safe : bool_decide (Z.abs int_value < 2 ^ 53) = true
}.

(** [uploadData.image.id] as parsed from JSON: missing (or any falsy
    value), a safe integer, a string, or any other truthy value (a number
    that is not a safe integer, [true], an object), of which only the text
    that a template literal prints for it is kept. *)
Inductive JsonId :=
| IdMissing
| IdNumber (n : SafeInteger)
| IdString (s : string)
| IdOther (text : string).

(** [uploadData.image.src]: absent, [null] or a string. *)
Inductive JsonSrc :=
| SrcMissing
| SrcNull
| SrcText (url : string).

Record UploadImage := {
  image_id : JsonId;
  image_src : JsonSrc
}.

Inductive PutResult :=
| PutThrows (message : string)
| PutResponse (ok : bool) (status : Z) (image : option UploadImage).

Record Image := {
  img_id : string;
  img_url : string;
  img_width : option Z;
  img_height : option Z;
  img_altText : option string
}.

Record Product := {
  p_id : string;
  p_title : string;
  p_images : list Image
}.

(** One page of [products]: [nodes], [pageInfo.hasNextPage] (missing counts
    as false) and [pageInfo.endCursor]. *)
Record Page := {
  nodes : list Product;
  hasNextPage : bool;
  endCursor : option string
}.

Inductive GraphqlResult :=
| GraphqlThrows (message : string)
| GraphqlPage (page : Page).

Record Env := {
  fetch : string -> FetchResult;
  (** what the webp and the avif encoder make of a pipeline *)
  encode_webp : Pipeline -> EncodeResult;
  encode_avif : Pipeline -> EncodeResult;
  rest_put : PutRequest -> PutResult;
  (** the answer to the n-th catalog query, asked with this cursor *)
  graphql : nat -> option string -> GraphqlResult;
  (** whether this Prisma call rejects *)
  db_fault : DbOp -> bool
}.

(** [sharp(buffer)] throws on an empty buffer: *)
Definition empty_input (buffer : Buffer) : bool :=
  match buffer with [] => true | _ :: _ => false end.

(** [sharpInstance.clone().webp(..).toBuffer()] and its avif sibling.  There
    is no pipeline over an empty buffer, so no encoder ever answers for
    one. *)
Definition sharp_webp (env : Env) (p : Pipeline) : EncodeResult :=
  if empty_input (source p) then EncErr "Input Buffer is empty"
  else encode_webp env p.

Definition sharp_avif (env : Env) (p : Pipeline) : EncodeResult :=
  if empty_input (source p) then EncErr "Input Buffer is empty"
  else encode_avif env p.

(** ** Returning or throwing over a world *)

Inductive outcome (A : Type) :=
| Ret (a : A)
| Throw (message : string).
Arguments Ret {A} a.
Arguments Throw {A} message.

Definition Eff (A : Type) : Type := World -> outcome A * World.

Definition ret {A} (a : A) : Eff A := fun w => (Ret a, w).

Definition throw {A} (message : string) : Eff A := fun w => (Throw message, w).

Definition bind {A B} (c : Eff A) (k : A -> Eff B) : Eff B :=
  fun w =>
    match c w with
    | (Ret a, w') => k a w'
    | (Throw e, w') => (Throw e, w')
    end.

(** [try { c } catch (e) { h e }] *)
Definition try_catch {A} (c : Eff A) (h : string -> Eff A) : Eff A :=
  fun w =>
    match c w with
    | (Ret a, w') => (Ret a, w')
    | (Throw e, w') => h e w'
    end.

Definition emit (ev : Event) : Eff unit :=
  fun w => (Ret tt, {| db := db w; trace := trace w ++ [ev] |}).

Notation "'let!' x ':=' c 'in' k" := (bind c (fun x => k))
  (at level 10, x name, c at level 100, k at level 200).

(** ** Prisma *)
Module prisma.

(** A call is recorded, then rejects if the environment says so; only a
    call that does not reject touches the table. *)
Definition call (env : Env) (op : DbOp) : Eff unit :=
  let! _ := emit (EvDb op) in
  if db_fault env op then throw "PrismaClientKnownRequestError" else ret tt.

Definition findMany (env : Env) : Eff (list ImageRecord) :=
  let! _ := call env OpFindMany in
  fun w => (Ret (map_to_list (db w)), w).

Definition findUnique (env : Env) (key : string) : Eff (option ImageFields) :=
  let! _ := call env (OpFindUnique key) in
  fun w => (Ret (db w !! key), w).

(** [upsert({ where: { shopifyImageId: key }, update, create })] *)
Definition upsert (env : Env) (key : string)
    (update : ImageFields -> ImageFields) (create : ImageFields) : Eff unit :=
  let! _ := call env (OpUpsert key) in
  fun w =>
    let row := match db w !! key with
               | Some old => update old
               | None => create
               end in
    (Ret tt, {| db := <[key := row]> (db w); trace := trace w |}).

(** [delete] rejects when no row has the key. *)
Definition delete (env : Env) (key : string) : Eff unit :=
  let! _ := call env (OpDelete key) in
  fun w =>
    match db w !! key with
    | Some _ => (Ret tt, {| db := base.delete key (db w); trace := trace w |})
    | None => (Throw "Record to delete does not exist.", w)
    end.

(** [deleteMany({ where: { shopifyImageId: { in: keys } } })]; with a
    single key it is the [where: { shopifyImageId: key }] form. *)
Definition deleteMany (env : Env) (keys : list string) : Eff unit :=
  let! _ := call env (OpDeleteMany keys) in
  fun w =>
    (Ret tt,
     {| db := filter (fun kv => kv.1 ∉ keys) (db w); trace := trace w |}).

End prisma.

(** ** The optimizer service *)

Record Session := {
  shop : string;
  accessToken : string
}.

(** A scan result, which is also the [item] that commit and restore take. *)
Record Candidate := {
  c_id : string;
  c_url : string;
  c_parentId : string;
  c_parentTitle : string;
  c_type : string;
  c_width : option Z;
  c_height : option Z;
  c_alt : option string;
  c_optimized : bool;
  c_savedKb : Z;
  c_originalKb : Z;
  c_optimizedKb : Z;
  c_percent : Js.number
}.

Record CommitResult := {
  beforeKb : Z;
  afterKb : Z;
  percent : Js.number;
  newId : string
}.

Inductive RestoreResult := restored.

Module optimizer.

Definition MAX_WIDTH : Z := 2048.
Definition WEBP_LIMIT_KB : Z := 200.

(** One encode: [await sharpInstance.clone().webp(..).toBuffer()]. *)
Definition toBuffer (env : Env) (f : Format) (p : Pipeline) : Eff Buffer :=
  let! _ := emit (EvEncode f) in
  match (match f with webp => sharp_webp env | avif => sharp_avif env end) p with
  | EncOk out => ret out
  | EncErr message => throw message
  end.

(** [width && width > MAX_WIDTH] *)
Definition needs_resize (width : option Z) : bool :=
  match width with
  | Some w => negb (w =? 0) && (MAX_WIDTH <? w)
  | None => false
  end.

(** [sizeKb < WEBP_LIMIT_KB] with [sizeKb = byteLength / 1024]: the
    quotient is exact, so the test is on the byte length. *)
Definition below_limit (buffer : Buffer) : bool :=
  byteLength buffer <? WEBP_LIMIT_KB * 1024.

(** [sharp(buffer).rotate()], resized to [MAX_WIDTH] without enlargement
    when the known width exceeds it. *)
Definition sharpInstance (buffer : Buffer) (width : option Z) : Pipeline :=
  {| source := buffer;
     resize_to := if needs_resize width then Some MAX_WIDTH else None |}.

(** The pipeline is built before the [try]: on an empty buffer the
    constructor's error leaves the function as it is, and nothing is
    encoded. *)
Definition optimizeImageLogic (env : Env) (buffer : Buffer) (width : option Z)
    : Eff (Buffer * Format) :=
  if empty_input buffer then throw "Input Buffer is empty" else
  let sharpInstance := sharpInstance buffer width in
  try_catch
    (if below_limit buffer then
       let! outputBuffer := toBuffer env webp sharpInstance in
       ret (outputBuffer, webp)
     else
       let! webpBuffer := toBuffer env webp sharpInstance in
       let! avifBuffer := toBuffer env avif sharpInstance in
       if byteLength avifBuffer <? byteLength webpBuffer
       then ret (avifBuffer, avif)
       else ret (webpBuffer, webp))
    (fun message => throw ("Image processing failed: " +:+ message)).

(** [!session?.shop || !session?.accessToken] *)
Definition invalid_session (session : option Session) : bool :=
  match session with
  | Some s => negb (Js.truthy (shop s)) || negb (Js.truthy (accessToken s))
  | None => true
  end.

Definition session_shop (session : option Session) : string :=
  from_option shop "" session.

Definition session_token (session : option Session) : string :=
  from_option accessToken "" session.

(** [!newImageId] is false exactly on these. *)
Definition id_text (i : JsonId) : option string :=
  match i with
  | IdMissing => None
  | IdNumber n => if int_value n =? 0 then None else Some (pretty (int_value n))
  | IdString s => if Js.truthy s then Some s else None
  | IdOther text => Some text
  end.

Definition put_request (session : option Session) (item : Candidate)
    (body : PutBody) : PutRequest :=
  {| put_shop := session_shop session;
     put_product := Js.split_pop (c_parentId item);
     put_image := Js.split_pop (c_id item);
     put_token := session_token session;
     put_body := body |}.

(** The [create] branch of the upsert: a column that is not given is
    [NULL]. *)
Definition optimized_fields (item : Candidate) (src : JsonSrc)
    (originalKb optimizedKb : Z) : ImageFields :=
  {| productId := c_parentId item;
     originalUrl := c_url item;
     optimizedUrl := match src with SrcText url => Some url | _ => None end;
     status := "optimized";
     savingsKb := originalKb - optimizedKb;
     originalKb := originalKb;
     optimizedKb := optimizedKb |}.

(** The [update] branch: Prisma leaves a column alone when the value given
    for it is [undefined]. *)
Definition updated_fields (item : Candidate) (src : JsonSrc)
    (originalKb optimizedKb : Z) (old : ImageFields) : ImageFields :=
  {| productId := c_parentId item;
     originalUrl := c_url item;
     optimizedUrl := match src with
                     | SrcMissing => optimizedUrl old
                     | SrcNull => None
                     | SrcText url => Some url
                     end;
     status := "optimized";
     savingsKb := originalKb - optimizedKb;
     originalKb := originalKb;
     optimizedKb := optimizedKb |}.

(** The row the upsert leaves under the new key. *)
Definition upserted (item : Candidate) (src : JsonSrc)
    (originalKb optimizedKb : Z) (old : option ImageFields) : ImageFields :=
  match old with
  | Some row => updated_fields item src originalKb optimizedKb row
  | None => optimized_fields item src originalKb optimizedKb
  end.

(** The request body is kept as the transcoded bytes and the file name;
    [Number(imageNumericId)] and the base64 encoding are not represented. *)
Definition commitImage (env : Env) (session : option Session) (item : Candidate)
    : Eff CommitResult :=
  if invalid_session session then throw "Invalid session" else
  (* 1. Download original *)
  let! _ := emit (EvFetch (c_url item)) in
  match fetch env (c_url item) with
  | FetchThrows message => throw message
  | FetchResponse ok status originalBuffer =>
    if negb ok then throw ("Download failed: " +:+ pretty status) else
    let originalKb := Js.round_kb (byteLength originalBuffer) in
    (* 2. Optimize *)
    let! optimised := optimizeImageLogic env originalBuffer (c_width item) in
    let buffer := optimised.1 in
    let format := optimised.2 in
    let optimizedKb := Js.round_kb (byteLength buffer) in
    (* 3. Upload *)
    let request :=
      put_request session item
        (Attachment buffer ("optimized." +:+ format_name format)) in
    let! _ := emit (EvPut request) in
    match rest_put env request with
    | PutThrows message => throw message
    | PutResponse ok status image =>
      if negb ok then throw ("Upload failed: " +:+ pretty status) else
      match image ≫= (fun i => id_text (image_id i)) with
      | None => throw "No image ID returned from upload"
      | Some newImageId =>
        let newGid := "gid://shopify/ProductImage/" +:+ newImageId in
        let src := from_option image_src SrcMissing image in
        (* 4. The table is the source of truth *)
        let! _ :=
          prisma.upsert env newGid
            (updated_fields item src originalKb optimizedKb)
            (optimized_fields item src originalKb optimizedKb) in
        (* Cleanup old ID if changed *)
        let! _ :=
          if bool_decide (newGid ≠ c_id item) then
            try_catch (prisma.deleteMany env [c_id item]) (fun _ => ret tt)
          else ret tt in
        ret {| beforeKb := originalKb;
               afterKb := optimizedKb;
               percent := Js.percent_saved originalKb optimizedKb;
               newId := newGid |}
      end
    end
  end.

Definition restoreImage (env : Env) (session : option Session) (item : Candidate)
    : Eff RestoreResult :=
  if invalid_session session then throw "Invalid session" else
  let! record := prisma.findUnique env (c_id item) in
  match record with
  | None => throw "Original image not found in DB. Cannot restore."
  | Some r =>
    if negb (Js.truthy (originalUrl r))
    then throw "Original image not found in DB. Cannot restore." else
    let request := put_request session item (Src (originalUrl r)) in
    let! _ := emit (EvPut request) in
    match rest_put env request with
    | PutThrows message => throw message
    | PutResponse ok status _ =>
      if negb ok then throw ("Restore failed: " +:+ pretty status) else
      let! _ := prisma.delete env (c_id item) in
      ret restored
    end
  end.

End optimizer.

(** ** The catalog scanner *)
Module scanner.

(** The locals of [scanShop] that outlive its [try] block. *)
Record Locals := {
  results : list Candidate;
  currentShopImageIds : gset string
}.

Definition start : Locals := {| results := []; currentShopImageIds := ∅ |}.

(** [recordMap]: one [set] per row, in the order [findMany] returned them. *)
Definition recordMap_of (existingRecords : list ImageRecord) : Table :=
  foldl (fun m r => <[shopifyImageId r := r.2]> m) ∅ existingRecords.

Definition is_optimized (record : option ImageFields) : bool :=
  match record with
  | Some r => bool_decide (status r = "optimized")
  | None => false
  end.

(** The object pushed for one image of one product. *)
Definition candidate (recordMap : Table) (p : Product) (img : Image) : Candidate :=
  let record := recordMap !! img_id img in
  let isOptimized := is_optimized record in
  {| c_id := img_id img;
     c_url := img_url img;
     c_parentId := p_id p;
     c_parentTitle := p_title p;
     c_type := "Product";
     c_width := img_width img;
     c_height := img_height img;
     c_alt := img_altText img;
     c_optimized := isOptimized;
     c_savedKb := if isOptimized then from_option savingsKb 0 record else 0;
     c_originalKb := from_option originalKb 0 record;
     c_optimizedKb := if isOptimized then from_option optimizedKb 0 record else 0;
     c_percent :=
       if isOptimized && negb (from_option originalKb 0 record =? 0)
       then Js.percent_saved (from_option originalKb 0 record)
                             (from_option optimizedKb 0 record)
       else Js.Int 0 |}.

Definition visit_image (recordMap : Table) (p : Product) (st : Locals) (img : Image)
    : Locals :=
  {| results := results st ++ [candidate recordMap p img];
     currentShopImageIds := {[img_id img]} ∪ currentShopImageIds st |}.

Definition visit_product (recordMap : Table) (st : Locals) (p : Product) : Locals :=
  foldl (visit_image recordMap p) st (p_images p).

Definition visit_page (recordMap : Table) (st : Locals) (page : Page) : Locals :=
  foldl (visit_product recordMap) st (nodes page).

Inductive PagingEnd :=
| Finished
| Threw (message : string)
| OutOfFuel.

(** The [while (hasNextPage)] loop, entered with [hasNextPage] true for the
    [n]-th query.  [fuel] bounds the number of queries. *)
Fixpoint paging (fuel : nat) (env : Env) (recordMap : Table)
    (n : nat) (cursor : option string) (st : Locals) (w : World)
    : PagingEnd * Locals * World :=
  match fuel with
  | O => (OutOfFuel, st, w)
  | S fuel' =>
    let w1 := {| db := db w; trace := trace w ++ [EvGraphql cursor] |} in
    match graphql env n cursor with
    | GraphqlThrows message => (Threw message, st, w1)
    | GraphqlPage page =>
      let st' := visit_page recordMap st page in
      if hasNextPage page && negb (2500 <? Z.of_nat (length (results st')))
      then paging fuel' env recordMap (S n) (endCursor page) st' w1
      else (Finished, st', w1)
    end
  end.

Definition wants_products (type : string) : bool :=
  bool_decide (type = "all") || bool_decide (type = "products").

Definition staleRecords (existingRecords : list ImageRecord) (st : Locals)
    : list ImageRecord :=
  filter (fun r => shopifyImageId r ∉ currentShopImageIds st) existingRecords.

(** [None] only when the paging does not end within [fuel] queries.  Every
    throw inside the [try] lands in the [catch], which logs and falls
    through to [return results]. *)
Definition scanShop (fuel : nat) (env : Env) (type : string) (w : World)
    : option (list Candidate * World) :=
  match prisma.findMany env w with
  | (Throw _, w1) => Some (results start, w1)
  | (Ret existingRecords, w1) =>
    let recordMap := recordMap_of existingRecords in
    let '(ending, st, w2) :=
      if wants_products type
      then paging fuel env recordMap 0 None start w1
      else (Finished, start, w1) in
    match ending with
    | OutOfFuel => None
    | Threw _ => Some (results st, w2)
    | Finished =>
      let stale := staleRecords existingRecords st in
      if bool_decide (0 < length stale)%nat then
        let '(_, w3) := prisma.deleteMany env (shopifyImageId <$> stale) w2 in
        Some (results st, w3)
      else Some (results st, w2)
    end
  end.

End scanner.

(** ** The index route: the server action and the bulk job runner *)
Module route.

(** The JSON body the action answers with. *)
Record ActionData := {
  a_status : string;
  a_message : option string;
  a_data : option CommitResult
}.

(** [action] for the two intents the bulk runner submits.  It cannot throw:
    whatever the service throws is turned into an error body. *)
Definition action (env : Env) (session : option Session)
    (intent : string) (item : Candidate) (w : World) : ActionData * World :=
  if bool_decide (intent = "optimize") then
    match optimizer.commitImage env session item w with
    | (Ret result, w') =>
        ({| a_status := "success"; a_message := None; a_data := Some result |}, w')
    | (Throw message, w') =>
        ({| a_status := "error";
            a_message := Some ("Server Error: " +:+ message);
            a_data := None |}, w')
    end
  else if bool_decide (intent = "restore") then
    match optimizer.restoreImage env session item w with
    | (Ret _, w') =>
        ({| a_status := "success"; a_message := None; a_data := None |}, w')
    | (Throw message, w') =>
        ({| a_status := "error";
            a_message := Some ("Server Error: " +:+ message);
            a_data := None |}, w')
    end
  else
    ({| a_status := "error";
        a_message := Some ("Unknown intent: " +:+ intent);
        a_data := None |}, w).

Inductive Settled :=
| Resolved (data : ActionData)
| Rejected (message : string).

(** What happens in the page while a submission is in flight, as far as it
    is represented here: a click on Stop, the unmounting of the page, a
    click on a bulk button with the run it starts, and a revalidation of the
    loader.  The answers to the scan form and to the buttons of the rows,
    which write [scanResults] and the two flags as well, are not
    represented.  A submission in flight is the only moment at which the
    page can react: from the settling of one submission to the
    [fetcher.submit] of the next the worker runs without yielding to the
    event loop, and the first entry is submitted in the very click that
    starts the run. *)
Inductive UiEvent :=
| StopRequested      (* handleStop *)
| Unmounted          (* the cleanup of the mount effect *)
| Started (optimize : bool)
                     (* a bulk button is clicked: handleBulkOptimize or
                        handleBulkRestore up to its call of runBulkQueue *)
| Superseded         (* another runBulkQueue starts *)
| Revalidated (results : list Candidate).
                     (* the loader has run again: new loaderData *)

(** The browser side of the environment, per queue index. *)
Record Ui := {
  server_env : nat -> Env;
  session : option Session;
  (** the 30 s safety timeout fires before the answer is seen *)
  timed_out : nat -> bool;
  ambient : nat -> list UiEvent
}.

(** The refs and state of the component, the loader's last results, the
    locals of one run, the log of [fetcher.submit] calls (with their queue
    index), the log of how each of their promises settled, and the server
    world. *)
Record Bulk := {
  stopBulkRef : bool;
  isMountedRef : bool;
  bulkRunIdRef : nat;
  processedIdsRef : gset string;
  isBulkOptimizing : bool;
  isBulkRestoring : bool;
  loaderData : list Candidate;
  scanResults : list Candidate;
  bulkProgress : nat * nat;
  toastMessage : option string;
  processedCount : nat;
  errorCount : nat;
  submitted : list (nat * Candidate);
  settled : list (nat * Settled);
  server : World
}.

(** The state after [setScanResults(f)], [setIsBulkOptimizing(o)] and
    [setIsBulkRestoring(r)]. *)
Definition set_page (f : list Candidate -> list Candidate) (o r : bool)
    (b : Bulk) : Bulk :=
  {| stopBulkRef := stopBulkRef b; isMountedRef := isMountedRef b;
     bulkRunIdRef := bulkRunIdRef b; processedIdsRef := processedIdsRef b;
     isBulkOptimizing := o; isBulkRestoring := r;
     loaderData := loaderData b;
     scanResults := f (scanResults b); bulkProgress := bulkProgress b;
     toastMessage := toastMessage b;
     processedCount := processedCount b; errorCount := errorCount b;
     submitted := submitted b; settled := settled b; server := server b |}.

(** The effect on [loaderData], [isBulkOptimizing] and [isBulkRestoring]:
    outside a bulk run the page takes over the loader's results (which are
    an array, hence truthy). *)
Definition loader_effect (b : Bulk) : Bulk :=
  if isBulkOptimizing b || isBulkRestoring b then b
  else set_page (fun _ => loaderData b) (isBulkOptimizing b) (isBulkRestoring b) b.

(** Setting the two flags, followed by the render: the effect runs when one
    of them has changed. *)
Definition set_flags (o r : bool) (b : Bulk) : Bulk :=
  let b' := set_page (fun prev => prev) o r b in
  if bool_decide (o = isBulkOptimizing b) && bool_decide (r = isBulkRestoring b)
  then b' else loader_effect b'.

Definition set_toast (message : string) (b : Bulk) : Bulk :=
  {| stopBulkRef := stopBulkRef b; isMountedRef := isMountedRef b;
     bulkRunIdRef := bulkRunIdRef b; processedIdsRef := processedIdsRef b;
     isBulkOptimizing := isBulkOptimizing b; isBulkRestoring := isBulkRestoring b;
     loaderData := loaderData b;
     scanResults := scanResults b; bulkProgress := bulkProgress b;
     toastMessage := Some message;
     processedCount := processedCount b; errorCount := errorCount b;
     submitted := submitted b; settled := settled b; server := server b |}.

(** [if (intent === "optimize") setIsBulkOptimizing(false)] and its
    sibling. *)
Definition lower_flag (intent : string) (b : Bulk) : Bulk :=
  set_flags (if bool_decide (intent = "optimize") then false else isBulkOptimizing b)
            (if bool_decide (intent = "restore") then false else isBulkRestoring b) b.

(** [handleBulkOptimize] up to its call of [runBulkQueue]: the queue it
    hands over, if it gets that far, and the page as it leaves it. *)
Definition optimize_click (b : Bulk) : option (list Candidate) * Bulk :=
  if isBulkOptimizing b || isBulkRestoring b then (None, b) else
  let pendingItems := filter (fun i => c_optimized i = false) (scanResults b) in
  if (length pendingItems =? 0)%nat
  then (None, set_toast "All images are already optimized!" b)
  else
    (Some pendingItems,
     set_toast ("Starting optimization for " +:+ pretty (length pendingItems)
                +:+ " images...")
       (set_flags true (isBulkRestoring b) b)).

(** [handleBulkRestore], likewise. *)
Definition restore_click (b : Bulk) : option (list Candidate) * Bulk :=
  if isBulkOptimizing b || isBulkRestoring b then (None, b) else
  let optimizedItems := filter (fun i => c_optimized i = true) (scanResults b) in
  if (length optimizedItems =? 0)%nat
  then (None, set_toast "No optimized images to restore!" b)
  else
    (Some optimizedItems,
     set_toast ("Restoring " +:+ pretty (length optimizedItems) +:+ " images...")
       (set_flags (isBulkOptimizing b) true b)).

(** The effect of an event on the page.  [Started] and [Superseded] are
    the two halves of a click on a bulk button: the handler raises its flag
    and sets its toast, then the prologue of the other [runBulkQueue] takes
    the refs over; that run's own submissions and progress are not
    represented, and the two counters, which are locals of this run, are
    untouched.  A revalidation replaces [loaderData], which runs the
    effect. *)
Definition happen (ev : UiEvent) (b : Bulk) : Bulk :=
  match ev with
  | StopRequested =>
      set_toast "Stopping bulk process..."
        (set_flags false false
           {| stopBulkRef := true; isMountedRef := isMountedRef b;
              bulkRunIdRef := bulkRunIdRef b; processedIdsRef := processedIdsRef b;
              isBulkOptimizing := isBulkOptimizing b;
              isBulkRestoring := isBulkRestoring b;
              loaderData := loaderData b;
              scanResults := scanResults b; bulkProgress := bulkProgress b;
              toastMessage := toastMessage b;
              processedCount := processedCount b; errorCount := errorCount b;
              submitted := submitted b; settled := settled b;
              server := server b |})
  | Unmounted =>
      {| stopBulkRef := true; isMountedRef := false;
         bulkRunIdRef := bulkRunIdRef b; processedIdsRef := processedIdsRef b;
         isBulkOptimizing := isBulkOptimizing b;
         isBulkRestoring := isBulkRestoring b;
         loaderData := loaderData b;
         scanResults := scanResults b; bulkProgress := bulkProgress b;
         toastMessage := toastMessage b;
         processedCount := processedCount b; errorCount := errorCount b;
         submitted := submitted b; settled := settled b; server := server b |}
  | Started optimize =>
      (if optimize then optimize_click b else restore_click b).2
  | Superseded =>
      {| stopBulkRef := false; isMountedRef := isMountedRef b;
         bulkRunIdRef := S (bulkRunIdRef b); processedIdsRef := ∅;
         isBulkOptimizing := isBulkOptimizing b;
         isBulkRestoring := isBulkRestoring b;
         loaderData := loaderData b;
         scanResults := scanResults b; bulkProgress := bulkProgress b;
         toastMessage := toastMessage b;
         processedCount := processedCount b; errorCount := errorCount b;
         submitted := submitted b; settled := settled b; server := server b |}
  | Revalidated results =>
      loader_effect
        {| stopBulkRef := stopBulkRef b; isMountedRef := isMountedRef b;
           bulkRunIdRef := bulkRunIdRef b; processedIdsRef := processedIdsRef b;
           isBulkOptimizing := isBulkOptimizing b;
           isBulkRestoring := isBulkRestoring b;
           loaderData := results;
           scanResults := scanResults b; bulkProgress := bulkProgress b;
           toastMessage := toastMessage b;
           processedCount := processedCount b; errorCount := errorCount b;
           submitted := submitted b; settled := settled b; server := server b |}
  end.

Definition happen_all (evs : list UiEvent) (b : Bulk) : Bulk :=
  foldl (fun b ev => happen ev b) b evs.

(** [updateImageState]: the first entry with this id is replaced by a
    merged copy; nothing changes when there is none. *)
Fixpoint updateImageState (itemId : string) (updates : Candidate -> Candidate)
    (prev : list Candidate) : list Candidate :=
  match prev with
  | [] => []
  | r :: rest =>
      if bool_decide (c_id r = itemId) then updates r :: rest
      else r :: updateImageState itemId updates rest
  end.

Definition optimize_updates (item : Candidate) (data : option CommitResult)
    (r : Candidate) : Candidate :=
  let beforeKb := from_option beforeKb 0 data in
  let afterKb := from_option afterKb 0 data in
  let newId :=
    match data with
    | Some d => if Js.truthy (newId d) then newId d else c_id item
    | None => c_id item
    end in
  {| c_id := newId; c_url := c_url r; c_parentId := c_parentId r;
     c_parentTitle := c_parentTitle r; c_type := c_type r;
     c_width := c_width r; c_height := c_height r; c_alt := c_alt r;
     c_optimized := true;
     c_savedKb := beforeKb - afterKb;
     c_originalKb := beforeKb;
     c_optimizedKb := afterKb;
     c_percent :=
       if 0 <? beforeKb then Js.percent_saved beforeKb afterKb else Js.Int 0 |}.

Definition restore_updates (r : Candidate) : Candidate :=
  {| c_id := c_id r; c_url := c_url r; c_parentId := c_parentId r;
     c_parentTitle := c_parentTitle r; c_type := c_type r;
     c_width := c_width r; c_height := c_height r; c_alt := c_alt r;
     c_optimized := false;
     c_savedKb := 0;
     c_originalKb := c_originalKb r;
     c_optimizedKb := 0;
     c_percent := Js.Int 0 |}.

(** [fetcher.submit] was called for this queue entry and the server has
    run the action. *)
Definition in_flight (idx : nat) (item : Candidate) (w' : World) (b : Bulk) : Bulk :=
  {| stopBulkRef := stopBulkRef b; isMountedRef := isMountedRef b;
     bulkRunIdRef := bulkRunIdRef b; processedIdsRef := processedIdsRef b;
     isBulkOptimizing := isBulkOptimizing b; isBulkRestoring := isBulkRestoring b;
     loaderData := loaderData b;
     scanResults := scanResults b; bulkProgress := bulkProgress b;
     toastMessage := toastMessage b;
     processedCount := processedCount b; errorCount := errorCount b;
     submitted := submitted b ++ [(idx, item)]; settled := settled b;
     server := w' |}.

(** The promise of this submission settles. *)
Definition settle (idx : nat) (result : Settled) (b : Bulk) : Bulk :=
  {| stopBulkRef := stopBulkRef b; isMountedRef := isMountedRef b;
     bulkRunIdRef := bulkRunIdRef b; processedIdsRef := processedIdsRef b;
     isBulkOptimizing := isBulkOptimizing b; isBulkRestoring := isBulkRestoring b;
     loaderData := loaderData b;
     scanResults := scanResults b; bulkProgress := bulkProgress b;
     toastMessage := toastMessage b;
     processedCount := processedCount b; errorCount := errorCount b;
     submitted := submitted b; settled := settled b ++ [(idx, result)];
     server := server b |}.

(** [submitBulk]: the submission is logged, the server runs the action,
    the page lives on meanwhile, and the promise settles on the answer or
    on the timeout.  The 50 ms polling of the fetcher is idealised: the
    promise settles on the answer to this very submission. *)
Definition submitBulk (ui : Ui) (intent : string) (idx : nat) (item : Candidate)
    (b : Bulk) : Settled * Bulk :=
  let '(data, w') := action (server_env ui idx) (session ui) intent item (server b) in
  let b2 := happen_all (ambient ui idx) (in_flight idx item w' b) in
  let result :=
    if timed_out ui idx then Rejected "Timeout waiting for action response"
    else if bool_decide (a_status data = "success") then Resolved data
    else
      Rejected (match a_message data with
                | Some m => if Js.truthy m then m else "Unknown error"
                | None => "Unknown error"
                end) in
  (result, settle idx result b2).

Inductive ItemResult :=
| skipped
| success
| error (message : string).

Definition set_view (f : list Candidate -> list Candidate) (ids : gset string)
    (b : Bulk) : Bulk :=
  {| stopBulkRef := stopBulkRef b; isMountedRef := isMountedRef b;
     bulkRunIdRef := bulkRunIdRef b; processedIdsRef := ids;
     isBulkOptimizing := isBulkOptimizing b; isBulkRestoring := isBulkRestoring b;
     loaderData := loaderData b;
     scanResults := f (scanResults b); bulkProgress := bulkProgress b;
     toastMessage := toastMessage b;
     processedCount := processedCount b; errorCount := errorCount b;
     submitted := submitted b; settled := settled b; server := server b |}.

Definition processItem (ui : Ui) (intent : string) (runId : nat)
    (idx : nat) (item : Candidate) (b : Bulk) : ItemResult * Bulk :=
  if stopBulkRef b || negb (bulkRunIdRef b =? runId)%nat then (skipped, b)
  else if bool_decide (c_id item ∈ processedIdsRef b) then (skipped, b)
  else
    match submitBulk ui intent idx item b with
    | (Resolved data, b1) =>
        let ids := {[c_id item]} ∪ processedIdsRef b1 in
        let view :=
          if bool_decide (intent = "optimize")
          then updateImageState (c_id item) (optimize_updates item (a_data data))
          else if bool_decide (intent = "restore")
          then updateImageState (c_id item) restore_updates
          else fun prev => prev in
        (success, set_view view ids b1)
    | (Rejected message, b1) => (error message, b1)
    end.

Definition count (processed errors : nat) (total : nat) (b : Bulk) : Bulk :=
  {| stopBulkRef := stopBulkRef b; isMountedRef := isMountedRef b;
     bulkRunIdRef := bulkRunIdRef b; processedIdsRef := processedIdsRef b;
     isBulkOptimizing := isBulkOptimizing b; isBulkRestoring := isBulkRestoring b;
     loaderData := loaderData b;
     scanResults := scanResults b;
     bulkProgress := ((processed + errors)%nat, total);
     toastMessage := toastMessage b;
     processedCount := processed; errorCount := errors;
     submitted := submitted b; settled := settled b; server := server b |}.

(** The single worker, about to look at queue index [idx]; [rest] is the
    queue from there on and [total] its full length.  (Queue entries are
    objects, so [if (!item) break] never fires.) *)
Fixpoint worker (ui : Ui) (intent : string) (runId total : nat)
    (idx : nat) (rest : list Candidate) (b : Bulk) : Bulk :=
  match rest with
  | [] => b
  | item :: rest' =>
    if stopBulkRef b || negb (bulkRunIdRef b =? runId)%nat then b
    else
      match processItem ui intent runId idx item b with
      | (skipped, b1) => worker ui intent runId total (S idx) rest' b1
      | (success, b1) =>
          worker ui intent runId total (S idx) rest'
            (count (S (processedCount b1)) (errorCount b1) total b1)
      | (error message, b1) =>
          worker ui intent runId total (S idx) rest'
            (if Js.truthy message
             then count (processedCount b1) (S (errorCount b1)) total b1
             else count (processedCount b1) (errorCount b1) total b1)
      end
  end.

(** The prologue of [runBulkQueue]: a new run id, the stop flag lowered,
    the per-run bookkeeping and the counters reset. *)
Definition begin (items : list Candidate) (b : Bulk) : Bulk :=
  {| stopBulkRef := false; isMountedRef := isMountedRef b;
     bulkRunIdRef := S (bulkRunIdRef b); processedIdsRef := ∅;
     isBulkOptimizing := isBulkOptimizing b; isBulkRestoring := isBulkRestoring b;
     loaderData := loaderData b;
     scanResults := scanResults b; bulkProgress := (0%nat, length items);
     toastMessage := toastMessage b;
     processedCount := 0; errorCount := 0;
     submitted := submitted b; settled := settled b; server := server b |}.

(** The epilogue: nothing when superseded or unmounted, else the terminal
    toast, the flag of the intent lowered (after which the page may take
    over the loader's results) and the bookkeeping cleared.  The two
    counters are left as the worker had them. *)
Definition finish (intent : string) (runId : nat) (b : Bulk) : Bulk :=
  if negb (bulkRunIdRef b =? runId)%nat || negb (isMountedRef b) then b
  else
    lower_flag intent
      {| stopBulkRef := stopBulkRef b; isMountedRef := isMountedRef b;
         bulkRunIdRef := bulkRunIdRef b; processedIdsRef := ∅;
         isBulkOptimizing := isBulkOptimizing b;
         isBulkRestoring := isBulkRestoring b;
         loaderData := loaderData b;
         scanResults := scanResults b; bulkProgress := (0%nat, 0%nat);
         toastMessage :=
           Some ((if stopBulkRef b then "Stopped. Processed: " else "Complete! Processed: ")
                 +:+ pretty (processedCount b) +:+ ", Errors: "
                 +:+ pretty (errorCount b));
         processedCount := processedCount b; errorCount := errorCount b;
         submitted := submitted b; settled := settled b; server := server b |}.

Definition runBulkQueue (ui : Ui) (items : list Candidate) (intent : string)
    (b : Bulk) : Bulk :=
  let b0 := begin items b in
  let runId := bulkRunIdRef b0 in
  finish intent runId (worker ui intent runId (length items) 0 items b0).

End route.

(** ** The index route: derived state and handlers of the dashboard *)
Module dashboard.

(** [handleOptimizationSuccess]: the row's entry is marked optimized with
    the sizes the commit returned.  Its identifier is left as it is. *)
Definition handleOptimizationSuccess (itemId : string) (beforeKb afterKb : Z)
    (prev : list Candidate) : list Candidate :=
  let savedKb := beforeKb - afterKb in
  route.updateImageState itemId
    (fun r =>
       {| c_id := c_id r; c_url := c_url r; c_parentId := c_parentId r;
          c_parentTitle := c_parentTitle r; c_type := c_type r;
          c_width := c_width r; c_height := c_height r; c_alt := c_alt r;
          c_optimized := true;
          c_savedKb := savedKb;
          c_originalKb := beforeKb;
          c_optimizedKb := afterKb;
          c_percent :=
            if 0 <? beforeKb then Js.percent_saved beforeKb afterKb else Js.Int 0 |})
    prev.

(** [handleRestore] *)
Definition handleRestore (itemId : string) (prev : list Candidate) : list Candidate :=
  route.updateImageState itemId route.restore_updates prev.

(** One click on a row's Optimize button, from the submission to the effect
    of [ImageRow] on the answer: the action answers with [id: item.id], so
    the effect calls [onSuccess] with the identifier the row submitted. *)
Definition optimize_row (env : Env) (session : option Session) (item : Candidate)
    (view : list Candidate) (w : World) : list Candidate * World :=
  match optimizer.commitImage env session item w with
  | (Ret result, w') =>
      (handleOptimizationSuccess (c_id item) (beforeKb result) (afterKb result) view, w')
  | (Throw _, w') => (view, w')
  end.

(** One click on a row's Restore button, likewise. *)
Definition restore_row (env : Env) (session : option Session) (item : Candidate)
    (view : list Candidate) (w : World) : list Candidate * World :=
  match optimizer.restoreImage env session item w with
  | (Ret _, w') => (handleRestore (c_id item) view, w')
  | (Throw _, w') => (view, w')
  end.

(** The three session figures, accumulated in one pass over [scanResults]. *)
Record SessionStats := {
  sessionOptimizedCount : nat;
  sessionPendingCount : nat;
  sessionSavingsKb : Z
}.

Definition sessionStats (scanResults : list Candidate) : SessionStats :=
  foldl
    (fun acc r =>
       {| sessionOptimizedCount :=
            if c_optimized r then S (sessionOptimizedCount acc)
            else sessionOptimizedCount acc;
          sessionPendingCount :=
            if c_optimized r then sessionPendingCount acc
            else S (sessionPendingCount acc);
          sessionSavingsKb := sessionSavingsKb acc + c_savedKb r |})
    {| sessionOptimizedCount := 0; sessionPendingCount := 0; sessionSavingsKb := 0 |}
    scanResults.

(** [scanResults.length > 0 && scanResults.every(r => r.optimized)] *)
Definition isAllOptimized (scanResults : list Candidate) : bool :=
  (0 <? length scanResults)%nat && forallb c_optimized scanResults.

Definition itemsPerPage : nat := 10.

(** [l.slice(start, end)] for two non-negative indices. *)
Definition slice {A} (l : list A) (start stop : nat) : list A :=
  take (stop - start) (drop start l).

(** [paginatedResults]: the rows of the current page. *)
Definition paginatedResults (filteredResults : list Candidate) (currentPage : nat)
    : list Candidate :=
  slice filteredResults ((currentPage - 1) * itemsPerPage) (currentPage * itemsPerPage).

Definition hasNext (filteredResults : list Candidate) (currentPage : nat) : bool :=
  (currentPage * itemsPerPage <? length filteredResults)%nat.

Definition hasPrevious (currentPage : nat) : bool := (1 <? currentPage)%nat.

(** [handleBulkOptimize], followed to the end of the run it starts. *)
Definition handleBulkOptimize (ui : route.Ui) (b : route.Bulk) : route.Bulk :=
  match route.optimize_click b with
  | (Some pendingItems, b') => route.runBulkQueue ui pendingItems "optimize" b'
  | (None, b') => b'
  end.

(** [handleBulkRestore], likewise. *)
Definition handleBulkRestore (ui : route.Ui) (b : route.Bulk) : route.Bulk :=
  match route.restore_click b with
  | (Some optimizedItems, b') => route.runBulkQueue ui optimizedItems "restore" b'
  | (None, b') => b'
  end.

End dashboard.

(** ** Concrete environments used in the examples below *)
Module sample.

Definition bytes (n : nat) : Buffer := repeat Byte.x00 n.

(** 200 KB, the first size that takes the two-encode branch. *)
Definition threshold : nat := 200 * 1024.

(** Sharp on a healthy image: webp output of 60 bytes for small inputs and
    900 bytes otherwise; avif output of 700 bytes. *)
Definition webp_ok (p : Pipeline) : EncodeResult :=
  EncOk (bytes (if (length (source p) <? 1000)%nat then 60 else 900)).

Definition avif_ok (p : Pipeline) : EncodeResult := EncOk (bytes 700).

(** Sharp on bytes that are not an image. *)
Definition sharp_rejects (p : Pipeline) : EncodeResult :=
  EncErr "Input buffer contains unsupported image format".

Definition upload_ok (r : PutRequest) : PutResult :=
  PutResponse true 200
    (Some {| image_id := IdNumber {| int_value := 9002; int_safe := eq_refl |};
             image_src := SrcText "https://cdn.shopify.com/optimized.webp" |}).

Definition no_pages (n : nat) (cursor : option string) : GraphqlResult :=
  GraphqlPage {| nodes := []; hasNextPage := false; endCursor := None |}.

(** Everything works; the original is [size] bytes long. *)
Definition healthy (size : nat) : Env :=
  {| fetch := fun _ => FetchResponse true 200 (bytes size);
     encode_webp := webp_ok;
     encode_avif := avif_ok;
     rest_put := upload_ok;
     graphql := no_pages;
     db_fault := fun _ => false |}.

Definition corrupt_image : Env :=
  {| fetch := fun _ => FetchResponse true 200 (bytes 100);
     encode_webp := sharp_rejects;
     encode_avif := sharp_rejects;
     rest_put := upload_ok;
     graphql := no_pages;
     db_fault := fun _ => false |}.

Definition merchant : option Session :=
  Some {| shop := "demo.myshopify.com"; accessToken := "shpat_1" |}.

Definition item (id : string) : Candidate :=
  {| c_id := id;
     c_url := "https://cdn.shopify.com/original.jpg";
     c_parentId := "gid://shopify/Product/77";
     c_parentTitle := "Mug";
     c_type := "Product";
     c_width := Some 1200;
     c_height := Some 800;
     c_alt := None;
     c_optimized := false;
     c_savedKb := 0;
     c_originalKb := 0;
     c_optimizedKb := 0;
     c_percent := Js.Int 0 |}.

Definition row (url : string) : ImageFields :=
  {| productId := "gid://shopify/Product/77";
     originalUrl := url;
     optimizedUrl := Some "https://cdn.shopify.com/optimized.webp";
     status := "optimized";
     savingsKb := 30;
     originalKb := 100;
     optimizedKb := 70 |}.

Definition empty_world : World := {| db := ∅; trace := [] |}.

Definition mug : Product :=
  {| p_id := "gid://shopify/Product/77";
     p_title := "Mug";
     p_images :=
       [{| img_id := "gid://shopify/ProductImage/9001";
           img_url := "https://cdn.shopify.com/original.jpg";
           img_width := Some 1200;
           img_height := Some 800;
           img_altText := None |}] |}.

(** A catalog of one page, holding the mug. *)
Definition one_page (n : nat) (cursor : option string) : GraphqlResult :=
  GraphqlPage {| nodes := [mug]; hasNextPage := false; endCursor := Some "c1" |}.

(** A catalog whose first page holds the mug and announces a second page,
    and whose second query fails. *)
Definition second_page_fails (n : nat) (cursor : option string) : GraphqlResult :=
  match n with
  | O => GraphqlPage {| nodes := [mug]; hasNextPage := true; endCursor := Some "c1" |}
  | _ => GraphqlThrows "Throttled"
  end.

Definition poster : Product :=
  {| p_id := "gid://shopify/Product/78";
     p_title := "Poster";
     p_images :=
       [{| img_id := "gid://shopify/ProductImage/9003";
           img_url := "https://cdn.shopify.com/front.jpg";
           img_width := Some 3000;
           img_height := Some 2000;
           img_altText := Some "Front" |};
        {| img_id := "gid://shopify/ProductImage/9004";
           img_url := "https://cdn.shopify.com/back.jpg";
           img_width := Some 3000;
           img_height := Some 2000;
           img_altText := None |}] |}.

(** A catalog of one page, holding the mug and the poster: three images. *)
Definition two_products (n : nat) (cursor : option string) : GraphqlResult :=
  GraphqlPage {| nodes := [mug; poster]; hasNextPage := false; endCursor := Some "c1" |}.

(** A catalog whose first page holds the mug and the poster and announces a
    second page, and whose second query fails. *)
Definition throttled_after_first (n : nat) (cursor : option string) : GraphqlResult :=
  match n with
  | O => GraphqlPage {| nodes := [mug; poster]; hasNextPage := true;
                        endCursor := Some "c1" |}
  | _ => GraphqlThrows "Throttled"
  end.

(** A shop whose table cannot be read. *)
Definition table_down : Env :=
  {| fetch := fun _ => FetchResponse true 200 (bytes 2000);
     encode_webp := webp_ok;
     encode_avif := avif_ok;
     rest_put := upload_ok;
     graphql := one_page;
     db_fault := fun op => match op with OpFindMany => true | _ => false end |}.

Definition shop_with (catalog : nat -> option string -> GraphqlResult) : Env :=
  {| fetch := fun _ => FetchResponse true 200 (bytes 2000);
     encode_webp := webp_ok;
     encode_avif := avif_ok;
     rest_put := upload_ok;
     graphql := catalog;
     db_fault := fun _ => false |}.

(** Two rows: one for the mug's image, one for an image the shop no longer
    has. *)
Definition two_rows : World :=
  {| db := {[ "gid://shopify/ProductImage/9001" := row "https://cdn.shopify.com/a.jpg";
              "gid://shopify/ProductImage/4000" := row "https://cdn.shopify.com/b.jpg" ]};
     trace := [] |}.

(** Three rows: for the mug's image, for the back of the poster, and for an
    image the shop no longer has. *)
Definition three_rows : World :=
  {| db := {[ "gid://shopify/ProductImage/9001" := row "https://cdn.shopify.com/a.jpg";
              "gid://shopify/ProductImage/9004" := row "https://cdn.shopify.com/c.jpg";
              "gid://shopify/ProductImage/4000" := row "https://cdn.shopify.com/b.jpg" ]};
     trace := [] |}.

(** As [shop_with], but the batched delete rejects. *)
Definition sweep_rejects (catalog : nat -> option string -> GraphqlResult) : Env :=
  {| fetch := fun _ => FetchResponse true 200 (bytes 2000);
     encode_webp := webp_ok;
     encode_avif := avif_ok;
     rest_put := upload_ok;
     graphql := catalog;
     db_fault := fun op => match op with OpDeleteMany _ => true | _ => false end |}.

(** The page at rest, showing two pending images. *)
Definition page : route.Bulk :=
  {| route.stopBulkRef := false;
     route.isMountedRef := true;
     route.bulkRunIdRef := 0;
     route.processedIdsRef := ∅;
     route.isBulkOptimizing := false;
     route.isBulkRestoring := false;
     route.loaderData :=
       [item "gid://shopify/ProductImage/9001"; item "gid://shopify/ProductImage/9005"];
     route.scanResults :=
       [item "gid://shopify/ProductImage/9001"; item "gid://shopify/ProductImage/9005"];
     route.bulkProgress := (0%nat, 0%nat);
     route.toastMessage := None;
     route.processedCount := 0;
     route.errorCount := 0;
     route.submitted := [];
     route.settled := [];
     route.server := empty_world |}.

(** The first image served is corrupt, the others are fine; nobody touches
    the page. *)
Definition first_is_corrupt : route.Ui :=
  {| route.server_env := fun idx => match idx with O => corrupt_image | _ => healthy 2000 end;
     route.session := merchant;
     route.timed_out := fun _ => false;
     route.ambient := fun _ => [] |}.

(** Every image served is fine, and the merchant presses stop while the
    second entry is in flight. *)
Definition stop_during_second : route.Ui :=
  {| route.server_env := fun _ => healthy 2000;
     route.session := merchant;
     route.timed_out := fun _ => false;
     route.ambient :=
       fun idx => match idx with 1%nat => [route.StopRequested] | _ => [] end |}.





Definition old_gid : string := "gid://shopify/ProductImage/9001".
Definition new_gid : string := "gid://shopify/ProductImage/9002".

(** A table that already holds a row under the identifier about to be
    rotated away. *)
Definition optimized_before : World :=
  {| db := {[old_gid := row "https://cdn.shopify.com/first.jpg"]}; trace := [] |}.

(** As [healthy], but the cleanup [deleteMany] rejects. *)
Definition cleanup_rejects (size : nat) : Env :=
  {| fetch := fun _ => FetchResponse true 200 (bytes size);
     encode_webp := webp_ok;
     encode_avif := avif_ok;
     rest_put := upload_ok;
     graphql := no_pages;
     db_fault := fun op => match op with OpDeleteMany _ => true | _ => false end |}.

(** As [healthy], but [delete] rejects. *)
Definition delete_rejects (size : nat) : Env :=
  {| fetch := fun _ => FetchResponse true 200 (bytes size);
     encode_webp := webp_ok;
     encode_avif := avif_ok;
     rest_put := upload_ok;
     graphql := no_pages;
     db_fault := fun op => match op with OpDelete _ => true | _ => false end |}.

(** A catalog that never ends: every page holds the mug and announces a
    successor. *)
Definition endless (n : nat) (cursor : option string) : GraphqlResult :=
  GraphqlPage {| nodes := [mug]; hasNextPage := true; endCursor := Some "c1" |}.

(** Every image served is fine; while the first entry is in flight the
    merchant presses stop and starts another run. *)
Definition restart_during_first : route.Ui :=
  {| route.server_env := fun _ => healthy 2000;
     route.session := merchant;
     route.timed_out := fun _ => false;
     route.ambient :=
       fun idx => match idx with
                  | O => [route.StopRequested; route.Superseded]
                  | _ => []
                  end |}.

End sample.

(** ** Notions used in the statements *)

(** The world after some more effects that leave the table alone. *)
Definition log (w : World) (evs : list Event) : World :=
  {| db := db w; trace := trace w ++ evs |}.

Definition nothing : World := {| db := ∅; trace := [] |}.

(** What the transcoder answers, and the encodes it tries, read off a run of
    [optimizeImageLogic] from the empty world. *)
Definition transcode (env : Env) (buffer : Buffer) (width : option Z)
    : outcome (Buffer * Format) :=
  (optimizer.optimizeImageLogic env buffer width nothing).1.

Definition transcode_events (env : Env) (buffer : Buffer) (width : option Z)
    : list Event :=
  trace (optimizer.optimizeImageLogic env buffer width nothing).2.

(** The effects a run added to the trace. *)
Definition issued (before after : World) : list Event :=
  drop (length (trace before)) (trace after).

(** The path through [commitImage] on which it reaches the table: valid
    credentials, a successful download, a transcoding that returned, and an
    accepted upload that named the new image. *)
Inductive commit_path (env : Env) (session : option Session) (item : Candidate)
    : Buffer -> Buffer -> Format -> UploadImage -> string -> Prop :=
| commit_path_intro status originalBuffer buffer format status' img newImageId :
    optimizer.invalid_session session = false ->
    fetch env (c_url item) = FetchResponse true status originalBuffer ->
    transcode env originalBuffer (c_width item) = Ret (buffer, format) ->
    rest_put env
      (optimizer.put_request session item
         (Attachment buffer ("optimized." +:+ format_name format)))
    = PutResponse true status' (Some img) ->
    optimizer.id_text (image_id img) = Some newImageId ->
    commit_path env session item originalBuffer buffer format img
      ("gid://shopify/ProductImage/" +:+ newImageId).

(** The ways [commitImage] ends before it reaches the table, with the message
    it throws. *)
Inductive commit_stops (env : Env) (session : option Session) (item : Candidate)
    : string -> Prop :=
| stops_invalid_session :
    optimizer.invalid_session session = true ->
    commit_stops env session item "Invalid session"
| stops_download_throws message :
    optimizer.invalid_session session = false ->
    fetch env (c_url item) = FetchThrows message ->
    commit_stops env session item message
| stops_download_failed status body :
    optimizer.invalid_session session = false ->
    fetch env (c_url item) = FetchResponse false status body ->
    commit_stops env session item ("Download failed: " +:+ pretty status)
| stops_transcode_error status body message :
    optimizer.invalid_session session = false ->
    fetch env (c_url item) = FetchResponse true status body ->
    transcode env body (c_width item) = Throw message ->
    commit_stops env session item message
| stops_upload_throws status body buffer format message :
    optimizer.invalid_session session = false ->
    fetch env (c_url item) = FetchResponse true status body ->
    transcode env body (c_width item) = Ret (buffer, format) ->
    rest_put env
      (optimizer.put_request session item
         (Attachment buffer ("optimized." +:+ format_name format)))
    = PutThrows message ->
    commit_stops env session item message
| stops_upload_rejected status body buffer format status' image :
    optimizer.invalid_session session = false ->
    fetch env (c_url item) = FetchResponse true status body ->
    transcode env body (c_width item) = Ret (buffer, format) ->
    rest_put env
      (optimizer.put_request session item
         (Attachment buffer ("optimized." +:+ format_name format)))
    = PutResponse false status' image ->
    commit_stops env session item ("Upload failed: " +:+ pretty status')
| stops_no_image_id status body buffer format status' image :
    optimizer.invalid_session session = false ->
    fetch env (c_url item) = FetchResponse true status body ->
    transcode env body (c_width item) = Ret (buffer, format) ->
    rest_put env
      (optimizer.put_request session item
         (Attachment buffer ("optimized." +:+ format_name format)))
    = PutResponse true status' image ->
    image ≫= (fun i => optimizer.id_text (image_id i)) = None ->
    commit_stops env session item "No image ID returned from upload".

(** No Prisma call among these effects. *)
Definition off_table (evs : list Event) : Prop :=
  Forall (fun ev => is_db_event ev = false) evs.

Definition not_found : string := "Original image not found in DB. Cannot restore.".

(** No row under this key, or a row whose [originalUrl] is the empty string
    (the column is [NOT NULL], so that is the only falsy backup URL). *)
Definition lacks_backup (t : Table) (key : string) : Prop :=
  match t !! key with
  | None => True
  | Some row => originalUrl row = ""
  end.

Definition is_graphql_event (ev : Event) : bool :=
  match ev with EvGraphql _ => true | _ => false end.

(** The paging of a scan whose [findMany] did not reject: the loop state and
    the world when it ends. *)
Definition scan_paging (fuel : nat) (env : Env) (type : string) (w : World)
    : scanner.PagingEnd * scanner.Locals * World :=
  if scanner.wants_products type
  then scanner.paging fuel env (scanner.recordMap_of (map_to_list (db w)))
         0 None scanner.start (log w [EvDb OpFindMany])
  else (scanner.Finished, scanner.start, log w [EvDb OpFindMany]).

(** The rows of a table whose key is not the identifier of any of these
    candidates. *)
Definition stale_rows (t : Table) (results : list Candidate) : list ImageRecord :=
  filter (fun r => shopifyImageId r ∉ c_id <$> results) (map_to_list t).

(** The identifiers seen are those of the candidates pushed. *)
Definition seen_matches (st : scanner.Locals) : Prop :=
  forall k, k ∈ scanner.currentShopImageIds st <-> k ∈ c_id <$> scanner.results st.

(** The run [runId] may go on: no stop was requested and no other run has
    started. *)
Definition live (runId : nat) (b : route.Bulk) : Prop :=
  route.stopBulkRef b = false /\ route.bulkRunIdRef b = runId.


(** The submissions a stretch of a run added to the log. *)
Definition attempted (before after : route.Bulk) : list (nat * Candidate) :=
  drop (length (route.submitted before)) (route.submitted after).



(** The queue entries paired with their index, counted from [idx]. *)
Fixpoint enumerate (idx : nat) (queue : list Candidate) : list (nat * Candidate) :=
  match queue with
  | [] => []
  | item :: rest => (idx, item) :: enumerate (S idx) rest
  end.

(** Whether a string contains a slash. *)
Fixpoint has_slash (s : string) : bool :=
  match s with
  | EmptyString => false
  | String c rest => Ascii.eqb c "/"%char || has_slash rest
  end.

Definition is_fetch_event (ev : Event) : bool :=
  match ev with EvFetch _ => true | _ => false end.

(** The images of a page with their product, in the order of the answer. *)
Definition page_images (page : Page) : list (Product * Image) :=
  p ← nodes page; (fun img => (p, img)) <$> p_images p.

(** The catalog has an end: whatever the cursor, its [last]-th query throws
    or announces no further page. *)
Definition catalog_ends (env : Env) (last : nat) : Prop :=
  forall cursor page,
    graphql env last cursor = GraphqlPage page -> hasNextPage page = false.

(** Every page that announces a successor holds at least one image. *)
Definition pages_not_empty (env : Env) : Prop :=
  forall n cursor page,
    graphql env n cursor = GraphqlPage page ->
    hasNextPage page = true -> page_images page ≠ [].

(** No page holds more than [m] images. *)
Definition pages_at_most (env : Env) (m : nat) : Prop :=
  forall n cursor page,
    graphql env n cursor = GraphqlPage page -> (length (page_images page) <= m)%nat.

(** What a candidate shows is what the table holds under its identifier:
    it is marked optimized exactly when the row there has status
    [optimized], and then carries the row's figures, with the percentage
    computed from them unless the original size is 0; otherwise it shows no
    savings and no optimized size; its original size is the row's, or 0
    without a row. *)
Definition reflects (t : Table) (c : Candidate) : Prop :=
  match t !! c_id c with
  | Some row =>
      c_originalKb c = originalKb row
      /\ if bool_decide (status row = "optimized") then
           c_optimized c = true
           /\ c_savedKb c = savingsKb row
           /\ c_optimizedKb c = optimizedKb row
           /\ c_percent c = (if originalKb row =? 0 then Js.Int 0
                             else Js.percent_saved (originalKb row) (optimizedKb row))
         else
           c_optimized c = false
           /\ c_savedKb c = 0 /\ c_optimizedKb c = 0 /\ c_percent c = Js.Int 0
  | None =>
      c_optimized c = false
      /\ c_savedKb c = 0 /\ c_originalKb c = 0 /\ c_optimizedKb c = 0
      /\ c_percent c = Js.Int 0
  end.

(** The effects of a commit that returns, in order. *)
Definition commit_effects (env : Env) (session : option Session) (item : Candidate)
    (originalBuffer buffer : Buffer) (format : Format) (newGid : string)
    : list Event :=
  EvFetch (c_url item)
  :: transcode_events env originalBuffer (c_width item)
  ++ [EvPut (optimizer.put_request session item
               (Attachment buffer ("optimized." +:+ format_name format)));
      EvDb (OpUpsert newGid)]
  ++ (if bool_decide (newGid ≠ c_id item)
      then [EvDb (OpDeleteMany [c_id item])] else []).

(** The effects of a restore that returns, for a row whose backup is [url]. *)
Definition restore_effects (session : option Session) (item : Candidate)
    (url : string) : list Event :=
  [EvDb (OpFindUnique (c_id item));
   EvPut (optimizer.put_request session item (Src url));
   EvDb (OpDelete (c_id item))].

(** The candidates one page contributes, in the order they are pushed. *)
Definition page_candidates (recordMap : Table) (page : Page) : list Candidate :=
  (fun pi => scanner.candidate recordMap pi.1 pi.2) <$> page_images page.

(** What a scan may issue after the rows were loaded: catalog queries, then
    at most one batched delete. *)
Definition scan_tail (pages cleanup : list Event) (t : Table)
    (results : list Candidate) : Prop :=
  Forall (fun ev => is_graphql_event ev = true) pages
  /\ (cleanup = []
      \/ exists keys,
           cleanup = [EvDb (OpDeleteMany keys)]
           /\ keys ≠ []
           /\ forall k, k ∈ keys -> is_Some (t !! k) /\ k ∉ c_id <$> results).

(** The pages the catalog answers along the chain of cursors, from its
    [n]-th query on, when [seen] images have been pushed already: the chain
    ends with a query that throws, with a page that announces no successor,
    or once more than 2500 images have been seen. *)
Fixpoint pages_from (fuel : nat) (env : Env) (n : nat) (cursor : option string)
    (seen : nat) : list Page :=
  match fuel with
  | O => []
  | S fuel' =>
    match graphql env n cursor with
    | GraphqlThrows _ => []
    | GraphqlPage page =>
      let seen' := (seen + length (page_images page))%nat in
      page ::
        (if hasNextPage page && negb (2500 <? Z.of_nat seen')
         then pages_from fuel' env (S n) (endCursor page) seen'
         else [])
    end
  end.

(** The pages a scan of this type reads. *)
Definition pages_read (fuel : nat) (env : Env) (type : string) : list Page :=
  if scanner.wants_products type then pages_from fuel env 0 None 0 else [].

(** The images of the pages a scan reads, in the order of the answers. *)
Definition images_read (fuel : nat) (env : Env) (type : string)
    : list (Product * Image) :=
  pages_read fuel env type ≫= page_images.

(** The candidates for these images, given the rows of the table. *)
Definition candidates_of (t : Table) (images : list (Product * Image))
    : list Candidate :=
  (fun pi => scanner.candidate t pi.1 pi.2) <$> images.

(** How the promises of a stretch of a run settled. *)
Definition answered (before after : route.Bulk) : list (nat * route.Settled) :=
  drop (length (route.settled before)) (route.settled after).

Definition resolved (s : nat * route.Settled) : bool :=
  match s.2 with route.Resolved _ => true | route.Rejected _ => false end.

(** ** Reasoning about [Eff] computations *)

Lemma log_nil w : log w [] = w.
Proof. destruct w; unfold log; simpl. by rewrite app_nil_r. Qed.

Lemma log_log w evs evs' : log (log w evs) evs' = log w (evs ++ evs').
Proof. unfold log; simpl. by rewrite app_assoc. Qed.

Lemma emit_log ev w : emit ev w = (Ret tt, log w [ev]).
Proof. reflexivity. Qed.

Lemma toBuffer_ok env f p out w :
  (match f with webp => sharp_webp env | avif => sharp_avif env end) p = EncOk out ->
  optimizer.toBuffer env f p w = (Ret out, log w [EvEncode f]).
Proof. intros H. unfold optimizer.toBuffer, bind. rewrite emit_log, H. reflexivity. Qed.

Lemma toBuffer_err env f p message w :
  (match f with webp => sharp_webp env | avif => sharp_avif env end) p = EncErr message ->
  optimizer.toBuffer env f p w = (Throw message, log w [EvEncode f]).
Proof. intros H. unfold optimizer.toBuffer, bind. rewrite emit_log, H. reflexivity. Qed.

(** ** The transcoder *)

(** An encoder answers only for a pipeline over some bytes. *)
Lemma encoded_input env f p out :
  (match f with webp => sharp_webp env | avif => sharp_avif env end) p = EncOk out ->
  empty_input (source p) = false.
Proof.
  destruct f; unfold sharp_webp, sharp_avif;
    by destruct (empty_input (source p)).
Qed.

Section Transcoder.

Variable env : Env.
Variable buffer : Buffer.
Variable width : option Z.

(** On an empty buffer the constructor throws: nothing is encoded and the
    error is not wrapped. *)
Lemma transcode_empty w :
  empty_input buffer = true ->
  optimizer.optimizeImageLogic env buffer width w
  = (Throw "Input Buffer is empty", w).
Proof. intros He. unfold optimizer.optimizeImageLogic. by rewrite He. Qed.

Lemma transcode_small webpBuffer w :
  optimizer.below_limit buffer = true ->
  sharp_webp env (optimizer.sharpInstance buffer width) = EncOk webpBuffer ->
  optimizer.optimizeImageLogic env buffer width w
  = (Ret (webpBuffer, webp), log w [EvEncode webp]).
Proof.
  intros Hsmall Hw.
  pose proof (encoded_input env webp _ _ Hw) as He. simpl in He.
  pose proof (toBuffer_ok env webp _ webpBuffer w Hw) as E.
  unfold optimizer.optimizeImageLogic, try_catch, bind.
  rewrite He, Hsmall, E. reflexivity.
Qed.

Lemma transcode_large webpBuffer avifBuffer w :
  optimizer.below_limit buffer = false ->
  sharp_webp env (optimizer.sharpInstance buffer width) = EncOk webpBuffer ->
  sharp_avif env (optimizer.sharpInstance buffer width) = EncOk avifBuffer ->
  optimizer.optimizeImageLogic env buffer width w
  = (Ret (if byteLength avifBuffer <? byteLength webpBuffer
          then (avifBuffer, avif) else (webpBuffer, webp)),
     log w [EvEncode webp; EvEncode avif]).
Proof.
  intros Hlarge Hw Ha.
  pose proof (encoded_input env webp _ _ Hw) as He. simpl in He.
  pose proof (toBuffer_ok env webp _ webpBuffer w Hw) as Ew.
  pose proof (toBuffer_ok env avif _ avifBuffer (log w [EvEncode webp]) Ha) as Ea.
  unfold optimizer.optimizeImageLogic, try_catch, bind.
  rewrite He, Hlarge, Ew, Ea, log_log. simpl.
  destruct (byteLength avifBuffer <? byteLength webpBuffer); reflexivity.
Qed.

(** A failed primary encode ends the transcoding at once, in either branch. *)
Lemma transcode_primary_fails message w :
  empty_input buffer = false ->
  sharp_webp env (optimizer.sharpInstance buffer width) = EncErr message ->
  optimizer.optimizeImageLogic env buffer width w
  = (Throw ("Image processing failed: " +:+ message), log w [EvEncode webp]).
Proof.
  intros He Hw.
  pose proof (toBuffer_err env webp _ message w Hw) as E.
  unfold optimizer.optimizeImageLogic, try_catch, bind. rewrite He.
  destruct (optimizer.below_limit buffer); rewrite E; reflexivity.
Qed.

(** In the large branch a failed secondary encode fails the transcoding
    after both encodes were tried. *)
Lemma transcode_secondary_fails webpBuffer message w :
  optimizer.below_limit buffer = false ->
  sharp_webp env (optimizer.sharpInstance buffer width) = EncOk webpBuffer ->
  sharp_avif env (optimizer.sharpInstance buffer width) = EncErr message ->
  optimizer.optimizeImageLogic env buffer width w
  = (Throw ("Image processing failed: " +:+ message),
     log w [EvEncode webp; EvEncode avif]).
Proof.
  intros Hlarge Hw Ha.
  pose proof (encoded_input env webp _ _ Hw) as He. simpl in He.
  pose proof (toBuffer_ok env webp _ webpBuffer w Hw) as Ew.
  pose proof (toBuffer_err env avif _ message (log w [EvEncode webp]) Ha) as Ea.
  unfold optimizer.optimizeImageLogic, try_catch, bind.
  rewrite He, Hlarge, Ew, Ea, log_log. reflexivity.
Qed.

(** Every run of the transcoder, whatever the world it starts from. *)
Lemma transcode_run w :
  optimizer.optimizeImageLogic env buffer width w
  = if empty_input buffer then (Throw "Input Buffer is empty", log w [])
    else
      match sharp_webp env (optimizer.sharpInstance buffer width) with
      | EncErr message =>
          (Throw ("Image processing failed: " +:+ message), log w [EvEncode webp])
      | EncOk webpBuffer =>
          if optimizer.below_limit buffer
          then (Ret (webpBuffer, webp), log w [EvEncode webp])
          else
            match sharp_avif env (optimizer.sharpInstance buffer width) with
            | EncOk avifBuffer =>
                (Ret (if byteLength avifBuffer <? byteLength webpBuffer
                      then (avifBuffer, avif) else (webpBuffer, webp)),
                 log w [EvEncode webp; EvEncode avif])
            | EncErr message =>
                (Throw ("Image processing failed: " +:+ message),
                 log w [EvEncode webp; EvEncode avif])
            end
      end.
Proof.
  destruct (empty_input buffer) eqn:He; [by rewrite log_nil, transcode_empty|].
  destruct (sharp_webp env (optimizer.sharpInstance buffer width)) as [wb|m] eqn:Hw;
    [|by apply transcode_primary_fails].
  destruct (optimizer.below_limit buffer) eqn:Hlim; [by apply transcode_small|].
  destruct (sharp_avif env (optimizer.sharpInstance buffer width)) as [ab|m] eqn:Ha.
  - by apply transcode_large.
  - by apply transcode_secondary_fails with wb.
Qed.

End Transcoder.

Lemma optimizeImageLogic_frame env buffer width w :
  optimizer.optimizeImageLogic env buffer width w
  = (transcode env buffer width, log w (transcode_events env buffer width)).
Proof.
  unfold transcode, transcode_events. rewrite !transcode_run.
  destruct (empty_input buffer); [done|].
  destruct (sharp_webp env _); [|done].
  destruct (optimizer.below_limit buffer); [done|].
  by destruct (sharp_avif env _).
Qed.

(** ** Prisma calls, step by step *)

Lemma call_run env op w :
  prisma.call env op w
  = if db_fault env op then (Throw "PrismaClientKnownRequestError", log w [EvDb op])
    else (Ret tt, log w [EvDb op]).
Proof. unfold prisma.call, bind. rewrite emit_log. by destruct (db_fault env op). Qed.

Lemma findMany_run env w :
  prisma.findMany env w
  = if db_fault env OpFindMany
    then (Throw "PrismaClientKnownRequestError", log w [EvDb OpFindMany])
    else (Ret (map_to_list (db w)), log w [EvDb OpFindMany]).
Proof.
  unfold prisma.findMany, bind. rewrite call_run.
  by destruct (db_fault env OpFindMany).
Qed.

Lemma findUnique_run env key w :
  prisma.findUnique env key w
  = if db_fault env (OpFindUnique key)
    then (Throw "PrismaClientKnownRequestError", log w [EvDb (OpFindUnique key)])
    else (Ret (db w !! key), log w [EvDb (OpFindUnique key)]).
Proof.
  unfold prisma.findUnique, bind. rewrite call_run.
  by destruct (db_fault env (OpFindUnique key)).
Qed.

Lemma upsert_run env key update create w :
  prisma.upsert env key update create w
  = if db_fault env (OpUpsert key)
    then (Throw "PrismaClientKnownRequestError", log w [EvDb (OpUpsert key)])
    else (Ret tt,
          {| db := <[key := match db w !! key with
                            | Some old => update old
                            | None => create
                            end]> (db w);
             trace := trace w ++ [EvDb (OpUpsert key)] |}).
Proof.
  unfold prisma.upsert, bind. rewrite call_run.
  by destruct (db_fault env (OpUpsert key)).
Qed.

Lemma delete_run env key w :
  prisma.delete env key w
  = if db_fault env (OpDelete key)
    then (Throw "PrismaClientKnownRequestError", log w [EvDb (OpDelete key)])
    else match db w !! key with
         | Some _ => (Ret tt, {| db := delete key (db w);
                                 trace := trace w ++ [EvDb (OpDelete key)] |})
         | None => (Throw "Record to delete does not exist.",
                    log w [EvDb (OpDelete key)])
         end.
Proof.
  unfold prisma.delete, bind. rewrite call_run.
  by destruct (db_fault env (OpDelete key)).
Qed.

Lemma deleteMany_run env keys w :
  prisma.deleteMany env keys w
  = if db_fault env (OpDeleteMany keys)
    then (Throw "PrismaClientKnownRequestError", log w [EvDb (OpDeleteMany keys)])
    else (Ret tt,
          {| db := filter (fun kv => kv.1 ∉ keys) (db w);
             trace := trace w ++ [EvDb (OpDeleteMany keys)] |}).
Proof.
  unfold prisma.deleteMany, bind. rewrite call_run.
  by destruct (db_fault env (OpDeleteMany keys)).
Qed.

(** Deleting the rows whose key is in a one-element list deletes that key. *)
Lemma filter_not_in_singleton (key : string) (t : gmap string ImageFields) :
  filter (fun kv : string * ImageFields => kv.1 ∉ [key]) t = delete key t.
Proof.
  apply map_eq. intros k. rewrite map_lookup_filter.
  destruct (decide (k = key)) as [->|Hne].
  - rewrite lookup_delete_eq. destruct (t !! key); simpl; [|done].
    rewrite option_guard_False; [done|]. set_solver.
  - rewrite lookup_delete_ne by done. destruct (t !! k); simpl; [|done].
    rewrite option_guard_True; [done|].
    by intros ?%list_elem_of_singleton.
Qed.

(** ** The commit path *)

Ltac thrown := intros; unfold throw in *; simplify_eq.

(** A commit that returns went down [commit_path]; its result and the table
    it leaves are determined by that path and by whether the cleanup of the
    old key rejected. *)
Lemma commit_returns env session item w res w' :
  optimizer.commitImage env session item w = (Ret res, w') ->
  exists originalBuffer buffer format img newGid,
    commit_path env session item originalBuffer buffer format img newGid
    /\ db_fault env (OpUpsert newGid) = false
    /\ res = {| beforeKb := Js.round_kb (byteLength originalBuffer);
                afterKb := Js.round_kb (byteLength buffer);
                percent := Js.percent_saved (Js.round_kb (byteLength originalBuffer))
                                            (Js.round_kb (byteLength buffer));
                newId := newGid |}
    /\ db w'
       = (if bool_decide (newGid ≠ c_id item)
             && negb (db_fault env (OpDeleteMany [c_id item]))
          then delete (c_id item) else fun t => t)
           (<[newGid := optimizer.upserted item (image_src img)
                          (Js.round_kb (byteLength originalBuffer))
                          (Js.round_kb (byteLength buffer))
                          (db w !! newGid)]> (db w)).
Proof.
  unfold optimizer.commitImage.
  destruct (optimizer.invalid_session session) eqn:Hs; [thrown|].
  unfold bind at 1. rewrite emit_log.
  destruct (fetch env (c_url item)) as [m|ok st ob] eqn:Hf; [thrown|].
  destruct ok; simpl; [|thrown].
  unfold bind at 1. rewrite optimizeImageLogic_frame.
  destruct (transcode env ob (c_width item)) as [[b f]|m] eqn:Ht; [|thrown].
  simpl. unfold bind at 1. rewrite emit_log.
  destruct (rest_put env _) as [m|ok st' image] eqn:Hp; [thrown|].
  destruct ok; simpl; [|thrown].
  destruct image as [img|]; simpl; [|thrown].
  destruct (optimizer.id_text (image_id img)) as [newImageId|] eqn:Hid; [|thrown].
  unfold bind at 1. rewrite upsert_run.
  destruct (db_fault env (OpUpsert _)) eqn:Hup; [thrown|].
  intros Hrun.
  exists ob, b, f, img, ("gid://shopify/ProductImage/" +:+ newImageId).
  split; [by econstructor|]. split; [done|].
  unfold bind, try_catch in Hrun.
  case_bool_decide as Hne; simpl in *.
  - rewrite deleteMany_run in Hrun.
    destruct (db_fault env (OpDeleteMany [c_id item])); simpl in *;
      unfold ret in Hrun; simplify_eq; simpl.
    + split; [done|]. unfold optimizer.upserted. by destruct (db w !! _).
    + split; [done|]. rewrite filter_not_in_singleton.
      unfold optimizer.upserted. by destruct (db w !! _).
  - unfold ret in Hrun; simplify_eq; simpl.
    split; [done|]. unfold optimizer.upserted. by destruct (db w !! _).
Qed.

(** Whether it updates or creates, the upsert writes the same status, backup
    URL and figures. *)
Lemma upserted_row item src originalKb' optimizedKb' old :
  let row := optimizer.upserted item src originalKb' optimizedKb' old in
  status row = "optimized"
  /\ originalUrl row = c_url item
  /\ originalKb row = originalKb'
  /\ optimizedKb row = optimizedKb'
  /\ savingsKb row = originalKb' - optimizedKb'.
Proof. by destruct old. Qed.

(** C1 (as amended).  A commit that returns [newId] leaves under [newId] a row
    with status [optimized], the rounded size of the downloaded original, the
    rounded size of the transcoder's output and their difference as savings;
    and when [newId] differs from the item's identifier and the cleanup
    [deleteMany] did not reject, no row is left under the old identifier. *)
Theorem commit_upserts_new_key env session item w res w' :
  optimizer.commitImage env session item w = (Ret res, w') ->
  exists originalBuffer buffer format img row,
    commit_path env session item originalBuffer buffer format img (newId res)
    /\ db w' !! newId res = Some row
    /\ status row = "optimized"
    /\ originalKb row = Js.round_kb (byteLength originalBuffer)
    /\ optimizedKb row = Js.round_kb (byteLength buffer)
    /\ savingsKb row = originalKb row - optimizedKb row
    /\ beforeKb res = originalKb row
    /\ afterKb res = optimizedKb row
    /\ (newId res ≠ c_id item ->
        db_fault env (OpDeleteMany [c_id item]) = false ->
        db w' !! c_id item = None).
Proof.
  intros Hrun.
  destruct (commit_returns _ _ _ _ _ _ Hrun)
    as (ob & b & f & img & g & Hpath & _ & -> & Hdb).
  simpl. exists ob, b, f, img.
  eexists. split; [exact Hpath|].
  split.
  - rewrite Hdb. case_bool_decide as Hne; simpl.
    + destruct (db_fault env (OpDeleteMany [c_id item])); simpl.
      * apply lookup_insert_eq.
      * rewrite lookup_delete_ne by done. apply lookup_insert_eq.
    + apply lookup_insert_eq.
  - destruct (upserted_row item (image_src img) (Js.round_kb (byteLength ob))
                (Js.round_kb (byteLength b)) (db w !! g))
      as (Hst & _ & Hok & Hnk & Hsv).
    split; [exact Hst|]. split; [exact Hok|]. split; [exact Hnk|].
    split; [by rewrite Hsv, Hok, Hnk|]. split; [by rewrite Hok|].
    split; [by rewrite Hnk|].
    intros Hne Hclean. rewrite Hdb, Hclean.
    rewrite bool_decide_eq_true_2 by done. simpl. apply lookup_delete_eq.
Qed.

Lemma commit_upserts_new_key_witness :
  exists res w',
    optimizer.commitImage (sample.healthy 2000) sample.merchant
      (sample.item sample.old_gid) sample.optimized_before = (Ret res, w')
    /\ newId res = sample.new_gid
    /\ (status <$> db w' !! sample.new_gid) = Some "optimized"
    /\ db w' !! sample.old_gid = None.
Proof.
  destruct (optimizer.commitImage (sample.healthy 2000) sample.merchant
      (sample.item sample.old_gid) sample.optimized_before) as [[res|e] w'] eqn:Hrun.
  2: { exfalso. vm_compute in Hrun. discriminate. }
  exists res, w'. split; [reflexivity|].
  destruct (commit_upserts_new_key _ _ _ _ _ _ Hrun)
    as (ob & b & f & img & row & _ & Hrow & Hst & _ & _ & _ & _ & _ & Hold).
  assert (Hid : newId res = sample.new_gid).
  { vm_compute in Hrun. injection Hrun as <- _. reflexivity. }
  rewrite Hid in *.
  split; [done|]. split.
  - rewrite Hrow. simpl. by rewrite Hst.
  - apply Hold; [vm_compute; discriminate | reflexivity].
Defined.

(** C1 as stated fails: when the cleanup [deleteMany] rejects, the commit
    still returns, and the row under the old identifier stays. *)
Lemma commit_cleanup_failure_keeps_old_row :
  ~ (forall env session item w res w',
        optimizer.commitImage env session item w = (Ret res, w') ->
        newId res ≠ c_id item ->
        db w' !! c_id item = None).
Proof.
  intros H.
  destruct (optimizer.commitImage (sample.cleanup_rejects 2000) sample.merchant
      (sample.item sample.old_gid) sample.optimized_before) as [[res|e] w'] eqn:Hrun.
  2: { vm_compute in Hrun. discriminate. }
  specialize (H _ _ _ _ _ _ Hrun).
  vm_compute in Hrun. injection Hrun as <- <-.
  vm_compute in H. specialize (H ltac:(discriminate)). discriminate.
Qed.

(** C2.  On an original below 512 bytes [originalKb] rounds to 0 and the
    percent that [commitImage] returns is the unguarded [0 / 0], not 0; the
    bulk runner's own formula, on the very same result, is guarded. *)
Theorem commit_percent_unguarded :
  exists res w',
    optimizer.commitImage (sample.healthy 100) sample.merchant
      (sample.item sample.old_gid) sample.empty_world = (Ret res, w')
    /\ beforeKb res = 0
    /\ afterKb res = 0
    /\ percent res = Js.NaN
    /\ c_percent (route.optimize_updates (sample.item sample.old_gid) (Some res)
                    (sample.item sample.old_gid)) = Js.Int 0.
Proof.
  destruct (optimizer.commitImage (sample.healthy 100) sample.merchant
      (sample.item sample.old_gid) sample.empty_world) as [[res|e] w'] eqn:Hrun.
  2: { vm_compute in Hrun. discriminate. }
  exists res, w'. split; [reflexivity|].
  vm_compute in Hrun. injection Hrun as <- _.
  repeat split; vm_compute; reflexivity.
Qed.

(** An original that rounds to 0 KB with an output that rounds to 1 KB gives
    minus infinity. *)
Example percent_saved_zero_before : Js.percent_saved 0 1 = Js.NegInfinity.
Proof. vm_compute. reflexivity. Qed.

(** The formula is evaluated in double precision: 29/200 is not exactly
    0.145, and its product with 100 falls just below 14.5. *)
Example percent_saved_double_rounding : Js.percent_saved 200 171 = Js.Int 14.
Proof. vm_compute. reflexivity. Qed.

Example percent_saved_half : Js.percent_saved 8 7 = Js.Int 13.
Proof. vm_compute. reflexivity. Qed.

(** ** Commits that stop before the table *)

Lemma issued_log w evs : issued w (log w evs) = evs.
Proof. unfold issued, log. simpl. by rewrite drop_app_length. Qed.

Lemma off_table_app evs evs' : off_table evs -> off_table evs' -> off_table (evs ++ evs').
Proof. apply Forall_app_2. Qed.

Lemma transcode_events_off_table env buffer width :
  off_table (transcode_events env buffer width).
Proof.
  unfold transcode_events. rewrite transcode_run.
  destruct (empty_input buffer); [by constructor|].
  destruct (sharp_webp env _); [|by repeat constructor].
  destruct (optimizer.below_limit buffer); [by repeat constructor|].
  destruct (sharp_avif env _); by repeat constructor.
Qed.

Ltac off_table_list :=
  repeat first
    [ apply off_table_app
    | apply transcode_events_off_table
    | apply Forall_nil_2
    | apply Forall_cons_2; [reflexivity|] ].

Lemma commit_stops_run env session item e w :
  commit_stops env session item e ->
  exists evs,
    optimizer.commitImage env session item w = (Throw e, log w evs) /\ off_table evs.
Proof.
  intros Hstop. unfold optimizer.commitImage.
  destruct Hstop as
    [Hs | m Hs Hf | st body Hs Hf | st body m Hs Hf Ht
     | st body b f m Hs Hf Ht Hp | st body b f st' image Hs Hf Ht Hp
     | st body b f st' image Hs Hf Ht Hp Hid];
    rewrite Hs.
  - exists []. split; [by rewrite log_nil|off_table_list].
  - unfold bind. rewrite emit_log, Hf. eexists. split; [reflexivity|off_table_list].
  - unfold bind. rewrite emit_log, Hf. simpl.
    eexists. split; [reflexivity|off_table_list].
  - unfold bind at 1. rewrite emit_log, Hf. simpl.
    unfold bind at 1. rewrite optimizeImageLogic_frame, Ht, log_log.
    eexists. split; [reflexivity|off_table_list].
  - unfold bind at 1. rewrite emit_log, Hf. simpl.
    unfold bind at 1. rewrite optimizeImageLogic_frame, Ht. simpl.
    unfold bind at 1. rewrite emit_log, Hp, !log_log.
    eexists. split; [reflexivity|off_table_list].
  - unfold bind at 1. rewrite emit_log, Hf. simpl.
    unfold bind at 1. rewrite optimizeImageLogic_frame, Ht. simpl.
    unfold bind at 1. rewrite emit_log, Hp, !log_log. simpl.
    eexists. split; [reflexivity|off_table_list].
  - unfold bind at 1. rewrite emit_log, Hf. simpl.
    unfold bind at 1. rewrite optimizeImageLogic_frame, Ht. simpl.
    unfold bind at 1. rewrite emit_log, Hp, !log_log. simpl. rewrite Hid.
    eexists. split; [reflexivity|off_table_list].
Qed.

(** Either the commit stops before the table or it is on the path to it. *)
Lemma commit_stops_or_path env session item :
  (exists e, commit_stops env session item e)
  \/ (exists originalBuffer buffer format img newGid,
        commit_path env session item originalBuffer buffer format img newGid).
Proof.
  destruct (optimizer.invalid_session session) eqn:Hs;
    [left; eexists; by apply stops_invalid_session|].
  destruct (fetch env (c_url item)) as [m|[] st ob] eqn:Hf;
    [left; eexists; by eapply stops_download_throws | |
     left; eexists; by eapply stops_download_failed].
  destruct (transcode env ob (c_width item)) as [[b f]|m] eqn:Ht;
    [|left; eexists; by eapply stops_transcode_error].
  destruct (rest_put env
      (optimizer.put_request session item
         (Attachment b ("optimized." +:+ format_name f))))
    as [m|[] st' image] eqn:Hp;
    [left; eexists; by eapply stops_upload_throws | |
     left; eexists; by eapply stops_upload_rejected].
  destruct (image ≫= (fun i => optimizer.id_text (image_id i))) as [newImageId|] eqn:Hid;
    [|left; eexists; by eapply stops_no_image_id].
  destruct image as [img|]; [|discriminate]. simpl in Hid.
  right. do 5 eexists. by econstructor.
Qed.

(** Whatever makes a commit throw, the table is as it was. *)
Lemma commit_throw_keeps_table env session item w e w' :
  optimizer.commitImage env session item w = (Throw e, w') -> db w' = db w.
Proof.
  destruct (commit_stops_or_path env session item)
    as [[e' Hstop] | (ob & b & f & img & g & Hpath)].
  - destruct (commit_stops_run _ _ _ _ w Hstop) as (evs & Hrun & _).
    rewrite Hrun. by intros [= _ <-].
  - destruct Hpath as [st ob b f st' img newImageId Hs Hf Ht Hp Hid].
    unfold optimizer.commitImage. rewrite Hs.
    unfold bind at 1. rewrite emit_log, Hf. simpl.
    unfold bind at 1. rewrite optimizeImageLogic_frame, Ht. simpl.
    unfold bind at 1. rewrite emit_log, Hp. simpl. rewrite Hid.
    unfold bind at 1. rewrite upsert_run.
    destruct (db_fault env (OpUpsert _)); [by intros [= _ <-]|].
    unfold bind, try_catch. case_bool_decide; simpl.
    + rewrite deleteMany_run.
      destruct (db_fault env (OpDeleteMany _)); unfold ret; discriminate.
    + unfold ret; discriminate.
Qed.

(** C9.  Each way of failing before the upsert (invalid credentials, a
    download that throws or is not a success, a transcode error, an upload
    that throws, is rejected or names no image) makes [commitImage] throw
    with the table unchanged and no Prisma call issued; and in any run,
    either no Prisma call was issued or the upload had succeeded and
    returned a new identifier. *)
Theorem commit_failure_before_upsert env session item w :
  (forall e, commit_stops env session item e ->
     exists w',
       optimizer.commitImage env session item w = (Throw e, w')
       /\ db w' = db w
       /\ off_table (issued w w'))
  /\ (forall r w',
        optimizer.commitImage env session item w = (r, w') ->
        off_table (issued w w')
        \/ exists originalBuffer buffer format img newGid,
             commit_path env session item originalBuffer buffer format img newGid).
Proof.
  split.
  - intros e Hstop.
    destruct (commit_stops_run _ _ _ _ w Hstop) as (evs & Hrun & Hoff).
    exists (log w evs). rewrite issued_log. by repeat split.
  - intros r w' Hrun.
    destruct (commit_stops_or_path env session item)
      as [[e Hstop] | Hpath]; [left | by right].
    destruct (commit_stops_run _ _ _ _ w Hstop) as (evs & Hrun' & Hoff).
    rewrite Hrun' in Hrun. injection Hrun as _ <-. by rewrite issued_log.
Qed.

Lemma commit_failure_before_upsert_witness :
  commit_stops sample.corrupt_image sample.merchant (sample.item sample.old_gid)
    "Image processing failed: Input buffer contains unsupported image format"
  /\ exists w',
       optimizer.commitImage sample.corrupt_image sample.merchant
         (sample.item sample.old_gid) sample.optimized_before
       = (Throw "Image processing failed: Input buffer contains unsupported image format", w')
       /\ db w' = db sample.optimized_before
       /\ off_table (issued sample.optimized_before w').
Proof.
  assert (Hstop : commit_stops sample.corrupt_image sample.merchant
            (sample.item sample.old_gid)
            "Image processing failed: Input buffer contains unsupported image format").
  { eapply (stops_transcode_error _ _ _ 200 (sample.bytes 100));
      vm_compute; reflexivity. }
  split; [exact Hstop|].
  exact (proj1 (commit_failure_before_upsert sample.corrupt_image sample.merchant
                  (sample.item sample.old_gid) sample.optimized_before) _ Hstop).
Defined.

(** ** Restore *)

(** A restore that returns found a row with a backup URL under the item's
    identifier and deleted exactly that row. *)
Lemma restore_returns env session item w r w' :
  optimizer.restoreImage env session item w = (Ret r, w') ->
  exists row,
    db w !! c_id item = Some row
    /\ Js.truthy (originalUrl row) = true
    /\ db w' = delete (c_id item) (db w).
Proof.
  unfold optimizer.restoreImage.
  destruct (optimizer.invalid_session session); [thrown|].
  unfold bind at 1. rewrite findUnique_run.
  destruct (db_fault env (OpFindUnique _)); [thrown|]. simpl.
  destruct (db w !! c_id item) as [row|] eqn:Hrow; [|thrown].
  destruct (Js.truthy (originalUrl row)) eqn:Hurl; simpl; [|thrown].
  unfold bind at 1. rewrite emit_log.
  destruct (rest_put env _) as [m|[] st image]; simpl; [thrown| |thrown].
  unfold bind. rewrite delete_run.
  destruct (db_fault env (OpDelete _)); [thrown|]. simpl. rewrite Hrow.
  unfold ret. intros ?; simplify_eq. exists row. by simpl.
Qed.

(** C6 (as amended).  When the table has no row under the item's identifier,
    or the row's [originalUrl] is empty, [restoreImage] throws, the table is
    unchanged and no request was sent to the shop.  With invalid credentials
    the error is [Invalid session] and it is raised before the lookup:
    nothing at all was issued.  With valid credentials the lookup is all
    that was issued, and the error is the not-found one unless the lookup
    itself rejected. *)
Theorem restore_without_backup env session item w :
  lacks_backup (db w) (c_id item) ->
  exists e w',
    optimizer.restoreImage env session item w = (Throw e, w')
    /\ db w' = db w
    /\ Forall (fun ev => is_put_event ev = false) (issued w w')
    /\ (optimizer.invalid_session session = true ->
        e = "Invalid session" /\ issued w w' = [])
    /\ (optimizer.invalid_session session = false ->
        issued w w' = [EvDb (OpFindUnique (c_id item))])
    /\ (optimizer.invalid_session session = false ->
        db_fault env (OpFindUnique (c_id item)) = false ->
        e = not_found).
Proof.
  intros Hmissing. unfold optimizer.restoreImage.
  destruct (optimizer.invalid_session session).
  { exists "Invalid session", w. unfold throw, issued.
    rewrite drop_all. do 3 (split; [done|]). by split. }
  unfold bind at 1. rewrite findUnique_run.
  destruct (db_fault env (OpFindUnique _)).
  { eexists _, _. split; [reflexivity|]. rewrite issued_log.
    split; [done|]. split; [by repeat constructor|]. by do 2 (split; [done|]). }
  simpl. unfold lacks_backup in Hmissing.
  destruct (db w !! c_id item) as [row|]; simpl in *.
  - rewrite Hmissing. simpl.
    eexists _, _. split; [reflexivity|]. rewrite issued_log.
    split; [done|]. split; [by repeat constructor|]. by do 2 (split; [done|]).
  - eexists _, _. split; [reflexivity|]. rewrite issued_log.
    split; [done|]. split; [by repeat constructor|]. by do 2 (split; [done|]).
Qed.

Lemma restore_without_backup_witness :
  lacks_backup (db sample.empty_world) (c_id (sample.item sample.old_gid))
  /\ (exists w',
        optimizer.restoreImage (sample.healthy 2000) sample.merchant
          (sample.item sample.old_gid) sample.empty_world = (Throw not_found, w')
        /\ db w' = db sample.empty_world
        /\ issued sample.empty_world w'
           = [EvDb (OpFindUnique (c_id (sample.item sample.old_gid)))])
  /\ (exists w',
        optimizer.restoreImage (sample.healthy 2000) None
          (sample.item sample.old_gid) sample.empty_world
        = (Throw "Invalid session", w')
        /\ db w' = db sample.empty_world
        /\ issued sample.empty_world w' = []).
Proof.
  assert (Hlacks : lacks_backup (db sample.empty_world)
                     (c_id (sample.item sample.old_gid))) by exact I.
  split; [exact Hlacks|]. split.
  - destruct (restore_without_backup (sample.healthy 2000) sample.merchant
                (sample.item sample.old_gid) sample.empty_world Hlacks)
      as (e & w' & Hrun & Hdb & _ & _ & Hissued & Hfound).
    exists w'. rewrite <- (Hfound eq_refl eq_refl).
    split; [exact Hrun|]. split; [exact Hdb|]. exact (Hissued eq_refl).
  - destruct (restore_without_backup (sample.healthy 2000) None
                (sample.item sample.old_gid) sample.empty_world Hlacks)
      as (e & w' & Hrun & Hdb & _ & Hinvalid & _).
    destruct (Hinvalid eq_refl) as [He Hissued].
    exists w'. rewrite <- He.
    split; [exact Hrun|]. split; [exact Hdb|exact Hissued].
Defined.

(** C6 as stated fails: with invalid credentials the error is the
    authorization one, whatever the table holds. *)
Lemma restore_invalid_session_is_not_not_found :
  ~ (forall env session item w,
        db w !! c_id item = None ->
        exists w', optimizer.restoreImage env session item w = (Throw not_found, w')).
Proof.
  intros H.
  destruct (H (sample.healthy 2000) None (sample.item sample.old_gid)
              sample.empty_world eq_refl) as [w' Hrun].
  vm_compute in Hrun. discriminate.
Qed.

(** ** Commit, then restore *)

(** C5.  After a commit that returned [newId] and a restore, on the item
    under that identifier, that returned as well, the table has no row under
    [newId].  If the asset was pending before the commit (no row under its
    old identifier) the table is the one before the commit without [newId];
    if moreover nothing was stored under [newId] it is exactly the table
    before the commit.  If the cleanup in the commit did not reject, the old
    identifier is gone too. *)
Theorem commit_then_restore env1 session1 item w res w1 env2 session2 item' r w2 :
  optimizer.commitImage env1 session1 item w = (Ret res, w1) ->
  c_id item' = newId res ->
  optimizer.restoreImage env2 session2 item' w1 = (Ret r, w2) ->
  db w2 !! newId res = None
  /\ (db w !! c_id item = None -> db w2 = delete (newId res) (db w))
  /\ (db w !! c_id item = None -> db w !! newId res = None -> db w2 = db w)
  /\ (db_fault env1 (OpDeleteMany [c_id item]) = false ->
      db w2 = delete (newId res) (delete (c_id item) (db w))).
Proof.
  intros Hcommit Hid Hrestore.
  destruct (commit_returns _ _ _ _ _ _ Hcommit)
    as (ob & b & f & img & g & _ & _ & -> & Hdb1).
  destruct (restore_returns _ _ _ _ _ _ Hrestore) as (row & _ & _ & Hdb2).
  simpl in *. rewrite Hid in Hdb2. rewrite Hdb2, Hdb1. clear Hdb1 Hdb2.
  split; [apply lookup_delete_eq|].
  destruct (decide (g = c_id item)) as [Heq|Hne].
  - rewrite bool_decide_eq_false_2 by (by intros ?). simpl.
    rewrite delete_insert_eq. rewrite <- Heq.
    repeat split; intros.
    + by apply delete_id.
    + by rewrite (delete_id (delete g (db w))) by apply lookup_delete_eq.
  - rewrite bool_decide_eq_true_2 by done. simpl.
    destruct (db_fault env1 (OpDeleteMany [c_id item])); simpl.
    + rewrite delete_insert_eq.
      repeat split; intros; try done. by apply delete_id.
    + rewrite (delete_delete (<[g:=_]> (db w))), delete_insert_eq.
      repeat split; intros.
      * apply delete_id. by rewrite lookup_delete_ne.
      * rewrite (delete_id (delete g (db w))) by (by rewrite lookup_delete_ne).
        by apply delete_id.
      * apply delete_delete.
Qed.


Lemma commit_then_restore_witness :
  exists res w1 r w2,
    optimizer.commitImage (sample.healthy 2000) sample.merchant
      (sample.item sample.old_gid) sample.empty_world = (Ret res, w1)
    /\ c_id (sample.item sample.new_gid) = newId res
    /\ optimizer.restoreImage (sample.healthy 2000) sample.merchant
         (sample.item sample.new_gid) w1 = (Ret r, w2)
    /\ db w2 !! newId res = None
    /\ db w2 = db sample.empty_world.
Proof.
  destruct (optimizer.commitImage (sample.healthy 2000) sample.merchant
      (sample.item sample.old_gid) sample.empty_world) as [[res|e] w1] eqn:Hcommit.
  2: { exfalso. vm_compute in Hcommit. discriminate. }
  assert (Hid : c_id (sample.item sample.new_gid) = newId res).
  { pose proof Hcommit as H. vm_compute in H. injection H as <- _. reflexivity. }
  destruct (optimizer.restoreImage (sample.healthy 2000) sample.merchant
      (sample.item sample.new_gid) w1) as [[r|e] w2] eqn:Hrestore.
  2: { exfalso. pose proof Hcommit as H. vm_compute in H. injection H as _ <-.
       vm_compute in Hrestore. discriminate. }
  exists res, w1, r, w2.
  destruct (commit_then_restore _ _ _ _ _ _ _ _ _ _ _ Hcommit Hid Hrestore)
    as (Hgone & _ & Hsame & _).
  split; [reflexivity|]. split; [exact Hid|]. split; [exact Hrestore|].
  split; [exact Hgone|].
  apply Hsame; [reflexivity|]. simpl. apply lookup_empty.
Defined.

(** ** The size threshold of the transcoder *)

(** C3 (as amended).  When the encodes the branch needs succeed: an input
    below 200 KB is encoded once, to webp, and that output is returned; an
    input of 200 KB or more is encoded to webp and then to avif, and the
    shorter output is returned, webp on a tie. *)
Theorem transcoder_size_threshold env buffer width w webpBuffer avifBuffer :
  sharp_webp env (optimizer.sharpInstance buffer width) = EncOk webpBuffer ->
  (byteLength buffer >= 200 * 1024 ->
   sharp_avif env (optimizer.sharpInstance buffer width) = EncOk avifBuffer) ->
  if decide (byteLength buffer < 200 * 1024) then
    optimizer.optimizeImageLogic env buffer width w
    = (Ret (webpBuffer, webp), log w [EvEncode webp])
  else
    exists out format,
      optimizer.optimizeImageLogic env buffer width w
      = (Ret (out, format), log w [EvEncode webp; EvEncode avif])
      /\ (byteLength avifBuffer < byteLength webpBuffer ->
          out = avifBuffer /\ format = avif)
      /\ (byteLength webpBuffer <= byteLength avifBuffer ->
          out = webpBuffer /\ format = webp).
Proof.
  intros Hw Ha. case_decide as Hsize.
  - apply transcode_small; [|done].
    unfold optimizer.below_limit, optimizer.WEBP_LIMIT_KB. by apply Z.ltb_lt.
  - assert (Hlarge : optimizer.below_limit buffer = false).
    { unfold optimizer.below_limit, optimizer.WEBP_LIMIT_KB. apply Z.ltb_ge. lia. }
    rewrite (transcode_large env buffer width webpBuffer avifBuffer w Hlarge Hw)
      by (apply Ha; lia).
    destruct (Z.ltb_spec (byteLength avifBuffer) (byteLength webpBuffer)).
    + exists avifBuffer, avif. repeat split; try done; lia.
    + exists webpBuffer, webp. repeat split; try done; lia.
Qed.

Lemma transcoder_size_threshold_witness :
  sharp_webp (sample.healthy 2000)
    (optimizer.sharpInstance (sample.bytes sample.threshold) (Some 1200)) = EncOk (sample.bytes 900)
  /\ (byteLength (sample.bytes sample.threshold) >= 200 * 1024 ->
      sharp_avif (sample.healthy 2000)
        (optimizer.sharpInstance (sample.bytes sample.threshold) (Some 1200))
      = EncOk (sample.bytes 700))
  /\ optimizer.optimizeImageLogic (sample.healthy 2000) (sample.bytes sample.threshold)
       (Some 1200) sample.empty_world
     = (Ret (sample.bytes 700, avif),
        log sample.empty_world [EvEncode webp; EvEncode avif]).
Proof.
  assert (Hw : sharp_webp (sample.healthy 2000)
                 (optimizer.sharpInstance (sample.bytes sample.threshold) (Some 1200))
               = EncOk (sample.bytes 900)) by (vm_compute; reflexivity).
  split; [exact Hw|]. split; [reflexivity|].
  pose proof (transcoder_size_threshold (sample.healthy 2000) (sample.bytes sample.threshold)
                (Some 1200) sample.empty_world (sample.bytes 900) (sample.bytes 700)
                Hw (fun _ => eq_refl)) as H.
  case_decide as Hsize.
  { exfalso. revert Hsize. vm_compute. discriminate. }
  destruct H as (out & format & -> & Hless & _).
  destruct Hless as [-> ->]; [vm_compute; reflexivity | reflexivity].
Defined.

(** C3 as stated fails on bytes sharp cannot read: below the threshold no
    output is returned, and at or above it a failed primary encode is the
    only encode performed. *)
Lemma transcoder_encode_failure :
  ~ (forall env buffer width w,
       byteLength buffer < 200 * 1024 ->
       exists out w',
         optimizer.optimizeImageLogic env buffer width w = (Ret (out, webp), w'))
  /\ ~ (forall env buffer width w r w',
          200 * 1024 <= byteLength buffer ->
          optimizer.optimizeImageLogic env buffer width w = (r, w') ->
          filter (fun ev => is_encode_event ev = true) (issued w w')
          = [EvEncode webp; EvEncode avif]).
Proof.
  split.
  - intros H.
    destruct (H sample.corrupt_image (sample.bytes 100) None sample.empty_world)
      as (out & w' & Hrun); [vm_compute; reflexivity|].
    vm_compute in Hrun. discriminate.
  - intros H.
    specialize (H sample.corrupt_image (sample.bytes sample.threshold) None sample.empty_world).
    destruct (optimizer.optimizeImageLogic sample.corrupt_image (sample.bytes sample.threshold)
                None sample.empty_world) as [r w'] eqn:Hrun.
    specialize (H r w' ltac:(vm_compute; discriminate) eq_refl).
    vm_compute in Hrun. injection Hrun as <- <-.
    vm_compute in H. discriminate.
Qed.

(** ** The scanner *)

Lemma seen_matches_start : seen_matches scanner.start.
Proof. intros k. simpl. set_solver. Qed.

Lemma visit_image_seen recordMap p st img :
  seen_matches st -> seen_matches (scanner.visit_image recordMap p st img).
Proof.
  intros Hst k. unfold scanner.visit_image. simpl.
  rewrite fmap_app, elem_of_app, elem_of_union, elem_of_singleton, (Hst k).
  simpl. rewrite list_elem_of_singleton. tauto.
Qed.

Lemma visit_product_seen recordMap st p :
  seen_matches st -> seen_matches (scanner.visit_product recordMap st p).
Proof.
  unfold scanner.visit_product. revert st.
  induction (p_images p) as [|img imgs IH]; intros st Hst; simpl; [done|].
  by apply IH, visit_image_seen.
Qed.

Lemma visit_page_seen recordMap st page :
  seen_matches st -> seen_matches (scanner.visit_page recordMap st page).
Proof.
  unfold scanner.visit_page. revert st.
  induction (nodes page) as [|p ps IH]; intros st Hst; simpl; [done|].
  by apply IH, visit_product_seen.
Qed.

(** However the paging ends, it has only queried the catalog: the table is
    untouched and the identifiers seen match the candidates. *)
Lemma paging_frame fuel env recordMap n cursor st w ending st' w' :
  scanner.paging fuel env recordMap n cursor st w = (ending, st', w') ->
  seen_matches st ->
  seen_matches st'
  /\ exists pages,
       w' = log w pages /\ Forall (fun ev => is_graphql_event ev = true) pages.
Proof.
  revert n cursor st w.
  induction fuel as [|fuel IH]; intros n cursor st w Hrun Hst; simpl in Hrun.
  - injection Hrun as <- <- <-. split; [done|]. exists []. by rewrite log_nil.
  - destruct (graphql env n cursor) as [m|page].
    + injection Hrun as <- <- <-. split; [done|].
      exists [EvGraphql cursor]. split; [done|by repeat constructor].
    + destruct (hasNextPage page && _).
      * apply IH in Hrun as (Hseen & pages & -> & Hpages);
          [|by apply visit_page_seen].
        split; [done|]. exists (EvGraphql cursor :: pages).
        split; [unfold log; simpl; by rewrite <- app_assoc | by constructor].
      * injection Hrun as <- <- <-. split; [by apply visit_page_seen|].
        exists [EvGraphql cursor]. split; [done|by repeat constructor].
Qed.

(** A paging that ended, by finishing or by a throw, ends the same way with
    any larger bound on the number of queries. *)
Lemma paging_more_fuel fuel fuel' env recordMap n cursor st w ending st' w' :
  scanner.paging fuel env recordMap n cursor st w = (ending, st', w') ->
  ending ≠ scanner.OutOfFuel ->
  (fuel <= fuel')%nat ->
  scanner.paging fuel' env recordMap n cursor st w = (ending, st', w').
Proof.
  revert fuel' n cursor st w.
  induction fuel as [|fuel IH]; intros fuel' n cursor st w Hrun Hend Hle;
    simpl in Hrun.
  - by injection Hrun as <- <- <-.
  - destruct fuel' as [|fuel']; [lia|]. simpl.
    destruct (graphql env n cursor) as [m|page]; [done|].
    destruct (hasNextPage page && _); [|done].
    apply IH; [done | done | lia].
Qed.

(** A query that throws ends the paging at once, with the state as it was. *)
Lemma paging_throw fuel env recordMap n cursor st w message :
  graphql env n cursor = GraphqlThrows message ->
  scanner.paging (S fuel) env recordMap n cursor st w
  = (scanner.Threw message, st, log w [EvGraphql cursor]).
Proof. intros H. simpl. by rewrite H. Qed.

(** A page that announces a successor, below the cap, is visited and the
    paging goes on with its end cursor. *)
Lemma paging_next fuel env recordMap n cursor st w page :
  graphql env n cursor = GraphqlPage page ->
  hasNextPage page = true ->
  (Z.of_nat (length (scanner.results (scanner.visit_page recordMap st page))) <= 2500) ->
  scanner.paging (S fuel) env recordMap n cursor st w
  = scanner.paging fuel env recordMap (S n) (endCursor page)
      (scanner.visit_page recordMap st page) (log w [EvGraphql cursor]).
Proof.
  intros H Hnext Hcap. simpl. rewrite H, Hnext. simpl.
  by rewrite (proj2 (Z.ltb_ge _ _) Hcap).
Qed.

Lemma scan_unfold fuel env type w :
  db_fault env OpFindMany = false ->
  scanner.scanShop fuel env type w
  = let '(ending, st, w2) := scan_paging fuel env type w in
    match ending with
    | scanner.OutOfFuel => None
    | scanner.Threw _ => Some (scanner.results st, w2)
    | scanner.Finished =>
        let stale := scanner.staleRecords (map_to_list (db w)) st in
        if bool_decide (0 < length stale)%nat
        then Some (scanner.results st,
                   (prisma.deleteMany env (shopifyImageId <$> stale) w2).2)
        else Some (scanner.results st, w2)
    end.
Proof.
  intros Hload. unfold scanner.scanShop, scan_paging.
  rewrite findMany_run, Hload. simpl.
  destruct (scanner.wants_products type).
  - destruct (scanner.paging _ _ _ _ _ _ _) as [[[] st] w2]; try done.
    case_bool_decide; [|done]. by destruct (prisma.deleteMany _ _ _).
  - case_bool_decide; [|done]. by destruct (prisma.deleteMany _ _ _).
Qed.

Lemma staleRecords_stale_rows (t : gmap string ImageFields) st results :
  seen_matches st ->
  results = scanner.results st ->
  scanner.staleRecords (map_to_list t) st = stale_rows t results.
Proof.
  intros Hst ->. unfold scanner.staleRecords, stale_rows.
  apply list_filter_iff. intros r. by rewrite (Hst (shopifyImageId r)).
Qed.

(** Deleting the keys of the stale rows keeps exactly the rows whose key is
    the identifier of a candidate. *)
Lemma delete_stale_rows (t : gmap string ImageFields) (results : list Candidate) :
  filter (fun kv : string * ImageFields =>
            kv.1 ∉ shopifyImageId <$> stale_rows t results) t
  = filter (fun kv : string * ImageFields => kv.1 ∈ c_id <$> results) t.
Proof.
  apply map_filter_strong_ext. intros k v. simpl.
  split; intros [Hk Hv]; (split; [|done]).
  - destruct (decide (k ∈ c_id <$> results)) as [|Hout]; [done|].
    exfalso. apply Hk. apply list_elem_of_fmap. exists (k, v). split; [done|].
    apply list_elem_of_filter. split; [done|]. by apply elem_of_map_to_list.
  - intros ((k' & v') & -> & Hin)%list_elem_of_fmap.
    apply list_elem_of_filter in Hin as [Hout _]. by apply Hout.
Qed.

Lemma filter_not_in_nil (t : gmap string ImageFields) :
  filter (fun kv : string * ImageFields => kv.1 ∉ @nil string) t = t.
Proof.
  apply map_filter_id. intros k v _. apply not_elem_of_nil.
Qed.

(** The outcome of the paging does not depend on the bound, once the bound
    is large enough for the paging to end. *)
Lemma scan_paging_more_fuel fuel fuel' env type w ending st w1 :
  scan_paging fuel env type w = (ending, st, w1) ->
  ending ≠ scanner.OutOfFuel ->
  (fuel <= fuel')%nat ->
  scan_paging fuel' env type w = (ending, st, w1).
Proof.
  unfold scan_paging. destruct (scanner.wants_products type); [|done].
  apply paging_more_fuel.
Qed.

Lemma recordMap_of_fold (l : list ImageRecord) (acc : Table) :
  NoDup l.*1 ->
  foldl (fun m r => <[shopifyImageId r := r.2]> m) acc l = list_to_map l ∪ acc.
Proof.
  revert acc. induction l as [|[k v] l IH]; intros acc Hnd.
  - simpl. by rewrite (left_id_L ∅ (∪)).
  - rewrite fmap_cons in Hnd. apply NoDup_cons in Hnd as [Hk Hnd].
    simpl. rewrite IH by done. unfold shopifyImageId. simpl.
    rewrite <- insert_union_l. symmetry. apply insert_union_r.
    by apply not_elem_of_list_to_map_1.
Qed.

Lemma recordMap_of_table (t : Table) : scanner.recordMap_of (map_to_list t) = t.
Proof.
  unfold scanner.recordMap_of.
  rewrite recordMap_of_fold by apply NoDup_fst_map_to_list.
  by rewrite (right_id_L ∅ (∪)), list_to_map_to_list.
Qed.

Lemma visit_product_results recordMap st p :
  scanner.results (scanner.visit_product recordMap st p)
  = (scanner.results st ++ (scanner.candidate recordMap p <$> p_images p))%list.
Proof.
  unfold scanner.visit_product. revert st.
  induction (p_images p) as [|img imgs IH]; intros st; simpl.
  - by rewrite app_nil_r.
  - rewrite IH. simpl. by rewrite <- app_assoc.
Qed.

Lemma visit_page_results recordMap st page :
  scanner.results (scanner.visit_page recordMap st page)
  = (scanner.results st ++ page_candidates recordMap page)%list.
Proof.
  unfold scanner.visit_page, page_candidates, page_images. revert st.
  induction (nodes page) as [|p ps IH]; intros st; simpl.
  - by rewrite app_nil_r.
  - rewrite IH, visit_product_results, fmap_app, <- list_fmap_compose, app_assoc.
    done.
Qed.

Lemma page_candidates_length recordMap page :
  length (page_candidates recordMap page) = length (page_images page).
Proof. unfold page_candidates. by rewrite length_fmap. Qed.

Lemma candidates_of_app t images images' :
  candidates_of t (images ++ images')
  = (candidates_of t images ++ candidates_of t images')%list.
Proof. apply fmap_app. Qed.

Lemma candidates_of_ids t images :
  c_id <$> candidates_of t images = (fun pi => img_id pi.2) <$> images.
Proof. unfold candidates_of. by rewrite <- list_fmap_compose. Qed.

(** What the paging loop accumulates are the candidates for the images of
    the pages the catalog answered, in order. *)
Lemma paging_pages fuel env recordMap n cursor st w ending st' w' :
  scanner.paging fuel env recordMap n cursor st w = (ending, st', w') ->
  scanner.results st'
  = (scanner.results st
     ++ candidates_of recordMap
          (pages_from fuel env n cursor (length (scanner.results st))
             ≫= page_images))%list.
Proof.
  revert n cursor st w.
  induction fuel as [|fuel IH]; intros n cursor st w Hrun; simpl in Hrun |- *.
  - injection Hrun as <- <- <-. by rewrite app_nil_r.
  - destruct (graphql env n cursor) as [message|page].
    + injection Hrun as <- <- <-. by rewrite app_nil_r.
    + pose proof (visit_page_results recordMap st page) as Hpage.
      assert (length (scanner.results (scanner.visit_page recordMap st page))
              = (length (scanner.results st) + length (page_images page))%nat) as Hlen.
      { by rewrite Hpage, length_app, page_candidates_length. }
      rewrite Hlen in Hrun. rewrite bind_cons, candidates_of_app.
      destruct (hasNextPage page && _).
      * apply IH in Hrun. rewrite Hrun, Hlen, Hpage. by rewrite <- app_assoc.
      * injection Hrun as <- <- <-. rewrite Hpage. simpl. by rewrite app_nil_r.
Qed.

Lemma scan_paging_pages fuel env type w ending st w1 :
  scan_paging fuel env type w = (ending, st, w1) ->
  scanner.results st = candidates_of (db w) (images_read fuel env type).
Proof.
  unfold scan_paging, images_read, pages_read. rewrite recordMap_of_table.
  destruct (scanner.wants_products type).
  - intros Hrun. by apply paging_pages in Hrun.
  - by intros [= _ <- _].
Qed.

(** C4 (as amended).  The candidates a scan accumulates are those of the
    images of the catalog pages it read.  When nothing throws (the rows are
    loaded, the paging finishes, the batched delete does not reject), the
    scan returns them and the table afterwards holds exactly the rows whose
    key is the identifier of one of these images; the rows removed are the
    stale ones, and they are removed by one [deleteMany] issued after the
    last catalog query.  When the batched delete rejects, when loading the
    rows rejects or when a catalog query throws, the scan still returns and
    every row stays. *)
Theorem scan_removes_stale_rows fuel env type w :
  let images := images_read fuel env type in
  let keys := (fun pi : Product * Image => img_id pi.2) <$> images in
  (db_fault env OpFindMany = false ->
   forall st w2,
     scan_paging fuel env type w = (scanner.Finished, st, w2) ->
     let stale := stale_rows (db w) (scanner.results st) in
     scanner.results st = candidates_of (db w) images
     /\ (forall r, r ∈ stale <-> r ∈ map_to_list (db w) /\ shopifyImageId r ∉ keys)
     /\ forall fuel', (fuel <= fuel')%nat ->
        exists w',
          scanner.scanShop fuel' env type w = Some (scanner.results st, w')
          /\ (db_fault env (OpDeleteMany (shopifyImageId <$> stale)) = false ->
              db w' = filter (fun kv : string * ImageFields => kv.1 ∈ keys) (db w))
          /\ (db_fault env (OpDeleteMany (shopifyImageId <$> stale)) = true ->
              db w' = db w)
          /\ exists pages,
               Forall (fun ev => is_graphql_event ev = true) pages
               /\ issued w w'
                  = EvDb OpFindMany :: pages
                    ++ match stale with
                       | [] => []
                       | _ => [EvDb (OpDeleteMany (shopifyImageId <$> stale))]
                       end)
  /\ (db_fault env OpFindMany = true ->
      forall fuel',
        exists w', scanner.scanShop fuel' env type w = Some ([], w') /\ db w' = db w)
  /\ (db_fault env OpFindMany = false ->
      forall message st w1,
        scan_paging fuel env type w = (scanner.Threw message, st, w1) ->
        scanner.results st = candidates_of (db w) images
        /\ forall fuel', (fuel <= fuel')%nat ->
             exists w',
               scanner.scanShop fuel' env type w = Some (scanner.results st, w')
               /\ db w' = db w).
Proof.
  cbv zeta. split; [|split].
  - intros Hload st w2 Hpaging.
    pose proof (scan_paging_pages _ _ _ _ _ _ _ Hpaging) as Hresults.
    assert (Hkeys : c_id <$> scanner.results st
                    = (fun pi : Product * Image => img_id pi.2)
                        <$> images_read fuel env type)
      by (by rewrite Hresults, candidates_of_ids).
    split; [exact Hresults|]. split.
    { intros r. unfold stale_rows. rewrite list_elem_of_filter, Hkeys. tauto. }
    intros fuel' Hle.
    apply (scan_paging_more_fuel _ fuel') in Hpaging; [|done|done].
    rewrite (scan_unfold _ _ _ _ Hload), Hpaging.
    assert (Hframe : seen_matches st
              /\ exists pages, w2 = log w (EvDb OpFindMany :: pages)
                   /\ Forall (fun ev => is_graphql_event ev = true) pages).
    { unfold scan_paging in Hpaging. destruct (scanner.wants_products type).
      - apply paging_frame in Hpaging as (Hseen & pages & -> & Hpages);
          [|apply seen_matches_start].
        split; [done|]. exists pages. by rewrite log_log.
      - injection Hpaging as <- <-. split; [apply seen_matches_start|].
        exists []. by split. }
    destruct Hframe as (Hseen & pages & -> & Hpages).
    cbv zeta.
    rewrite (staleRecords_stale_rows _ _ (scanner.results st) Hseen eq_refl).
    rewrite <- Hkeys, <- delete_stale_rows.
    destruct (stale_rows (db w) (scanner.results st)) as [|r stale] eqn:Hstale.
    + rewrite bool_decide_eq_false_2 by (simpl; lia).
      eexists. split; [reflexivity|]. simpl.
      split; [by rewrite filter_not_in_nil|]. split; [done|].
      exists pages. split; [done|]. by rewrite issued_log, app_nil_r.
    + rewrite bool_decide_eq_true_2 by (simpl; lia).
      rewrite deleteMany_run.
      destruct (db_fault env (OpDeleteMany _)) eqn:Hdelete.
      * eexists. split; [reflexivity|]. simpl.
        split; [done|]. split; [done|].
        exists pages. split; [done|]. by rewrite log_log, issued_log.
      * eexists. split; [reflexivity|]. simpl.
        split; [done|]. split; [done|].
        exists pages. split; [done|].
        unfold issued. simpl. by rewrite <- (app_assoc (trace w)), drop_app_length.
  - intros Hload fuel'. unfold scanner.scanShop. rewrite findMany_run, Hload.
    by eexists.
  - intros Hload message st w1 Hpaging.
    split; [by apply scan_paging_pages in Hpaging|].
    intros fuel' Hle.
    apply (scan_paging_more_fuel _ fuel') in Hpaging; [|done|done].
    rewrite (scan_unfold _ _ _ _ Hload), Hpaging. exists w1. split; [done|].
    unfold scan_paging in Hpaging. destruct (scanner.wants_products type); [|done].
    by apply paging_frame in Hpaging as (_ & pages & -> & _);
      [|apply seen_matches_start].
Qed.

Lemma scan_removes_stale_rows_witness :
  (exists st w2 w',
     db_fault (sample.shop_with sample.two_products) OpFindMany = false
     /\ scan_paging 1 (sample.shop_with sample.two_products) "all" sample.three_rows
        = (scanner.Finished, st, w2)
     /\ (c_id <$> scanner.results st)
        = ["gid://shopify/ProductImage/9001"; "gid://shopify/ProductImage/9003";
           "gid://shopify/ProductImage/9004"]
     /\ scanner.results st
        = candidates_of (db sample.three_rows)
            (images_read 1 (sample.shop_with sample.two_products) "all")
     /\ scanner.scanShop 5 (sample.shop_with sample.two_products) "all"
          sample.three_rows = Some (scanner.results st, w')
     /\ size (db sample.three_rows) = 3%nat
     /\ size (db w') = 2%nat
     /\ db w' !! "gid://shopify/ProductImage/4000" = None)
  /\ (exists st w2 w',
        scan_paging 1 (sample.sweep_rejects sample.two_products) "all" sample.three_rows
        = (scanner.Finished, st, w2)
        /\ length (scanner.results st) = 3%nat
        /\ scanner.scanShop 5 (sample.sweep_rejects sample.two_products) "all"
             sample.three_rows = Some (scanner.results st, w')
        /\ db w' = db sample.three_rows
        /\ is_Some (db w' !! "gid://shopify/ProductImage/4000")).
Proof.
  split.
  - destruct (scan_paging 1 (sample.shop_with sample.two_products) "all"
                sample.three_rows) as [[ending st] w2] eqn:Hpaging.
    assert (Hend : ending = scanner.Finished
                   /\ (c_id <$> scanner.results st)
                      = ["gid://shopify/ProductImage/9001";
                         "gid://shopify/ProductImage/9003";
                         "gid://shopify/ProductImage/9004"]).
    { pose proof Hpaging as H. vm_compute in H. injection H as <- <- _. by split. }
    destruct Hend as [-> Hids].
    destruct (proj1 (scan_removes_stale_rows 1 (sample.shop_with sample.two_products)
                       "all" sample.three_rows) eq_refl st w2 Hpaging)
      as (Hresults & _ & Hscan).
    destruct (Hscan 5%nat ltac:(lia)) as (w' & Hrun & Hdb & _).
    specialize (Hdb eq_refl).
    exists st, w2, w'.
    split; [reflexivity|]. split; [reflexivity|]. split; [exact Hids|].
    split; [exact Hresults|]. split; [exact Hrun|].
    split; [vm_compute; reflexivity|].
    rewrite Hdb. split; [vm_compute; reflexivity|].
    apply map_lookup_filter_None. right. intros v _ Hin. revert Hin.
    vm_compute. intros Hin.
    repeat (apply elem_of_cons in Hin as [Hin|Hin]; [discriminate|]).
    by apply elem_of_nil in Hin.
  - destruct (scan_paging 1 (sample.sweep_rejects sample.two_products) "all"
                sample.three_rows) as [[ending st] w2] eqn:Hpaging.
    assert (Hend : ending = scanner.Finished /\ length (scanner.results st) = 3%nat).
    { pose proof Hpaging as H. vm_compute in H. injection H as <- <- _. by split. }
    destruct Hend as [-> Hlen].
    destruct (proj1 (scan_removes_stale_rows 1 (sample.sweep_rejects sample.two_products)
                       "all" sample.three_rows) eq_refl st w2 Hpaging)
      as (_ & _ & Hscan).
    destruct (Hscan 5%nat ltac:(lia)) as (w' & Hrun & _ & Hkept & _).
    specialize (Hkept eq_refl).
    exists st, w2, w'.
    split; [reflexivity|]. split; [exact Hlen|]. split; [exact Hrun|].
    split; [exact Hkept|]. rewrite Hkept. by eexists.
Defined.

(** A scan whose paging throws returns what the loop had accumulated and
    issues nothing after the failed query. *)
Lemma scan_paging_threw fuel env type w message st w1 :
  db_fault env OpFindMany = false ->
  scan_paging fuel env type w = (scanner.Threw message, st, w1) ->
  scanner.scanShop fuel env type w = Some (scanner.results st, w1)
  /\ db w1 = db w
  /\ exists pages,
       Forall (fun ev => is_graphql_event ev = true) pages
       /\ issued w w1 = EvDb OpFindMany :: pages.
Proof.
  intros Hload Hpaging. rewrite (scan_unfold _ _ _ _ Hload), Hpaging.
  split; [done|].
  unfold scan_paging in Hpaging. destruct (scanner.wants_products type); [|done].
  apply paging_frame in Hpaging as (_ & pages & -> & Hpages);
    [|apply seen_matches_start].
  split; [done|]. exists pages. split; [done|]. by rewrite log_log, issued_log.
Qed.

(** C4 as stated fails: when a catalog query throws, the scan still
    completes, and the rows that were not seen stay in the table. *)
Lemma scan_error_keeps_stale_rows :
  ~ (forall fuel env type w results w',
       scanner.scanShop fuel env type w = Some (results, w') ->
       db w' = filter (fun kv : string * ImageFields => kv.1 ∈ c_id <$> results) (db w)).
Proof.
  intros H.
  destruct (scan_paging 5 (sample.shop_with sample.second_page_fails) "all"
              sample.two_rows) as [[ending st] w1] eqn:Hpaging.
  assert (Hend : ending = scanner.Threw "Throttled"
                 /\ c_id <$> scanner.results st = ["gid://shopify/ProductImage/9001"]).
  { vm_compute in Hpaging. injection Hpaging as <- <- _. by split. }
  destruct Hend as [-> Hids].
  destruct (scan_paging_threw 5 (sample.shop_with sample.second_page_fails) "all"
              sample.two_rows _ _ _ eq_refl Hpaging) as (Hscan & Hdb & _).
  apply H in Hscan. rewrite Hdb, Hids in Hscan.
  assert (Hrow : is_Some (db sample.two_rows !! "gid://shopify/ProductImage/4000"))
    by (vm_compute; eauto).
  rewrite Hscan in Hrow. destruct Hrow as [v Hv].
  apply map_lookup_filter_Some in Hv as [_ Hin]. simpl in Hin.
  apply list_elem_of_singleton in Hin. discriminate.
Qed.

(** C10.  When loading the rows rejects, the scan returns no candidate and
    issues nothing else; when a catalog query throws, the scan returns the
    candidates the loop had accumulated, which are those of the images of
    the pages answered before the throw, for every bound on the number of
    queries that reaches the throw.  In both cases the table is unchanged
    and no [deleteMany] is issued. *)
Theorem scan_error_skips_cleanup env type w :
  (db_fault env OpFindMany = true ->
   forall fuel,
     scanner.scanShop fuel env type w = Some ([], log w [EvDb OpFindMany]))
  /\ (db_fault env OpFindMany = false ->
      forall fuel message st w1,
        scan_paging fuel env type w = (scanner.Threw message, st, w1) ->
        scanner.results st = candidates_of (db w) (images_read fuel env type)
        /\ db w1 = db w
        /\ (exists pages,
              Forall (fun ev => is_graphql_event ev = true) pages
              /\ issued w w1 = EvDb OpFindMany :: pages)
        /\ forall fuel', (fuel <= fuel')%nat ->
             scanner.scanShop fuel' env type w = Some (scanner.results st, w1)).
Proof.
  split.
  - intros Hload fuel. unfold scanner.scanShop. by rewrite findMany_run, Hload.
  - intros Hload fuel message st w1 Hpaging.
    destruct (scan_paging_threw _ _ _ _ _ _ _ Hload Hpaging) as (_ & Hdb & Hissued).
    split; [by apply scan_paging_pages in Hpaging|].
    split; [done|]. split; [done|]. intros fuel' Hle.
    eapply scan_paging_threw; [done|].
    by eapply scan_paging_more_fuel.
Qed.

Lemma scan_error_skips_cleanup_witness :
  db_fault sample.table_down OpFindMany = true
  /\ scanner.scanShop 5 sample.table_down "all" sample.three_rows
     = Some ([], log sample.three_rows [EvDb OpFindMany])
  /\ db_fault (sample.shop_with sample.throttled_after_first) OpFindMany = false
  /\ exists st w1,
       scan_paging 2 (sample.shop_with sample.throttled_after_first) "all"
         sample.three_rows = (scanner.Threw "Throttled", st, w1)
       /\ c_id <$> scanner.results st
          = ["gid://shopify/ProductImage/9001"; "gid://shopify/ProductImage/9003";
             "gid://shopify/ProductImage/9004"]
       /\ scanner.results st
          = candidates_of (db sample.three_rows)
              (images_read 2 (sample.shop_with sample.throttled_after_first) "all")
       /\ db w1 = db sample.three_rows
       /\ scanner.scanShop 7 (sample.shop_with sample.throttled_after_first) "all"
            sample.three_rows = Some (scanner.results st, w1).
Proof.
  split; [reflexivity|].
  split.
  { exact (proj1 (scan_error_skips_cleanup sample.table_down "all" sample.three_rows)
             eq_refl 5%nat). }
  split; [reflexivity|].
  destruct (scan_paging 2 (sample.shop_with sample.throttled_after_first) "all"
              sample.three_rows) as [[ending st] w1] eqn:Hpaging.
  assert (Hend : ending = scanner.Threw "Throttled"
                 /\ c_id <$> scanner.results st
                    = ["gid://shopify/ProductImage/9001";
                       "gid://shopify/ProductImage/9003";
                       "gid://shopify/ProductImage/9004"]).
  { vm_compute in Hpaging. injection Hpaging as <- <- _. by split. }
  destruct Hend as [-> Hids].
  exists st, w1. split; [reflexivity|]. split; [exact Hids|].
  destruct (proj2 (scan_error_skips_cleanup
                     (sample.shop_with sample.throttled_after_first) "all"
                     sample.three_rows)
              eq_refl _ _ _ _ Hpaging) as (Hresults & Hdb & _ & Hscan).
  split; [exact Hresults|]. split; [exact Hdb|]. apply Hscan. lia.
Defined.

(** ** The bulk runner *)

(** The cases of the page functions. *)
Ltac page_cases :=
  unfold route.happen, route.optimize_click, route.restore_click, route.lower_flag,
    route.set_flags, route.loader_effect, route.set_toast, route.set_page;
  simpl; repeat (case_match; simpl); try done.

(** What an event leaves of the refs. *)
Lemma happen_refs ev b :
  route.stopBulkRef (route.happen ev b)
  = match ev with
    | route.StopRequested | route.Unmounted => true
    | route.Superseded => false
    | _ => route.stopBulkRef b
    end
  /\ route.bulkRunIdRef (route.happen ev b)
     = match ev with
       | route.Superseded => S (route.bulkRunIdRef b)
       | _ => route.bulkRunIdRef b
       end
  /\ route.processedIdsRef (route.happen ev b)
     = match ev with
       | route.Superseded => ∅
       | _ => route.processedIdsRef b
       end
  /\ route.isMountedRef (route.happen ev b)
     = match ev with
       | route.Unmounted => false
       | _ => route.isMountedRef b
       end.
Proof. destruct ev; page_cases. Qed.

(** No event touches the counters, the logs, the server or the progress. *)
Lemma happen_fields ev b :
  route.processedCount (route.happen ev b) = route.processedCount b
  /\ route.errorCount (route.happen ev b) = route.errorCount b
  /\ route.submitted (route.happen ev b) = route.submitted b
  /\ route.settled (route.happen ev b) = route.settled b
  /\ route.server (route.happen ev b) = route.server b
  /\ route.bulkProgress (route.happen ev b) = route.bulkProgress b.
Proof. destruct ev; page_cases. Qed.

Lemma happen_all_fields evs b :
  route.processedCount (route.happen_all evs b) = route.processedCount b
  /\ route.errorCount (route.happen_all evs b) = route.errorCount b
  /\ route.submitted (route.happen_all evs b) = route.submitted b
  /\ route.settled (route.happen_all evs b) = route.settled b
  /\ route.server (route.happen_all evs b) = route.server b
  /\ route.bulkProgress (route.happen_all evs b) = route.bulkProgress b.
Proof.
  unfold route.happen_all. revert b.
  induction evs as [|ev evs IH]; intros b; simpl; [done|].
  destruct (IH (route.happen ev b)) as (-> & -> & -> & -> & -> & ->).
  apply happen_fields.
Qed.




Lemma happen_all_cons ev evs b :
  route.happen_all (ev :: evs) b = route.happen_all evs (route.happen ev b).
Proof. reflexivity. Qed.





Lemma live_check runId b :
  live runId b ->
  route.stopBulkRef b || negb (route.bulkRunIdRef b =? runId)%nat = false.
Proof. intros [-> ->]. by rewrite Nat.eqb_refl. Qed.

Lemma dead_check runId b :
  ~ live runId b ->
  route.stopBulkRef b || negb (route.bulkRunIdRef b =? runId)%nat = true.
Proof.
  intros Hdead. unfold live in Hdead.
  destruct (route.stopBulkRef b); [done|]. simpl.
  destruct (Nat.eqb_spec (route.bulkRunIdRef b) runId); [|done].
  by destruct Hdead.
Qed.

(** A worker that finds the run over leaves everything as it is. *)
Lemma worker_dead ui intent runId total idx rest b :
  ~ live runId b -> route.worker ui intent runId total idx rest b = b.
Proof.
  intros Hdead. destruct rest as [|item rest]; [done|].
  simpl. by rewrite (dead_check _ _ Hdead).
Qed.

(** What a submission leaves behind: the entry logged, the server's new
    world, whatever happened in the page meanwhile, and how the promise
    settled. *)
Lemma submitBulk_state ui intent idx item b :
  exists w',
    route.submitBulk ui intent idx item b
    = ((route.submitBulk ui intent idx item b).1,
       route.settle idx (route.submitBulk ui intent idx item b).1
         (route.happen_all (route.ambient ui idx) (route.in_flight idx item w' b))).
Proof.
  unfold route.submitBulk.
  destruct (route.action _ _ _ _ _) as [data w']. by exists w'.
Qed.

(** A rejection always carries a message. *)
Lemma submitBulk_rejected_message ui intent idx item b message :
  (route.submitBulk ui intent idx item b).1 = route.Rejected message ->
  Js.truthy message = true.
Proof.
  unfold route.submitBulk.
  destruct (route.action _ _ _ _ _) as [data w']. simpl.
  destruct (route.timed_out ui idx); [by intros [= <-]|].
  destruct (bool_decide _); [done|]. intros [= <-].
  destruct (route.a_message data) as [m|]; [|done].
  by destruct (Js.truthy m) eqn:Hm.
Qed.



Lemma worker_cons ui intent runId total idx item rest b :
  live runId b ->
  route.worker ui intent runId total idx (item :: rest) b
  = match route.processItem ui intent runId idx item b with
    | (route.skipped, b1) => route.worker ui intent runId total (S idx) rest b1
    | (route.success, b1) =>
        route.worker ui intent runId total (S idx) rest
          (route.count (S (route.processedCount b1)) (route.errorCount b1) total b1)
    | (route.error message, b1) =>
        route.worker ui intent runId total (S idx) rest
          (if Js.truthy message
           then route.count (route.processedCount b1) (S (route.errorCount b1)) total b1
           else route.count (route.processedCount b1) (route.errorCount b1) total b1)
    end.
Proof. intros Hlive. simpl. by rewrite (live_check _ _ Hlive). Qed.

Lemma processItem_run ui intent runId idx item b :
  live runId b ->
  route.processItem ui intent runId idx item b
  = if bool_decide (c_id item ∈ route.processedIdsRef b) then (route.skipped, b)
    else
      match route.submitBulk ui intent idx item b with
      | (route.Resolved data, b1) =>
          (route.success,
           route.set_view
             (if bool_decide (intent = "optimize")
              then route.updateImageState (c_id item)
                     (route.optimize_updates item (route.a_data data))
              else if bool_decide (intent = "restore")
              then route.updateImageState (c_id item) route.restore_updates
              else fun prev => prev)
             ({[c_id item]} ∪ route.processedIdsRef b1) b1)
      | (route.Rejected message, b1) => (route.error message, b1)
      end.
Proof. intros Hlive. unfold route.processItem. by rewrite (live_check _ _ Hlive). Qed.

(** One step of the worker on an entry that is submitted: what it leaves,
    by the way the promise settled. *)
Lemma worker_submits ui intent runId total idx item rest b :
  live runId b ->
  c_id item ∉ route.processedIdsRef b ->
  exists w' b1,
    let h := route.happen_all (route.ambient ui idx) (route.in_flight idx item w' b) in
    let r := (route.submitBulk ui intent idx item b).1 in
    route.worker ui intent runId total idx (item :: rest) b
    = route.worker ui intent runId total (S idx) rest b1
    /\ route.stopBulkRef b1 = route.stopBulkRef h
    /\ route.bulkRunIdRef b1 = route.bulkRunIdRef h
    /\ route.isMountedRef b1 = route.isMountedRef h
    /\ route.submitted b1 = (route.submitted b ++ [(idx, item)])%list
    /\ route.settled b1 = (route.settled b ++ [(idx, r)])%list
    /\ route.bulkProgress b1
       = ((route.processedCount b1 + route.errorCount b1)%nat, total)
    /\ match r with
       | route.Resolved data =>
           route.processedCount b1 = S (route.processedCount b)
           /\ route.errorCount b1 = route.errorCount b
           /\ route.processedIdsRef b1 = {[c_id item]} ∪ route.processedIdsRef h
           /\ route.scanResults b1
              = (if bool_decide (intent = "optimize")
                 then route.updateImageState (c_id item)
                        (route.optimize_updates item (route.a_data data))
                 else if bool_decide (intent = "restore")
                 then route.updateImageState (c_id item) route.restore_updates
                 else fun prev => prev) (route.scanResults h)
       | route.Rejected _ =>
           route.processedCount b1 = route.processedCount b
           /\ route.errorCount b1 = S (route.errorCount b)
           /\ route.processedIdsRef b1 = route.processedIdsRef h
           /\ route.scanResults b1 = route.scanResults h
       end.
Proof.
  intros Hlive Hnew.
  rewrite (worker_cons _ _ _ _ _ _ _ _ Hlive), (processItem_run _ _ _ _ _ _ Hlive).
  rewrite bool_decide_eq_false_2 by done.
  destruct (submitBulk_state ui intent idx item b) as [w' Hstate].
  pose proof (submitBulk_rejected_message ui intent idx item b) as Hmsg.
  exists w'. rewrite Hstate. cbv zeta.
  destruct (happen_all_fields (route.ambient ui idx) (route.in_flight idx item w' b))
    as (Hp & He & Hs & Hl & _ & _).
  destruct ((route.submitBulk ui intent idx item b).1) as [data|message].
  - eexists. split; [reflexivity|]. simpl. rewrite Hp, He, Hs, Hl. simpl.
    by repeat split.
  - rewrite (Hmsg message eq_refl). eexists. split; [reflexivity|]. simpl.
    rewrite Hp, He, Hs, Hl. simpl. by repeat split.
Qed.




Lemma enumerate_index idx queue i item :
  (i, item) ∈ enumerate idx queue ->
  (idx <= i < idx + length queue)%nat /\ queue !! (i - idx)%nat = Some item.
Proof.
  revert idx. induction queue as [|x queue IH]; intros idx Hin; simpl in *.
  - by apply elem_of_nil in Hin.
  - apply elem_of_cons in Hin as [[= -> ->] | Hin].
    + split; [lia|]. by rewrite Nat.sub_diag.
    + apply IH in Hin as [Hrange Hlook]. split; [lia|].
      replace (i - idx)%nat with (S (i - S idx)) by lia. done.
Qed.

Lemma resolved_count (outs : list (nat * route.Settled)) s :
  length (filter (fun s => resolved s = true) (s :: outs))
  = ((if resolved s then 1 else 0)
     + length (filter (fun s => resolved s = true) outs))%nat
  /\ length (filter (fun s => resolved s = false) (s :: outs))
     = ((if resolved s then 0 else 1)
        + length (filter (fun s => resolved s = false) outs))%nat.
Proof.
  destruct (resolved s) eqn:Hs.
  - rewrite (filter_cons_True (fun s => resolved s = true)) by done.
    rewrite (filter_cons_False (fun s => resolved s = false)) by (by rewrite Hs).
    done.
  - rewrite (filter_cons_False (fun s => resolved s = true)) by (by rewrite Hs).
    rewrite (filter_cons_True (fun s => resolved s = false)) by done.
    done.
Qed.

(** Every stretch of every run, whatever happens in the page: what is
    submitted are entries of the queue, in order; each submission settles
    once; and the two counters count the promises by the way they
    settled. *)
Lemma worker_accounting ui intent runId total queue idx b :
  let b' := route.worker ui intent runId total idx queue b in
  exists subs outs,
    route.submitted b' = (route.submitted b ++ subs)%list
    /\ route.settled b' = (route.settled b ++ outs)%list
    /\ outs.*1 = subs.*1
    /\ subs `sublist_of` enumerate idx queue
    /\ route.processedCount b'
       = (route.processedCount b
          + length (filter (fun s => resolved s = true) outs))%nat
    /\ route.errorCount b'
       = (route.errorCount b
          + length (filter (fun s => resolved s = false) outs))%nat
    /\ length outs = length subs.
Proof.
  cbv zeta. revert idx b.
  induction queue as [|item queue IH]; intros idx b.
  { exists [], []. simpl. rewrite !app_nil_r, !Nat.add_0_r.
    do 3 (split; [done|]). split; [constructor|]. done. }
  destruct (decide (live runId b)) as [Hlive|Hdead].
  2:{ rewrite (worker_dead _ _ _ _ _ _ _ Hdead). exists [], [].
      rewrite !app_nil_r. simpl. rewrite !Nat.add_0_r.
      do 3 (split; [done|]). split; [apply sublist_nil_l|]. done. }
  destruct (decide (c_id item ∈ route.processedIdsRef b)) as [Hdup|Hnew].
  - rewrite (worker_cons _ _ _ _ _ _ _ _ Hlive),
      (processItem_run _ _ _ _ _ _ Hlive), bool_decide_eq_true_2 by done.
    destruct (IH (S idx) b) as (subs & outs & Hs & Hl & Hi & Hin & Hp & He & Hn).
    exists subs, outs. simpl. do 3 (split; [done|]).
    split; [by apply sublist_cons|]. by repeat split.
  - destruct (worker_submits ui intent runId total idx item queue b Hlive Hnew)
      as (w' & b1 & -> & _ & _ & _ & Hsubm & Hsett & _ & Hcount).
    cbv zeta in Hsett, Hcount.
    remember ((route.submitBulk ui intent idx item b).1) as r eqn:Hr. clear Hr.
    destruct (IH (S idx) b1) as (subs & outs & Hs & Hl & Hi & Hin & Hp & He & Hn).
    exists ((idx, item) :: subs), ((idx, r) :: outs).
    destruct (resolved_count outs (idx, r)) as [Hrt Hrf].
    split; [rewrite Hs, Hsubm; by rewrite <- app_assoc|].
    split; [rewrite Hl, Hsett; by rewrite <- app_assoc|].
    split; [rewrite !fmap_cons; by rewrite Hi|].
    split; [by apply sublist_skip|].
    rewrite Hrt, Hrf, Hp, He.
    destruct r; destruct Hcount as (Hp1 & He1 & _);
      change (resolved (idx, route.Resolved data)) with true
      || change (resolved (idx, route.Rejected message)) with false;
      (split; [|split]); simpl; lia.
Qed.

Lemma attempted_app b b' subs :
  route.submitted b' = (route.submitted b ++ subs)%list -> attempted b b' = subs.
Proof. intros H. unfold attempted. by rewrite H, drop_app_length. Qed.

Lemma answered_app b b' outs :
  route.settled b' = (route.settled b ++ outs)%list -> answered b b' = outs.
Proof. intros H. unfold answered. by rewrite H, drop_app_length. Qed.


Lemma finish_fields intent runId b :
  route.processedCount (route.finish intent runId b) = route.processedCount b
  /\ route.errorCount (route.finish intent runId b) = route.errorCount b
  /\ route.submitted (route.finish intent runId b) = route.submitted b
  /\ route.settled (route.finish intent runId b) = route.settled b
  /\ route.server (route.finish intent runId b) = route.server b.
Proof. unfold route.finish. destruct (_ || _); [done|]. page_cases. Qed.





(** The submissions and the counters of a whole run. *)
Lemma runBulkQueue_accounting ui items intent b :
  let b' := route.runBulkQueue ui items intent b in
  attempted b b' `sublist_of` enumerate 0 items
  /\ (answered b b').*1 = (attempted b b').*1
  /\ route.processedCount b'
     = length (filter (fun s => resolved s = true) (answered b b'))
  /\ route.errorCount b'
     = length (filter (fun s => resolved s = false) (answered b b'))
  /\ (route.processedCount b' + route.errorCount b' = length (attempted b b'))%nat.
Proof.
  cbv zeta. unfold route.runBulkQueue. cbv zeta.
  set (b0 := route.begin items b).
  destruct (worker_accounting ui intent (route.bulkRunIdRef b0) (length items) items 0 b0)
    as (subs & outs & Hs & Hl & Hi & Hin & Hp & He & Hn).
  cbv zeta in Hs, Hl, Hp, He.
  destruct (finish_fields intent (route.bulkRunIdRef b0)
              (route.worker ui intent (route.bulkRunIdRef b0) (length items) 0 items b0))
    as (Hfp & Hfe & Hfs & Hfl & _).
  rewrite Hfp, Hfe, Hp, He.
  rewrite (attempted_app b _ subs) by (by rewrite Hfs, Hs).
  rewrite (answered_app b _ outs) by (by rewrite Hfl, Hl).
  simpl. do 4 (split; [done|]).
  rewrite <- Hn. clear. induction outs as [|s outs IH]; [done|].
  destruct (resolved_count outs s) as [-> ->]. simpl. destruct (resolved s); lia.
Qed.



(** The whole run of that example: the corrupt first image is counted as an
    error, the second one is processed, and both were submitted. *)
Example bulk_run_with_one_failure :
  let b' := route.runBulkQueue sample.first_is_corrupt
              [sample.item "gid://shopify/ProductImage/9001";
               sample.item "gid://shopify/ProductImage/9005"] "optimize" sample.page in
  route.processedCount b' = 1%nat
  /\ route.errorCount b' = 1%nat
  /\ (fst <$> route.submitted b') = [0%nat; 1%nat]
  /\ (resolved <$> route.settled b') = [false; true]
  /\ route.toastMessage b' = Some "Complete! Processed: 1, Errors: 1".
Proof. vm_compute. by repeat split. Qed.



(** ** The effects of the transcoder *)

(** X1.  Whatever the outcome, the transcoder leaves the table alone and
    issues nothing but encodes.  On an empty buffer it issues none and
    throws the constructor's error as it is; otherwise it issues the webp
    encode alone below the threshold or when the webp encode fails, and the
    webp encode followed by the avif encode in the remaining case. *)
Theorem transcoder_effects env buffer width w :
  let run := optimizer.optimizeImageLogic env buffer width w in
  db run.2 = db w
  /\ issued w run.2
     = (if empty_input buffer then []
        else if optimizer.below_limit buffer then [EvEncode webp]
        else match sharp_webp env (optimizer.sharpInstance buffer width) with
             | EncOk _ => [EvEncode webp; EvEncode avif]
             | EncErr _ => [EvEncode webp]
             end)
  /\ (buffer = [] -> run.1 = Throw "Input Buffer is empty").
Proof.
  cbv zeta. rewrite transcode_run.
  destruct buffer as [|byte rest]; simpl.
  { by rewrite issued_log. }
  destruct (sharp_webp env _) as [wb|m].
  - destruct (optimizer.below_limit (byte :: rest)); simpl.
    + by rewrite issued_log.
    + destruct (sharp_avif env _); simpl; by rewrite issued_log.
  - simpl. rewrite issued_log. by destruct (optimizer.below_limit (byte :: rest)).
Qed.

(** ** The effects of a commit *)

Lemma transcode_events_no_io env buffer width :
  filter (fun ev => is_fetch_event ev = true) (transcode_events env buffer width) = []
  /\ filter (fun ev => is_put_event ev = true) (transcode_events env buffer width) = [].
Proof.
  unfold transcode_events. rewrite transcode_run.
  destruct (empty_input buffer); [done|].
  destruct (sharp_webp env _); [|done].
  destruct (optimizer.below_limit buffer); [done|].
  by destruct (sharp_avif env _).
Qed.

Lemma issued_trace w (t : Table) evs :
  issued w {| db := t; trace := (trace w ++ evs)%list |} = evs.
Proof. unfold issued. simpl. by rewrite drop_app_length. Qed.

Ltac segment :=
  unfold commit_effects; simpl; rewrite <- ?app_assoc; simpl;
  repeat first [ apply prefix_nil | reflexivity | apply prefix_cons | apply prefix_app ];
  try (apply prefix_app_r; reflexivity).

Ltac leaf := let H := fresh "Hrun" in intros H; unfold throw, ret in H; simplify_eq.

(** Every run of [commitImage] issues an initial segment of the effects of a
    commit that returns, and all of them when it returns. *)
Lemma commit_run_effects env session item w r w' :
  optimizer.commitImage env session item w = (r, w') ->
  exists originalBuffer buffer format newGid,
    issued w w'
      `prefix_of` commit_effects env session item originalBuffer buffer format newGid
    /\ forall res,
         r = Ret res ->
         newGid = newId res
         /\ issued w w'
            = commit_effects env session item originalBuffer buffer format newGid
         /\ exists img, commit_path env session item originalBuffer buffer format img newGid.
Proof.
  unfold optimizer.commitImage.
  destruct (optimizer.invalid_session session) eqn:Hs.
  { leaf. exists [], [], webp, "". split; [|done]. unfold issued.
    rewrite drop_all. apply prefix_nil. }
  unfold bind at 1. rewrite emit_log.
  destruct (fetch env (c_url item)) as [m|ok st ob] eqn:Hf.
  { leaf. exists [], [], webp, "". split; [|done].
    rewrite issued_log. segment. }
  destruct ok; simpl.
  2: { leaf. exists [], [], webp, "". split; [|done].
       rewrite issued_log. segment. }
  unfold bind at 1. rewrite optimizeImageLogic_frame.
  destruct (transcode env ob (c_width item)) as [[b f]|m] eqn:Ht.
  2: { leaf. exists ob, [], webp, "". split; [|done].
       rewrite log_log, issued_log. segment. }
  simpl. unfold bind at 1. rewrite emit_log.
  destruct (rest_put env _) as [m|ok st' image] eqn:Hp.
  { leaf. exists ob, b, f, "". split; [|done].
    rewrite !log_log, issued_log. segment. }
  destruct ok; simpl.
  2: { leaf. exists ob, b, f, "". split; [|done].
       rewrite !log_log, issued_log. segment. }
  destruct image as [img|]; simpl.
  2: { leaf. exists ob, b, f, "". split; [|done].
       rewrite !log_log, issued_log. segment. }
  destruct (optimizer.id_text (image_id img)) as [newImageId|] eqn:Hid.
  2: { leaf. exists ob, b, f, "". split; [|done].
       rewrite !log_log, issued_log. segment. }
  unfold bind at 1. rewrite upsert_run.
  destruct (db_fault env (OpUpsert _)) eqn:Hup.
  { leaf. exists ob, b, f, ("gid://shopify/ProductImage/" +:+ newImageId).
    split; [|done]. rewrite !log_log, issued_log. segment. }
  unfold bind, try_catch.
  assert (Hpath : commit_path env session item ob b f img
                    ("gid://shopify/ProductImage/" +:+ newImageId))
    by (by econstructor).
  case_bool_decide as Hne; simpl.
  - rewrite deleteMany_run.
    destruct (db_fault env (OpDeleteMany [c_id item])); simpl; leaf;
      exists ob, b, f, ("gid://shopify/ProductImage/" +:+ newImageId);
      unfold commit_effects, issued; simpl;
      rewrite bool_decide_eq_true_2 by done;
      rewrite <- !app_assoc, drop_app_length; simpl;
      (split; [done|]); intros res [= <-]; simpl;
      (split; [done|]); (split; [done|]); by exists img.
  - leaf. exists ob, b, f, ("gid://shopify/ProductImage/" +:+ newImageId).
    unfold commit_effects, issued. simpl.
    rewrite bool_decide_eq_false_2 by (by intros ?).
    rewrite <- !app_assoc, drop_app_length. simpl.
    split; [done|]. intros res [= <-]. simpl.
    split; [done|]. split; [done|]. by exists img.
Qed.

(** X2.  A commit that returns has issued, in this order and nothing else:
    the download of the original, the encodes of the transcoder, one upload
    addressed to the item's numeric product and image ids, the upsert under
    the new identifier and, only when the identifier changed, the
    [deleteMany] of the old key. *)
Theorem commit_effects_in_order env session item w res w' :
  optimizer.commitImage env session item w = (Ret res, w') ->
  exists originalBuffer buffer format img,
    commit_path env session item originalBuffer buffer format img (newId res)
    /\ issued w w'
       = commit_effects env session item originalBuffer buffer format (newId res).
Proof.
  intros Hrun.
  destruct (commit_run_effects _ _ _ _ _ _ Hrun) as (ob & b & f & g & _ & Hret).
  destruct (Hret res eq_refl) as (-> & Hissued & img & Hpath).
  by exists ob, b, f, img.
Qed.

Lemma commit_effects_in_order_witness :
  exists res w' originalBuffer buffer format,
    optimizer.commitImage (sample.healthy 2000) sample.merchant
      (sample.item sample.old_gid) sample.optimized_before = (Ret res, w')
    /\ issued sample.optimized_before w'
       = commit_effects (sample.healthy 2000) sample.merchant
           (sample.item sample.old_gid) originalBuffer buffer format (newId res).
Proof.
  destruct (optimizer.commitImage (sample.healthy 2000) sample.merchant
      (sample.item sample.old_gid) sample.optimized_before) as [[res|e] w'] eqn:Hrun.
  2: { exfalso. vm_compute in Hrun. discriminate. }
  destruct (commit_effects_in_order _ _ _ _ _ _ Hrun)
    as (ob & b & f & img & _ & Hissued).
  exists res, w', ob, b, f. split; [first [exact Hrun | reflexivity]|exact Hissued].
Defined.

Lemma filter_length_prefix {A} (P : A -> Prop) `{!forall x, Decision (P x)}
    (l k : list A) :
  l `prefix_of` k -> (length (filter P l) <= length (filter P k))%nat.
Proof. intros [rest ->]. rewrite filter_app, length_app. lia. Qed.

(** X3.  Whatever the outcome, [commitImage] downloads at most once and
    uploads at most once: nothing is retried. *)
Theorem commit_never_retries env session item w :
  let w' := (optimizer.commitImage env session item w).2 in
  (length (filter (fun ev => is_fetch_event ev = true) (issued w w')) <= 1)%nat
  /\ (length (filter (fun ev => is_put_event ev = true) (issued w w')) <= 1)%nat.
Proof.
  cbv zeta.
  destruct (optimizer.commitImage env session item w) as [r w'] eqn:Hrun.
  destruct (commit_run_effects _ _ _ _ _ _ Hrun) as (ob & b & f & g & Hprefix & _).
  destruct (transcode_events_no_io env ob (c_width item)) as [Hnofetch Hnoput].
  simpl. split.
  - etrans; [by apply filter_length_prefix|].
    unfold commit_effects. rewrite filter_cons_True by done.
    rewrite !filter_app, Hnofetch. simpl. by case_bool_decide.
  - etrans; [by apply filter_length_prefix|].
    unfold commit_effects. rewrite filter_cons_False by done.
    rewrite !filter_app, Hnoput. simpl. by case_bool_decide.
Qed.

(** X4.  [commitImage] reads and writes the table only under two keys, the
    item's identifier and the new one: every other row is as it was, and
    when the commit throws the whole table is. *)
Theorem commit_touches_two_keys env session item w r w' k :
  optimizer.commitImage env session item w = (r, w') ->
  k ≠ c_id item ->
  (forall res, r = Ret res -> k ≠ newId res) ->
  db w' !! k = db w !! k.
Proof.
  intros Hrun Hold Hnew. destruct r as [res|e].
  - destruct (commit_returns _ _ _ _ _ _ Hrun) as (ob & b & f & img & g & _ & _ & -> & ->).
    specialize (Hnew _ eq_refl). simpl in Hnew.
    destruct (bool_decide _ && _); simpl.
    + rewrite lookup_delete_ne by done. by rewrite lookup_insert_ne.
    + by rewrite lookup_insert_ne.
  - by rewrite (commit_throw_keeps_table _ _ _ _ _ _ Hrun).
Qed.

Lemma commit_touches_two_keys_witness :
  exists r w',
    optimizer.commitImage (sample.healthy 2000) sample.merchant
      (sample.item sample.old_gid) sample.two_rows = (r, w')
    /\ db w' !! "gid://shopify/ProductImage/4000"
       = db sample.two_rows !! "gid://shopify/ProductImage/4000".
Proof.
  destruct (optimizer.commitImage (sample.healthy 2000) sample.merchant
      (sample.item sample.old_gid) sample.two_rows) as [r w'] eqn:Hrun.
  exists r, w'. split; [first [exact Hrun | reflexivity]|].
  apply (commit_touches_two_keys _ _ _ _ _ _ _ Hrun).
  - vm_compute. discriminate.
  - intros res ->. vm_compute in Hrun. injection Hrun as <- _. vm_compute. discriminate.
Defined.

Lemma round_kb_nearest n :
  0 <= n -> 0 <= Js.round_kb n /\ Z.abs (n - 1024 * Js.round_kb n) <= 512.
Proof.
  unfold Js.round_kb. intros Hn. split; [apply Z.div_pos; lia|].
  pose proof (Z.div_mod (n + 512) 1024 ltac:(lia)).
  pose proof (Z.mod_pos_bound (n + 512) 1024 ltac:(lia)). lia.
Qed.

(** X5.  The sizes a commit returns are the byte lengths of the download and
    of the transcoder's output rounded to the nearest kilobyte: they are not
    negative and within 512 bytes of the length; the original size is 0
    exactly for a download below 512 bytes. *)
Theorem commit_sizes_nearest_kilobyte env session item w res w' :
  optimizer.commitImage env session item w = (Ret res, w') ->
  exists originalBuffer buffer format img,
    commit_path env session item originalBuffer buffer format img (newId res)
    /\ 0 <= beforeKb res
    /\ 0 <= afterKb res
    /\ Z.abs (byteLength originalBuffer - 1024 * beforeKb res) <= 512
    /\ Z.abs (byteLength buffer - 1024 * afterKb res) <= 512
    /\ (beforeKb res = 0 <-> byteLength originalBuffer < 512).
Proof.
  intros Hrun.
  destruct (commit_returns _ _ _ _ _ _ Hrun) as (ob & b & f & img & g & Hpath & _ & -> & _).
  exists ob, b, f, img. simpl.
  assert (0 <= byteLength ob) by (unfold byteLength; lia).
  assert (0 <= byteLength b) by (unfold byteLength; lia).
  destruct (round_kb_nearest (byteLength ob)) as [? ?]; [done|].
  destruct (round_kb_nearest (byteLength b)) as [? ?]; [done|].
  repeat split; try done.
  - unfold Js.round_kb. intros Hz.
    assert (byteLength ob + 512 < 1024); [|lia].
    apply Z.div_small_iff in Hz as [?|?]; lia.
  - unfold Js.round_kb. intros Hlt. apply Z.div_small. lia.
Qed.

Lemma commit_sizes_nearest_kilobyte_witness :
  exists res w',
    optimizer.commitImage (sample.healthy 2000) sample.merchant
      (sample.item sample.old_gid) sample.empty_world = (Ret res, w')
    /\ 0 <= beforeKb res /\ 0 <= afterKb res.
Proof.
  destruct (optimizer.commitImage (sample.healthy 2000) sample.merchant
      (sample.item sample.old_gid) sample.empty_world) as [[res|e] w'] eqn:Hrun.
  2: { exfalso. vm_compute in Hrun. discriminate. }
  destruct (commit_sizes_nearest_kilobyte _ _ _ _ _ _ Hrun)
    as (ob & b & f & img & _ & Hbefore & Hafter & _).
  exists res, w'. split; [first [exact Hrun | reflexivity]|]. split; [exact Hbefore|exact Hafter].
Defined.

(** ** The numeric identifier behind a GID *)

Lemma append_String c s t : String c s +:+ t = String c (s +:+ t).
Proof. reflexivity. Qed.

Lemma append_nil_r s : s +:+ "" = s.
Proof. induction s as [|c s IH]; [done|]. by rewrite append_String, IH. Qed.

Lemma append_assoc s t u : (s +:+ t) +:+ u = s +:+ t +:+ u.
Proof. induction s as [|c s IH]; [done|]. by rewrite !append_String, IH. Qed.

Lemma split_pop_aux_plain acc s :
  has_slash s = false -> Js.split_pop_aux acc s = acc +:+ s.
Proof.
  revert acc. induction s as [|c s IH]; intros acc Hs; simpl in *.
  - by rewrite append_nil_r.
  - apply orb_false_iff in Hs as [Hc Hs]. rewrite Hc, IH by done.
    by rewrite append_assoc.
Qed.

Lemma split_pop_aux_slash acc s t :
  Js.split_pop_aux acc (s +:+ String "/" t) = Js.split_pop_aux "" t.
Proof.
  revert acc. induction s as [|c s IH]; intros acc.
  - reflexivity.
  - rewrite append_String. simpl. destruct (Ascii.eqb c "/"); apply IH.
Qed.

Lemma split_pop_aux_no_slash acc s :
  has_slash acc = false -> has_slash (Js.split_pop_aux acc s) = false.
Proof.
  revert acc. induction s as [|c s IH]; intros acc Hacc; simpl; [done|].
  destruct (Ascii.eqb c "/") eqn:Hc; [by apply IH|]. apply IH.
  clear IH. induction acc as [|a acc IHacc]; simpl in *.
  - by rewrite Hc.
  - apply orb_false_iff in Hacc as [-> Hacc]. by rewrite IHacc.
Qed.

(** X6.  [split("/").pop()] keeps what follows the last slash: it never
    returns a slash, it returns a string without slash unchanged, and of
    [s/t] it returns [t] when [t] has no slash. *)
Theorem split_pop_last_segment :
  (forall s, has_slash (Js.split_pop s) = false)
  /\ (forall s, has_slash s = false -> Js.split_pop s = s)
  /\ (forall s t, has_slash t = false -> Js.split_pop (s +:+ String "/" t) = t).
Proof.
  unfold Js.split_pop. repeat split.
  - intros s. by apply split_pop_aux_no_slash.
  - intros s Hs. by rewrite split_pop_aux_plain.
  - intros s t Ht. by rewrite split_pop_aux_slash, split_pop_aux_plain.
Qed.





(** ** The effects of a restore *)

Lemma restore_run_effects env session item w r w' :
  optimizer.restoreImage env session item w = (r, w') ->
  match r with
  | Ret _ =>
      exists row,
        db w !! c_id item = Some row
        /\ Js.truthy (originalUrl row) = true
        /\ issued w w' = restore_effects session item (originalUrl row)
        /\ db w' = delete (c_id item) (db w)
  | Throw _ =>
      db w' = db w
      /\ exists url, issued w w' `prefix_of` restore_effects session item url
  end.
Proof.
  unfold optimizer.restoreImage, restore_effects.
  destruct (optimizer.invalid_session session).
  { leaf. split; [done|]. exists "". unfold issued. rewrite drop_all. apply prefix_nil. }
  unfold bind at 1. rewrite findUnique_run.
  destruct (db_fault env (OpFindUnique _)).
  { leaf. split; [done|]. exists "". rewrite issued_log. by apply prefix_cons, prefix_nil. }
  simpl.
  destruct (db w !! c_id item) as [row|] eqn:Hrow.
  2:{ leaf. split; [done|]. exists "". rewrite issued_log. by apply prefix_cons, prefix_nil. }
  destruct (Js.truthy (originalUrl row)) eqn:Hurl; simpl.
  2:{ leaf. split; [done|]. exists "". rewrite issued_log. by apply prefix_cons, prefix_nil. }
  unfold bind at 1. rewrite emit_log, log_log. simpl.
  destruct (rest_put env _) as [m|[] st image]; simpl.
  1,3: leaf; (split; [done|]); exists (originalUrl row); rewrite issued_log;
       by apply prefix_cons, prefix_cons, prefix_nil.
  unfold bind. rewrite delete_run.
  destruct (db_fault env (OpDelete _)).
  { leaf. split; [done|]. exists (originalUrl row). rewrite log_log, issued_log. done. }
  simpl. rewrite Hrow. leaf. exists row. repeat split; try done.
  unfold issued. simpl. rewrite <- app_assoc. by rewrite drop_app_length.
Qed.

(** X8.  A restore that returns found a row with a backup under the item's
    identifier and has issued exactly: the lookup of that row, one upload
    that sets the image's source to the row's [originalUrl], and the
    [delete] of the row; the row is gone and no other row changed. *)
Theorem restore_effects_in_order env session item w r w' :
  optimizer.restoreImage env session item w = (Ret r, w') ->
  exists row,
    db w !! c_id item = Some row
    /\ issued w w' = restore_effects session item (originalUrl row)
    /\ db w' = delete (c_id item) (db w).
Proof.
  intros Hrun. destruct (restore_run_effects _ _ _ _ _ _ Hrun) as (row & ? & _ & ? & ?).
  by exists row.
Qed.

Lemma restore_effects_in_order_witness :
  exists r w' row,
    optimizer.restoreImage (sample.healthy 2000) sample.merchant
      (sample.item sample.old_gid) sample.two_rows = (Ret r, w')
    /\ db sample.two_rows !! sample.old_gid = Some row
    /\ issued sample.two_rows w'
       = restore_effects sample.merchant (sample.item sample.old_gid) (originalUrl row).
Proof.
  destruct (optimizer.restoreImage (sample.healthy 2000) sample.merchant
      (sample.item sample.old_gid) sample.two_rows) as [[r|e] w'] eqn:Hrun.
  2: { exfalso. vm_compute in Hrun. discriminate. }
  destruct (restore_effects_in_order _ _ _ _ _ _ Hrun) as (row & Hrow & Hissued & _).
  exists r, w', row. split; [first [exact Hrun | reflexivity]|]. split; [exact Hrow|exact Hissued].
Defined.

(** X9.  Whatever the outcome, [restoreImage] changes the table only by
    deleting the item's row, and only when it returns; a restore that throws
    leaves every row as it was and has sent at most one request to the
    shop. *)
Theorem restore_table_effect env session item w :
  let run := optimizer.restoreImage env session item w in
  db run.2 = match run.1 with
             | Ret _ => delete (c_id item) (db w)
             | Throw _ => db w
             end
  /\ (length (filter (fun ev => is_put_event ev = true) (issued w run.2)) <= 1)%nat.
Proof.
  cbv zeta.
  destruct (optimizer.restoreImage env session item w) as [[r|e] w'] eqn:Hrun;
    apply restore_run_effects in Hrun; simpl.
  - destruct Hrun as (row & _ & _ & -> & ->). done.
  - destruct Hrun as (-> & url & Hprefix). split; [done|].
    etrans; [by apply filter_length_prefix|]. done.
Qed.

(** X10.  The shop is changed before the row is deleted: when the shop
    accepts the upload of the backup but [delete] rejects, [restoreImage]
    throws and the row is still in the table, although the image has been
    set back to the original. *)
Theorem restore_delete_failure_after_upload env session item w row :
  optimizer.invalid_session session = false ->
  db_fault env (OpFindUnique (c_id item)) = false ->
  db w !! c_id item = Some row ->
  Js.truthy (originalUrl row) = true ->
  (exists status image,
     rest_put env (optimizer.put_request session item (Src (originalUrl row)))
     = PutResponse true status image) ->
  db_fault env (OpDelete (c_id item)) = true ->
  let run := optimizer.restoreImage env session item w in
  run.1 = Throw "PrismaClientKnownRequestError"
  /\ db run.2 = db w
  /\ issued w run.2
     = [EvDb (OpFindUnique (c_id item));
        EvPut (optimizer.put_request session item (Src (originalUrl row)))
        ; EvDb (OpDelete (c_id item))].
Proof.
  intros Hs Hfind Hrow Hurl (status & image & Hput) Hdel. cbv zeta.
  destruct (optimizer.restoreImage env session item w) as [r w'] eqn:Hrun.
  revert Hrun. unfold optimizer.restoreImage. rewrite Hs.
  unfold bind at 1. rewrite findUnique_run, Hfind. simpl. rewrite Hrow, Hurl. simpl.
  unfold bind at 1. rewrite emit_log, log_log, Hput. simpl.
  unfold bind. rewrite delete_run, Hdel. simpl. rewrite log_log.
  intros [= <- <-]. simpl. repeat split. by rewrite issued_log.
Qed.

Lemma restore_delete_failure_after_upload_witness :
  let run := optimizer.restoreImage (sample.delete_rejects 2000) sample.merchant
               (sample.item sample.old_gid) sample.optimized_before in
  run.1 = Throw "PrismaClientKnownRequestError"
  /\ db run.2 = db sample.optimized_before
  /\ length (issued sample.optimized_before run.2) = 3%nat.
Proof.
  destruct (restore_delete_failure_after_upload (sample.delete_rejects 2000) sample.merchant
              (sample.item sample.old_gid) sample.optimized_before
              (sample.row "https://cdn.shopify.com/first.jpg"))
    as (Hthrow & Hdb & Hissued);
    [reflexivity | reflexivity | reflexivity | reflexivity | by do 2 eexists
    | reflexivity |].
  split; [exact Hthrow|]. split; [exact Hdb|]. by rewrite Hissued.
Defined.

(** X11.  The restore of a committed image uploads the URL the commit was
    given: after a commit of [item] that returned [newId], a restore on the
    item under [newId] that returns has set the image's source to
    [item.url], whatever the table held before. *)
Theorem restore_uploads_committed_url
    env1 session1 item w res w1 env2 session2 item' r w2 :
  optimizer.commitImage env1 session1 item w = (Ret res, w1) ->
  c_id item' = newId res ->
  optimizer.restoreImage env2 session2 item' w1 = (Ret r, w2) ->
  issued w1 w2 = restore_effects session2 item' (c_url item).
Proof.
  intros Hcommit Hid Hrestore.
  destruct (commit_returns _ _ _ _ _ _ Hcommit)
    as (ob & b & f & img & g & _ & _ & -> & Hdb1).
  destruct (restore_run_effects _ _ _ _ _ _ Hrestore) as (row & Hrow & _ & -> & _).
  simpl in Hid. rewrite Hid, Hdb1 in Hrow.
  assert (originalUrl row = c_url item) as ->; [|done].
  destruct (bool_decide _ && _) eqn:Hc; simpl in Hrow.
  - apply andb_true_iff in Hc as [Hne _]. apply bool_decide_eq_true in Hne.
    rewrite lookup_delete_ne, lookup_insert_eq in Hrow by done.
    injection Hrow as <-. apply upserted_row.
  - rewrite lookup_insert_eq in Hrow. injection Hrow as <-. apply upserted_row.
Qed.

Lemma restore_uploads_committed_url_witness :
  exists res w1 r w2,
    optimizer.commitImage (sample.healthy 2000) sample.merchant
      (sample.item sample.old_gid) sample.optimized_before = (Ret res, w1)
    /\ optimizer.restoreImage (sample.healthy 2000) sample.merchant
         (sample.item (newId res)) w1 = (Ret r, w2)
    /\ issued w1 w2
       = restore_effects sample.merchant (sample.item (newId res))
           "https://cdn.shopify.com/original.jpg".
Proof.
  destruct (optimizer.commitImage (sample.healthy 2000) sample.merchant
      (sample.item sample.old_gid) sample.optimized_before) as [[res|e] w1] eqn:Hrun.
  2: { exfalso. vm_compute in Hrun. discriminate. }
  destruct (optimizer.restoreImage (sample.healthy 2000) sample.merchant
      (sample.item (newId res)) w1) as [[r|e] w2] eqn:Hrestore.
  2: { exfalso.
       destruct (commit_returns _ _ _ _ _ _ Hrun)
         as (ob & b & f & img & g & _ & _ & Hres & Hdb).
       assert (is_Some (db w1 !! newId res)) as [row Hrow].
       { rewrite Hres, Hdb. simpl. destruct (bool_decide (g ≠ _)) eqn:Hg; simpl.
         - apply bool_decide_eq_true in Hg.
           rewrite lookup_delete_ne, lookup_insert_eq by done. by eexists.
         - rewrite lookup_insert_eq. by eexists. }
       assert (originalUrl row = "https://cdn.shopify.com/original.jpg") as Hurl.
       { rewrite Hres, Hdb in Hrow. simpl in Hrow.
         destruct (bool_decide (g ≠ _)) eqn:Hg; simpl in Hrow.
         - apply bool_decide_eq_true in Hg.
           rewrite lookup_delete_ne, lookup_insert_eq in Hrow by done.
           injection Hrow as <-. apply upserted_row.
         - rewrite lookup_insert_eq in Hrow. injection Hrow as <-.
           apply upserted_row. }
       revert Hrestore. unfold optimizer.restoreImage. simpl.
       unfold bind at 1. rewrite findUnique_run. simpl. rewrite Hrow, Hurl. simpl.
       unfold bind at 1. rewrite emit_log. simpl.
       unfold bind. rewrite delete_run. simpl. rewrite Hrow. discriminate. }
  exists res, w1, r, w2. split; [first [exact Hrun | reflexivity]|]. split; [exact Hrestore|].
  exact (restore_uploads_committed_url _ _ _ _ _ _ _ _ (sample.item (newId res)) _ _
           Hrun eq_refl Hrestore).
Defined.

(** ** Every scan *)

(** A property of the candidates that holds at the start and is kept by
    every page holds when the paging ends. *)
Lemma paging_results fuel env recordMap n cursor st w ending st' w'
    (P : list Candidate -> Prop) :
  scanner.paging fuel env recordMap n cursor st w = (ending, st', w') ->
  P (scanner.results st) ->
  (forall l page, P l -> P (l ++ page_candidates recordMap page)%list) ->
  P (scanner.results st').
Proof.
  intros Hrun Hst Hstep. revert n cursor st w Hrun Hst.
  induction fuel as [|fuel IH]; intros n cursor st w Hrun Hst; simpl in Hrun.
  - by injection Hrun as <- <- <-.
  - destruct (graphql env n cursor) as [m|page].
    + by injection Hrun as <- <- <-.
    + destruct (hasNextPage page && _).
      * eapply IH; [done|]. rewrite visit_page_results. by apply Hstep.
      * injection Hrun as <- <- <-. rewrite visit_page_results. by apply Hstep.
Qed.

Lemma candidate_reflects (t : Table) p img :
  reflects t (scanner.candidate t p img).
Proof.
  unfold reflects, scanner.candidate, scanner.is_optimized. simpl.
  destruct (t !! img_id img) as [row|] eqn:Hrow; simpl; [|done].
  split; [done|]. case_bool_decide; simpl; [|done].
  do 3 (split; [done|]). by destruct (originalKb row =? 0).
Qed.

(** The run of a scan, case by case. *)
Lemma scan_cases fuel env type w res w' :
  scanner.scanShop fuel env type w = Some (res, w') ->
  (db_fault env OpFindMany = true /\ res = [] /\ w' = log w [EvDb OpFindMany])
  \/ (db_fault env OpFindMany = false
      /\ exists ending st w1,
           scan_paging fuel env type w = (ending, st, w1)
           /\ res = scanner.results st
           /\ seen_matches st
           /\ (exists pages,
                 w1 = log w (EvDb OpFindMany :: pages)
                 /\ Forall (fun ev => is_graphql_event ev = true) pages
                 /\ (scanner.wants_products type = false -> pages = []))
           /\ ((exists message, ending = scanner.Threw message) /\ w' = w1
               \/ ending = scanner.Finished
                  /\ stale_rows (db w) res = [] /\ w' = w1
               \/ ending = scanner.Finished
                  /\ stale_rows (db w) res ≠ []
                  /\ w' = (prisma.deleteMany env
                             (shopifyImageId <$> stale_rows (db w) res) w1).2)).
Proof.
  destruct (db_fault env OpFindMany) eqn:Hload.
  - unfold scanner.scanShop. rewrite findMany_run, Hload.
    intros [= <- <-]. by left.
  - rewrite (scan_unfold _ _ _ _ Hload).
    destruct (scan_paging fuel env type w) as [[ending st] w1] eqn:Hpaging.
    intros Hrun. right. split; [done|]. exists ending, st, w1.
    assert (seen_matches st
            /\ exists pages,
                 w1 = log w (EvDb OpFindMany :: pages)
                 /\ Forall (fun ev => is_graphql_event ev = true) pages
                 /\ (scanner.wants_products type = false -> pages = []))
      as [Hseen Hpages].
    { unfold scan_paging in Hpaging.
      destruct (scanner.wants_products type).
      - apply paging_frame in Hpaging as (Hseen & pages & -> & Hpages);
          [|apply seen_matches_start].
        split; [done|]. exists pages. by rewrite log_log.
      - injection Hpaging as <- <- <-. split; [apply seen_matches_start|].
        by exists []. }
    destruct ending as [|message|]; [| |done].
    + rewrite (staleRecords_stale_rows _ _ _ Hseen eq_refl) in Hrun.
      cbv zeta in Hrun. case_bool_decide as Hstale; injection Hrun as <- <-.
      * do 4 (split; [done|]). right. right. split; [done|]. split; [|done].
        intros Hnil. rewrite Hnil in Hstale. simpl in Hstale. lia.
      * do 4 (split; [done|]). right. left. split; [done|]. split; [|done].
        destruct (stale_rows _ _); [done|]. simpl in Hstale. lia.
    + injection Hrun as <- <-. do 4 (split; [done|]). left.
      split; [by eexists|done].
Qed.

(** X12.  Every candidate a scan returns, however the scan ended, is of type
    [Product] and shows the table as it was when the scan started: it is
    marked optimized exactly when the table holds an [optimized] row under
    its identifier; then it carries the row's savings and sizes, with the
    percentage computed from them (0 when the original size is 0); otherwise
    it carries no savings, no optimized size and 0 percent, and as original
    size the row's, or 0 without a row. *)
Theorem scan_results_reflect_table fuel env type w res w' :
  scanner.scanShop fuel env type w = Some (res, w') ->
  Forall (fun c => reflects (db w) c /\ c_type c = "Product") res.
Proof.
  intros Hrun.
  destruct (scan_cases _ _ _ _ _ _ Hrun)
    as [(_ & -> & _) | (_ & ending & st & w1 & Hpaging & -> & _)]; [done|].
  unfold scan_paging in Hpaging. rewrite recordMap_of_table in Hpaging.
  destruct (scanner.wants_products type); [|by injection Hpaging as <- <- <-].
  eapply paging_results; [done|done|].
  intros l page Hl. apply Forall_app. split; [done|].
  unfold page_candidates. apply Forall_fmap, Forall_forall. intros [p img] _.
  split; [apply candidate_reflects|done].
Qed.

Lemma scan_results_reflect_table_witness :
  exists res w',
    scanner.scanShop 5 (sample.shop_with sample.two_products) "all" sample.three_rows
    = Some (res, w')
    /\ (c_id <$> res)
       = ["gid://shopify/ProductImage/9001"; "gid://shopify/ProductImage/9003";
          "gid://shopify/ProductImage/9004"]
    /\ (c_optimized <$> res) = [true; false; true]
    /\ Forall (fun c => reflects (db sample.three_rows) c /\ c_type c = "Product") res.
Proof.
  destruct (scanner.scanShop 5 (sample.shop_with sample.two_products) "all"
              sample.three_rows) as [[res w']|] eqn:Hrun.
  2: { exfalso. vm_compute in Hrun. discriminate. }
  exists res, w'. split; [reflexivity|].
  split; [vm_compute in Hrun; injection Hrun as <- _; reflexivity|].
  split; [vm_compute in Hrun; injection Hrun as <- _; reflexivity|].
  exact (scan_results_reflect_table _ _ _ _ _ _ Hrun).
Defined.

(** X13.  A scan never adds or changes a row, and whatever happens it keeps
    every row whose key is the identifier of a candidate it returns. *)
Theorem scan_only_removes_unseen_rows fuel env type w res w' :
  scanner.scanShop fuel env type w = Some (res, w') ->
  db w' ⊆ db w
  /\ forall k, k ∈ c_id <$> res -> db w' !! k = db w !! k.
Proof.
  intros Hrun.
  destruct (scan_cases _ _ _ _ _ _ Hrun)
    as [(_ & _ & ->) | (_ & ending & st & w1 & _ & -> & _ & (pages & -> & _) & Hend)];
    [done|].
  destruct Hend as [(_ & ->) | [(_ & _ & ->) | (_ & _ & ->)]]; [done|done|].
  rewrite deleteMany_run. destruct (db_fault env (OpDeleteMany _)); [done|].
  simpl. rewrite delete_stale_rows. split; [apply map_filter_subseteq|].
  intros k Hk. rewrite map_lookup_filter.
  destruct (db w !! k); simpl; [|done]. by rewrite option_guard_True.
Qed.

Lemma scan_only_removes_unseen_rows_witness :
  exists res w',
    scanner.scanShop 5 (sample.shop_with sample.one_page) "all" sample.two_rows
    = Some (res, w')
    /\ db w' ⊆ db sample.two_rows
    /\ db w' !! "gid://shopify/ProductImage/9001"
       = db sample.two_rows !! "gid://shopify/ProductImage/9001".
Proof.
  destruct (scanner.scanShop 5 (sample.shop_with sample.one_page) "all" sample.two_rows)
    as [[res w']|] eqn:Hrun.
  2: { exfalso. vm_compute in Hrun. discriminate. }
  exists res, w'. split; [reflexivity|].
  destruct (scan_only_removes_unseen_rows _ _ _ _ _ _ Hrun) as [Hsub Hkeep].
  split; [exact Hsub|]. apply Hkeep.
  vm_compute in Hrun. injection Hrun as <- _. by left.
Defined.

Lemma paging_cap fuel env recordMap n cursor st w ending st' w' m :
  pages_at_most env m ->
  scanner.paging fuel env recordMap n cursor st w = (ending, st', w') ->
  (length (scanner.results st) <= 2500)%nat ->
  (length (scanner.results st') <= 2500 + m)%nat.
Proof.
  intros Hm. revert n cursor st w.
  induction fuel as [|fuel IH]; intros n cursor st w Hrun Hst; simpl in Hrun.
  - injection Hrun as <- <- <-. lia.
  - destruct (graphql env n cursor) as [msg|page] eqn:Hq.
    + injection Hrun as <- <- <-. lia.
    + specialize (Hm _ _ _ Hq).
      destruct (hasNextPage page && _) eqn:Hgo.
      * apply andb_true_iff in Hgo as [_ Hgo]. apply negb_true_iff in Hgo.
        apply Z.ltb_ge in Hgo. eapply IH; [done|]. lia.
      * injection Hrun as <- <- <-.
        rewrite visit_page_results, length_app, page_candidates_length. lia.
Qed.

(** X14.  The cap is checked after a whole page was pushed: when no page of
    the catalog holds more than [m] images, a scan returns at most
    [2500 + m] candidates. *)
Theorem scan_cap env m fuel type w res w' :
  pages_at_most env m ->
  scanner.scanShop fuel env type w = Some (res, w') ->
  (length res <= 2500 + m)%nat.
Proof.
  intros Hm Hrun.
  destruct (scan_cases _ _ _ _ _ _ Hrun)
    as [(_ & -> & _) | (_ & ending & st & w1 & Hpaging & -> & _)]; [simpl; lia|].
  unfold scan_paging in Hpaging.
  destruct (scanner.wants_products type).
  - eapply paging_cap; [done|done|]. simpl. lia.
  - injection Hpaging as <- <- <-. simpl. lia.
Qed.

Lemma one_page_at_most : pages_at_most (sample.shop_with sample.one_page) 1.
Proof. intros n cursor page [= <-]. simpl. lia. Qed.

Lemma scan_cap_witness :
  pages_at_most (sample.shop_with sample.one_page) 1
  /\ exists res w',
       scanner.scanShop 5 (sample.shop_with sample.one_page) "all" sample.two_rows
       = Some (res, w')
       /\ (length res <= 2500 + 1)%nat.
Proof.
  split; [exact one_page_at_most|].
  destruct (scanner.scanShop 5 (sample.shop_with sample.one_page) "all" sample.two_rows)
    as [[res w']|] eqn:Hrun.
  2: { exfalso. vm_compute in Hrun. discriminate. }
  exists res, w'. split; [reflexivity|].
  exact (scan_cap _ _ _ _ _ _ _ one_page_at_most Hrun).
Defined.

Lemma scan_returns_if_paging_ends fuel env type w :
  (scan_paging fuel env type w).1.1 ≠ scanner.OutOfFuel ->
  is_Some (scanner.scanShop fuel env type w).
Proof.
  intros Hend. destruct (db_fault env OpFindMany) eqn:Hload.
  - unfold scanner.scanShop. by rewrite findMany_run, Hload.
  - rewrite (scan_unfold _ _ _ _ Hload).
    destruct (scan_paging fuel env type w) as [[[] st] w1]; simpl in *; try done.
    by case_bool_decide.
Qed.

Lemma paging_ends_at fuel env recordMap n cursor st w last :
  catalog_ends env last ->
  (n <= last < n + fuel)%nat ->
  (scanner.paging fuel env recordMap n cursor st w).1.1 ≠ scanner.OutOfFuel.
Proof.
  intros Hlast. revert n cursor st w.
  induction fuel as [|fuel IH]; intros n cursor st w Hn; [lia|]. simpl.
  destruct (graphql env n cursor) as [msg|page] eqn:Hq; [done|].
  destruct (decide (n = last)) as [->|Hne].
  - by rewrite (Hlast _ _ Hq).
  - destruct (hasNextPage page && _); [|done]. apply IH. lia.
Qed.

(** X15.  A scan of a catalog that ends returns: when the query number
    [last] cannot announce a further page, [last + 1] queries are enough for
    [scanShop] to return, whatever throws on the way. *)
Theorem scan_returns_when_catalog_ends env last type w :
  catalog_ends env last ->
  is_Some (scanner.scanShop (S last) env type w).
Proof.
  intros Hlast. apply scan_returns_if_paging_ends. unfold scan_paging.
  destruct (scanner.wants_products type); [|done].
  apply paging_ends_at with last; [done|lia].
Qed.

Lemma one_page_ends : catalog_ends (sample.shop_with sample.one_page) 0.
Proof. by intros cursor page [= <-]. Qed.

Lemma scan_returns_when_catalog_ends_witness :
  catalog_ends (sample.shop_with sample.one_page) 0
  /\ is_Some (scanner.scanShop 1 (sample.shop_with sample.one_page) "all"
                sample.two_rows).
Proof.
  split; [exact one_page_ends|].
  exact (scan_returns_when_catalog_ends _ 0%nat "all" sample.two_rows one_page_ends).
Defined.

Lemma paging_ends_by_cap fuel env recordMap n cursor st w :
  pages_not_empty env ->
  (0 < fuel)%nat ->
  (2501 <= length (scanner.results st) + fuel)%nat ->
  (scanner.paging fuel env recordMap n cursor st w).1.1 ≠ scanner.OutOfFuel.
Proof.
  intros Hpages. revert n cursor st w.
  induction fuel as [|fuel IH]; intros n cursor st w Hpos Hfuel; [lia|]. simpl.
  destruct (graphql env n cursor) as [msg|page] eqn:Hq; [done|].
  destruct (hasNextPage page && _) eqn:Hgo; [|done].
  apply andb_true_iff in Hgo as [Hnext Hgo]. apply negb_true_iff in Hgo.
  apply Z.ltb_ge in Hgo.
  pose proof (Hpages _ _ _ Hq Hnext) as Hne.
  assert (0 < length (page_images page))%nat.
  { destruct (page_images page); [done|simpl; lia]. }
  pose proof (visit_page_results recordMap st page) as Hres.
  apply (f_equal length) in Hres.
  rewrite length_app, page_candidates_length in Hres.
  apply IH; lia.
Qed.

(** X16.  The cap makes the paging loop end even if the shop keeps
    announcing further pages: when every page that announces a successor
    holds at least one image, [scanShop] returns within 2501 queries. *)
Theorem scan_returns_by_cap env type w :
  pages_not_empty env ->
  is_Some (scanner.scanShop 2501 env type w).
Proof.
  intros Hpages. apply scan_returns_if_paging_ends. unfold scan_paging.
  destruct (scanner.wants_products type); [|done].
  apply paging_ends_by_cap; [done|lia|simpl; lia].
Qed.

Lemma endless_not_empty : pages_not_empty (sample.shop_with sample.endless).
Proof. by intros n cursor page [= <-] _. Qed.

Lemma scan_returns_by_cap_witness :
  pages_not_empty (sample.shop_with sample.endless)
  /\ is_Some (scanner.scanShop 2501 (sample.shop_with sample.endless) "all" sample.two_rows).
Proof.
  split; [exact endless_not_empty|].
  exact (scan_returns_by_cap _ "all" sample.two_rows endless_not_empty).
Defined.

(** X17.  The effects of a scan, however it ends: one [findMany] first, then
    nothing but catalog queries (none at all for a type other than [all] or
    [products]), then at most one [deleteMany], whose keys are not empty, are
    keys of the table and are the identifier of no candidate returned. *)
Theorem scan_effects_in_order fuel env type w res w' :
  scanner.scanShop fuel env type w = Some (res, w') ->
  exists pages cleanup,
    issued w w' = (EvDb OpFindMany :: pages ++ cleanup)%list
    /\ scan_tail pages cleanup (db w) res
    /\ (scanner.wants_products type = false -> pages = []).
Proof.
  intros Hrun.
  destruct (scan_cases _ _ _ _ _ _ Hrun)
    as [(_ & -> & ->)
       | (_ & ending & st & w1 & _ & -> & _ & (pages & -> & Hpages & Hnone) & Hend)].
  { exists [], []. rewrite issued_log. split; [done|]. split; [|done].
    split; [done|by left]. }
  destruct Hend as [(_ & ->) | [(_ & _ & ->) | (_ & Hstale & ->)]].
  1,2: exists pages, []; rewrite issued_log, app_nil_r;
       (split; [done|]); (split; [|done]); (split; [done|by left]).
  exists pages.
  exists [EvDb (OpDeleteMany
            (shopifyImageId <$> stale_rows (db w) (scanner.results st)))].
  rewrite deleteMany_run.
  split.
  { destruct (db_fault env (OpDeleteMany _)); simpl.
    - rewrite log_log. by rewrite issued_log.
    - unfold issued. simpl. by rewrite <- app_assoc, drop_app_length. }
  split; [|done]. split; [done|]. right.
  exists (shopifyImageId <$> stale_rows (db w) (scanner.results st)).
  split; [done|].
  split; [by destruct (stale_rows _ _)|].
  intros k ((k' & v) & -> & Hin)%list_elem_of_fmap.
  apply list_elem_of_filter in Hin as [Hout Hin].
  apply elem_of_map_to_list in Hin. split; [by eexists|done].
Qed.

Lemma scan_effects_in_order_witness :
  exists res w' pages cleanup,
    scanner.scanShop 5 (sample.shop_with sample.one_page) "all" sample.two_rows
    = Some (res, w')
    /\ issued sample.two_rows w' = (EvDb OpFindMany :: pages ++ cleanup)%list
    /\ scan_tail pages cleanup (db sample.two_rows) res.
Proof.
  destruct (scanner.scanShop 5 (sample.shop_with sample.one_page) "all" sample.two_rows)
    as [[res w']|] eqn:Hrun.
  2: { exfalso. vm_compute in Hrun. discriminate. }
  destruct (scan_effects_in_order _ _ _ _ _ _ Hrun)
    as (pages & cleanup & Hissued & Htail & _).
  exists res, w', pages, cleanup. split; [reflexivity|]. split; [exact Hissued|exact Htail].
Defined.

(** X18.  A scan for a type other than [all] or [products] queries nothing
    and finds nothing, so every row counts as stale: unless a Prisma call
    rejects, it returns no candidate and leaves the table empty. *)
Theorem scan_of_other_type_empties_table fuel env type w :
  scanner.wants_products type = false ->
  db_fault env OpFindMany = false ->
  (forall keys, db_fault env (OpDeleteMany keys) = false) ->
  exists w',
    scanner.scanShop fuel env type w = Some ([], w')
    /\ db w' = ∅
    /\ Forall (fun ev => is_graphql_event ev = false) (issued w w').
Proof.
  intros Htype Hload Hdelete.
  rewrite (scan_unfold _ _ _ _ Hload). unfold scan_paging. rewrite Htype.
  rewrite (staleRecords_stale_rows _ _ [] seen_matches_start eq_refl).
  case_bool_decide as Hstale.
  - eexists. split; [done|]. rewrite deleteMany_run, Hdelete. simpl.
    split.
    + rewrite delete_stale_rows. apply map_empty. intros k.
      apply map_lookup_filter_None. right. intros v _ Hin. simpl in Hin.
      by apply elem_of_nil in Hin.
    + unfold issued. simpl. rewrite <- app_assoc, drop_app_length.
      by repeat constructor.
  - eexists. split; [done|]. simpl. split.
    + apply map_to_list_empty_iff.
      destruct (map_to_list (db w)) as [|r l] eqn:Hrows; [done|].
      exfalso. apply Hstale. unfold stale_rows. rewrite Hrows.
      rewrite filter_cons_True by apply not_elem_of_nil. simpl. lia.
    + rewrite issued_log. by repeat constructor.
Qed.

Lemma scan_of_other_type_empties_table_witness :
  exists w',
    scanner.scanShop 5 (sample.shop_with sample.one_page) "collections" sample.two_rows
    = Some ([], w')
    /\ db w' = ∅
    /\ size (db sample.two_rows) = 2%nat.
Proof.
  destruct (scan_of_other_type_empties_table 5 (sample.shop_with sample.one_page)
              "collections" sample.two_rows) as (w' & Hrun & Hdb & _);
    [reflexivity | reflexivity | reflexivity |].
  exists w'. split; [exact Hrun|]. split; [exact Hdb|]. vm_compute. reflexivity.
Defined.

(** ** The action and the page *)

Lemma updateImageState_split itemId updates front r back :
  itemId ∉ c_id <$> front ->
  c_id r = itemId ->
  route.updateImageState itemId updates (front ++ r :: back)%list
  = (front ++ updates r :: back)%list.
Proof.
  intros Hfront Hr. induction front as [|x front IH]; simpl.
  - by rewrite bool_decide_eq_true_2.
  - simpl in Hfront. apply not_elem_of_cons in Hfront as [Hx Hfront].
    rewrite bool_decide_eq_false_2 by done. by rewrite IH.
Qed.

(** X19.  [updateImageState] is [findIndex] followed by a replacement: the
    list keeps its length, it is returned as it is when no entry has the
    identifier, and otherwise only the first entry with the identifier is
    replaced. *)
Theorem updateImageState_first_match itemId updates prev :
  length (route.updateImageState itemId updates prev) = length prev
  /\ (itemId ∉ c_id <$> prev -> route.updateImageState itemId updates prev = prev)
  /\ (forall front r back,
        prev = (front ++ r :: back)%list ->
        itemId ∉ c_id <$> front ->
        c_id r = itemId ->
        route.updateImageState itemId updates prev
        = (front ++ updates r :: back)%list).
Proof.
  split; [|split].
  - induction prev as [|x prev IH]; simpl; [done|].
    case_bool_decide; simpl; by rewrite ?IH.
  - induction prev as [|x prev IH]; simpl; [done|].
    intros Hout. apply not_elem_of_cons in Hout as [Hx Hout].
    rewrite bool_decide_eq_false_2 by done. by rewrite IH.
  - intros front r back ->. apply updateImageState_split.
Qed.

Lemma updateImageState_ids itemId updates prev :
  (forall r, c_id (updates r) = c_id r) ->
  c_id <$> route.updateImageState itemId updates prev = c_id <$> prev.
Proof.
  intros Hid. induction prev as [|x prev IH]; [done|].
  cbn [route.updateImageState]. case_bool_decide; rewrite !fmap_cons.
  - by rewrite Hid.
  - by rewrite IH.
Qed.

(** X20.  For a submission with an item and an intent other than [scan],
    [action] answers [success] or [error]; an error answer carries a message
    and no data and means the table is as it was, and an intent that is
    neither [optimize] nor [restore] has no effect at all. *)
Theorem action_error_keeps_table env session intent item w :
  intent ≠ "scan" ->
  let run := route.action env session intent item w in
  (route.a_status run.1 = "success"
   \/ (route.a_status run.1 = "error"
       /\ is_Some (route.a_message run.1)
       /\ route.a_data run.1 = None
       /\ db run.2 = db w))
  /\ (intent ≠ "optimize" -> intent ≠ "restore" ->
      route.a_status run.1 = "error" /\ run.2 = w).
Proof.
  intros _. cbv zeta. unfold route.action.
  case_bool_decide as Ho; [|case_bool_decide as Hr].
  - split; [|done].
    destruct (optimizer.commitImage env session item w) as [[res|e] w'] eqn:Hrun;
      simpl; [by left|right].
    repeat split; [by eexists|]. by apply commit_throw_keeps_table in Hrun.
  - split; [|done].
    destruct (optimizer.restoreImage env session item w) as [[res|e] w'] eqn:Hrun;
      simpl; [by left|right].
    repeat split; [by eexists|]. by apply restore_run_effects in Hrun as [? _].
  - simpl. split; [|done]. right. repeat split. by eexists.
Qed.

Lemma action_error_keeps_table_witness :
  let run := route.action sample.corrupt_image sample.merchant "optimize"
               (sample.item sample.old_gid) sample.optimized_before in
  route.a_status run.1 = "error" /\ db run.2 = db sample.optimized_before.
Proof.
  intros run.
  destruct (action_error_keeps_table sample.corrupt_image sample.merchant "optimize"
              (sample.item sample.old_gid) sample.optimized_before)
    as [[Hsuccess | (Herror & _ & _ & Hdb)] _].
  - discriminate.
  - exfalso. vm_compute in Hsuccess. discriminate.
  - split; [exact Herror|exact Hdb].
Defined.

(** ** Every bulk run *)

Lemma runBulkQueue_submissions ui items intent b :
  exists subs,
    route.submitted (route.runBulkQueue ui items intent b)
    = (route.submitted b ++ subs)%list
    /\ subs `sublist_of` enumerate 0 items
    /\ (route.processedCount (route.runBulkQueue ui items intent b)
        + route.errorCount (route.runBulkQueue ui items intent b)
        = length subs)%nat.
Proof.
  destruct (runBulkQueue_accounting ui items intent b) as (Hin & _ & _ & _ & Hc).
  unfold route.runBulkQueue in *. cbv zeta in *.
  destruct (worker_accounting ui intent (route.bulkRunIdRef (route.begin items b))
              (length items) items 0 (route.begin items b))
    as (subs & outs & Hs & _).
  destruct (finish_fields intent (route.bulkRunIdRef (route.begin items b))
              (route.worker ui intent (route.bulkRunIdRef (route.begin items b))
                 (length items) 0 items (route.begin items b)))
    as (_ & _ & Hfs & _ & _).
  cbv zeta in Hs. simpl in Hs.
  assert (Hsub : route.submitted
                   (route.finish intent (route.bulkRunIdRef (route.begin items b))
                      (route.worker ui intent (route.bulkRunIdRef (route.begin items b))
                         (length items) 0 items (route.begin items b)))
                 = (route.submitted b ++ subs)%list) by (etrans; [exact Hfs|exact Hs]).
  rewrite (attempted_app _ _ _ Hsub) in Hin, Hc. by exists subs.
Qed.

(** X21.  In every bulk run, whatever happens in the page meanwhile (stop,
    unmount, another run), the entries submitted are entries of the queue,
    each queue position at most once and in queue order, and when the run
    ends its processed and error counts add up to the number of
    submissions. *)
Theorem bulk_accounting_every_run ui items intent b :
  let b' := route.runBulkQueue ui items intent b in
  route.submitted b `prefix_of` route.submitted b'
  /\ attempted b b' `sublist_of` enumerate 0 items
  /\ (route.processedCount b' + route.errorCount b' = length (attempted b b'))%nat.
Proof.
  cbv zeta.
  destruct (runBulkQueue_submissions ui items intent b) as (subs & Hs & Hin & Hc).
  rewrite (attempted_app _ _ _ Hs), Hs.
  split; [by apply prefix_app_r|]. by split.
Qed.

Lemma enumerate_items idx queue : (enumerate idx queue).*2 = queue.
Proof.
  revert idx. induction queue as [|item queue IH]; intros idx; simpl; [done|].
  by rewrite IH.
Qed.

Lemma attempted_none b : attempted b b = [].
Proof. unfold attempted. apply drop_all. Qed.

Lemma attempted_from b b1 b' :
  route.submitted b1 = route.submitted b -> attempted b b' = attempted b1 b'.
Proof. intros H. unfold attempted. by rewrite H. Qed.

(** What a click on a bulk button hands over to [runBulkQueue]. *)
Lemma optimize_click_queue b :
  route.submitted (route.optimize_click b).2 = route.submitted b
  /\ (forall q, (route.optimize_click b).1 = Some q ->
        q = filter (fun i => c_optimized i = false) (route.scanResults b))
  /\ (route.isBulkOptimizing b || route.isBulkRestoring b = true ->
      route.optimize_click b = (None, b)).
Proof.
  unfold route.optimize_click. destruct (_ || _); [done|]. cbv zeta.
  destruct (length _ =? 0)%nat; [done|].
  split; [page_cases|]. split; [by intros q [= <-]|done].
Qed.

Lemma restore_click_queue b :
  route.submitted (route.restore_click b).2 = route.submitted b
  /\ (forall q, (route.restore_click b).1 = Some q ->
        q = filter (fun i => c_optimized i = true) (route.scanResults b))
  /\ (route.isBulkOptimizing b || route.isBulkRestoring b = true ->
      route.restore_click b = (None, b)).
Proof.
  unfold route.restore_click. destruct (_ || _); [done|]. cbv zeta.
  destruct (length _ =? 0)%nat; [done|].
  split; [page_cases|]. split; [by intros q [= <-]|done].
Qed.

(** X22.  The two bulk buttons queue by status: whatever happens during the
    run, [handleBulkOptimize] submits only entries that were pending on the
    page when it was clicked and [handleBulkRestore] only entries that were
    optimized, in the order of the page, and neither does anything while a
    bulk run is under way. *)
Theorem bulk_handlers_queue_by_status ui b :
  (attempted b (dashboard.handleBulkOptimize ui b)).*2
    `sublist_of` filter (fun i => c_optimized i = false) (route.scanResults b)
  /\ (attempted b (dashboard.handleBulkRestore ui b)).*2
       `sublist_of` filter (fun i => c_optimized i = true) (route.scanResults b)
  /\ (route.isBulkOptimizing b || route.isBulkRestoring b = true ->
      dashboard.handleBulkOptimize ui b = b
      /\ dashboard.handleBulkRestore ui b = b).
Proof.
  unfold dashboard.handleBulkOptimize, dashboard.handleBulkRestore.
  destruct (optimize_click_queue b) as (Hso & Hqo & Hbo).
  destruct (restore_click_queue b) as (Hsr & Hqr & Hbr).
  split; [|split].
  - destruct (route.optimize_click b) as [[q|] b1]; simpl in *.
    + rewrite <- (Hqo q eq_refl), (attempted_from b b1) by done.
      destruct (runBulkQueue_submissions ui q "optimize" b1) as (subs & Hs & Hin & _).
      rewrite (attempted_app _ _ _ Hs).
      apply (fmap_sublist snd) in Hin. by rewrite enumerate_items in Hin.
    + rewrite (attempted_from b b1), attempted_none by done. apply sublist_nil_l.
  - destruct (route.restore_click b) as [[q|] b1]; simpl in *.
    + rewrite <- (Hqr q eq_refl), (attempted_from b b1) by done.
      destruct (runBulkQueue_submissions ui q "restore" b1) as (subs & Hs & Hin & _).
      rewrite (attempted_app _ _ _ Hs).
      apply (fmap_sublist snd) in Hin. by rewrite enumerate_items in Hin.
    + rewrite (attempted_from b b1), attempted_none by done. apply sublist_nil_l.
  - intros Hbusy. by rewrite (Hbo Hbusy), (Hbr Hbusy).
Qed.

(** ** The figures and the pages of the dashboard *)

Lemma sessionStats_fold acc l :
  let step := fun acc r =>
       {| dashboard.sessionOptimizedCount :=
            if c_optimized r then S (dashboard.sessionOptimizedCount acc)
            else dashboard.sessionOptimizedCount acc;
          dashboard.sessionPendingCount :=
            if c_optimized r then dashboard.sessionPendingCount acc
            else S (dashboard.sessionPendingCount acc);
          dashboard.sessionSavingsKb := dashboard.sessionSavingsKb acc + c_savedKb r |} in
  dashboard.sessionOptimizedCount (foldl step acc l)
  = (dashboard.sessionOptimizedCount acc
     + length (filter (fun r => c_optimized r = true) l))%nat
  /\ dashboard.sessionPendingCount (foldl step acc l)
     = (dashboard.sessionPendingCount acc
        + length (filter (fun r => c_optimized r = false) l))%nat
  /\ dashboard.sessionSavingsKb (foldl step acc l)
     = dashboard.sessionSavingsKb acc + foldr Z.add 0 (c_savedKb <$> l).
Proof.
  cbv zeta. revert acc. induction l as [|r l IH]; intros acc.
  - simpl. repeat split; lia.
  - cbn [foldl]. destruct (IH
      {| dashboard.sessionOptimizedCount :=
            if c_optimized r then S (dashboard.sessionOptimizedCount acc)
            else dashboard.sessionOptimizedCount acc;
          dashboard.sessionPendingCount :=
            if c_optimized r then dashboard.sessionPendingCount acc
            else S (dashboard.sessionPendingCount acc);
          dashboard.sessionSavingsKb := dashboard.sessionSavingsKb acc + c_savedKb r |})
      as (-> & -> & ->).
    rewrite fmap_cons. cbn [foldr dashboard.sessionOptimizedCount
      dashboard.sessionPendingCount dashboard.sessionSavingsKb].
    destruct (c_optimized r) eqn:Hr.
    + rewrite (filter_cons_True (fun r => c_optimized r = true)) by done.
      rewrite (filter_cons_False (fun r => c_optimized r = false)) by (by rewrite Hr).
      simpl. repeat split; lia.
    + rewrite (filter_cons_False (fun r => c_optimized r = true)) by (by rewrite Hr).
      rewrite (filter_cons_True (fun r => c_optimized r = false)) by done.
      simpl. repeat split; lia.
Qed.

(** X23.  The session figures partition the page: the optimized and the
    pending count are the numbers of entries of each status and add up to
    the number of entries, the savings are the sum of the entries' savings,
    and [isAllOptimized] holds exactly when the page is not empty and the
    pending count is 0. *)
Theorem session_stats_partition scanResults :
  let s := dashboard.sessionStats scanResults in
  dashboard.sessionOptimizedCount s
  = length (filter (fun r => c_optimized r = true) scanResults)
  /\ dashboard.sessionPendingCount s
     = length (filter (fun r => c_optimized r = false) scanResults)
  /\ (dashboard.sessionOptimizedCount s + dashboard.sessionPendingCount s
      = length scanResults)%nat
  /\ dashboard.sessionSavingsKb s = foldr Z.add 0 (c_savedKb <$> scanResults)
  /\ (dashboard.isAllOptimized scanResults = true
      <-> scanResults ≠ [] /\ dashboard.sessionPendingCount s = 0%nat).
Proof.
  cbv zeta. unfold dashboard.sessionStats.
  destruct (sessionStats_fold
              {| dashboard.sessionOptimizedCount := 0;
                 dashboard.sessionPendingCount := 0;
                 dashboard.sessionSavingsKb := 0 |} scanResults) as (Ho & Hp & Hs).
  cbv zeta in Ho, Hp, Hs. rewrite Ho, Hp, Hs. simpl. clear Ho Hp Hs.
  split; [done|]. split; [done|]. split; [|split; [lia|]].
  - induction scanResults as [|r l IH]; [done|].
    destruct (c_optimized r) eqn:Hr.
    + rewrite (filter_cons_True (fun r => c_optimized r = true)) by done.
      rewrite (filter_cons_False (fun r => c_optimized r = false)) by (by rewrite Hr).
      simpl. lia.
    + rewrite (filter_cons_False (fun r => c_optimized r = true)) by (by rewrite Hr).
      rewrite (filter_cons_True (fun r => c_optimized r = false)) by done.
      simpl. lia.
  - unfold dashboard.isAllOptimized. rewrite andb_true_iff, Nat.ltb_lt.
    assert (forallb c_optimized scanResults = true
            <-> length (filter (fun r => c_optimized r = false) scanResults) = 0%nat)
      as ->.
    { induction scanResults as [|r l IH]; [done|]. simpl.
      destruct (c_optimized r) eqn:Hr.
      - rewrite (filter_cons_False (fun r => c_optimized r = false)) by (by rewrite Hr).
        by rewrite <- IH.
      - rewrite (filter_cons_True (fun r => c_optimized r = false)) by done.
        simpl. split; [done|lia]. }
    destruct scanResults; simpl; split; intros [? ?]; split; try done; lia.
Qed.

Lemma paginatedResults_take (l : list Candidate) p :
  (1 <= p)%nat ->
  dashboard.paginatedResults l p
  = take dashboard.itemsPerPage (drop ((p - 1) * dashboard.itemsPerPage) l).
Proof.
  intros Hp. unfold dashboard.paginatedResults, dashboard.slice. f_equal.
  unfold dashboard.itemsPerPage. lia.
Qed.

(** X24.  From page 1 on, a page of the table holds at most 10 rows, the
    pages follow one another without gap or overlap, a next page is offered
    exactly when the next page has a row, and then the current page is
    full; a previous page is offered exactly from page 2 on. *)
Theorem pagination_pages (filteredResults : list Candidate) currentPage :
  (1 <= currentPage)%nat ->
  (length (dashboard.paginatedResults filteredResults currentPage)
   <= dashboard.itemsPerPage)%nat
  /\ drop ((currentPage - 1) * dashboard.itemsPerPage) filteredResults
     = (dashboard.paginatedResults filteredResults currentPage
        ++ drop (currentPage * dashboard.itemsPerPage) filteredResults)%list
  /\ (dashboard.hasNext filteredResults currentPage = true
      <-> dashboard.paginatedResults filteredResults (S currentPage) ≠ [])
  /\ (dashboard.hasNext filteredResults currentPage = true ->
      length (dashboard.paginatedResults filteredResults currentPage)
      = dashboard.itemsPerPage)
  /\ (dashboard.hasPrevious currentPage = true <-> (1 <= currentPage - 1)%nat).
Proof.
  intros Hp. rewrite !paginatedResults_take by lia.
  unfold dashboard.hasNext, dashboard.hasPrevious. rewrite !Nat.ltb_lt.
  replace (S currentPage - 1)%nat with currentPage by lia.
  split; [|split; [|split; [|split; [|lia]]]].
  - rewrite length_take. lia.
  - replace (currentPage * dashboard.itemsPerPage)%nat
      with ((currentPage - 1) * dashboard.itemsPerPage + dashboard.itemsPerPage)%nat
      by (unfold dashboard.itemsPerPage; lia).
    rewrite <- drop_drop. by rewrite take_drop.
  - rewrite <- length_zero_iff_nil, length_take, length_drop.
    unfold dashboard.itemsPerPage. lia.
  - intros Hnext. rewrite length_take, length_drop.
    unfold dashboard.itemsPerPage in *. lia.
Qed.

Lemma pagination_pages_witness :
  let rows := repeat (sample.item sample.old_gid) 12 in
  (length (dashboard.paginatedResults rows 1) <= dashboard.itemsPerPage)%nat
  /\ dashboard.hasNext rows 1 = true
  /\ length (dashboard.paginatedResults rows 1) = dashboard.itemsPerPage
  /\ dashboard.paginatedResults rows 2 ≠ [].
Proof.
  intros rows.
  destruct (pagination_pages rows 1) as (Hlen & _ & Hnext & Hfull & _); [lia|].
  split; [exact Hlen|]. split; [reflexivity|].
  split; [by apply Hfull|]. by apply Hnext.
Defined.

(** ** Identifiers on the page after a commit *)

Lemma restore_missing_row env session item w :
  optimizer.invalid_session session = false ->
  db_fault env (OpFindUnique (c_id item)) = false ->
  db w !! c_id item = None ->
  optimizer.restoreImage env session item w
  = (Throw not_found, log w [EvDb (OpFindUnique (c_id item))]).
Proof.
  intros Hs Hfind Hrow. unfold optimizer.restoreImage. rewrite Hs.
  unfold bind. rewrite findUnique_run, Hfind. simpl. by rewrite Hrow.
Qed.

(** X25.  A commit started from a row's own button leaves the entry under
    the identifier it had.  When the shop gave the image a new identifier and
    the old key was cleaned up, the table has a row under the new identifier
    and none under the one the entry still carries: until the page takes
    over the results of a new scan, a restore submitted for that entry looks
    the row up, throws the not-found error, sends nothing to the shop and
    leaves the page as it is. *)
Theorem row_optimize_keeps_identifier env session item view w res w1 :
  optimizer.commitImage env session item w = (Ret res, w1) ->
  newId res ≠ c_id item ->
  db_fault env (OpDeleteMany [c_id item]) = false ->
  let view1 := (dashboard.optimize_row env session item view w).1 in
  c_id <$> view1 = c_id <$> view
  /\ db w1 !! c_id item = None
  /\ is_Some (db w1 !! newId res)
  /\ forall env2 session2 item',
       c_id item' = c_id item ->
       optimizer.invalid_session session2 = false ->
       db_fault env2 (OpFindUnique (c_id item)) = false ->
       optimizer.restoreImage env2 session2 item' w1
       = (Throw not_found, log w1 [EvDb (OpFindUnique (c_id item))])
       /\ dashboard.restore_row env2 session2 item' view1 w1
          = (view1, log w1 [EvDb (OpFindUnique (c_id item))]).
Proof.
  intros Hrun Hne Hclean. cbv zeta. unfold dashboard.optimize_row. rewrite Hrun.
  destruct (commit_returns _ _ _ _ _ _ Hrun)
    as (ob & b & f & img & g & _ & _ & -> & Hdb).
  simpl in *. rewrite Hclean in Hdb. rewrite bool_decide_eq_true_2 in Hdb by done.
  simpl in Hdb.
  assert (db w1 !! c_id item = None) as Hgone.
  { rewrite Hdb. apply lookup_delete_eq. }
  split; [by apply updateImageState_ids|]. split; [done|]. split.
  { rewrite Hdb, lookup_delete_ne, lookup_insert_eq by done. by eexists. }
  intros env2 session2 item' Hid Hs Hfind.
  assert (optimizer.restoreImage env2 session2 item' w1
          = (Throw not_found, log w1 [EvDb (OpFindUnique (c_id item))])) as Hrestore.
  { rewrite <- Hid. apply restore_missing_row; by rewrite ?Hid. }
  split; [done|]. unfold dashboard.restore_row. by rewrite Hrestore.
Qed.

Lemma row_optimize_keeps_identifier_witness :
  exists res w1,
    optimizer.commitImage (sample.healthy 2000) sample.merchant
      (sample.item sample.old_gid) sample.optimized_before = (Ret res, w1)
    /\ newId res = sample.new_gid
    /\ (c_id <$> (dashboard.optimize_row (sample.healthy 2000) sample.merchant
                    (sample.item sample.old_gid) [sample.item sample.old_gid]
                    sample.optimized_before).1) = [sample.old_gid]
    /\ db w1 !! sample.old_gid = None
    /\ (optimizer.restoreImage (sample.healthy 2000) sample.merchant
          (sample.item sample.old_gid) w1).1 = Throw not_found.
Proof.
  destruct (optimizer.commitImage (sample.healthy 2000) sample.merchant
      (sample.item sample.old_gid) sample.optimized_before) as [[res|e] w1] eqn:Hrun.
  2: { exfalso. vm_compute in Hrun. discriminate. }
  assert (Hid : newId res = sample.new_gid).
  { vm_compute in Hrun. injection Hrun as <- _. reflexivity. }
  exists res, w1. split; [reflexivity|]. split; [exact Hid|].
  destruct (row_optimize_keeps_identifier (sample.healthy 2000) sample.merchant
              (sample.item sample.old_gid) [sample.item sample.old_gid]
              sample.optimized_before res w1 Hrun)
    as (Hids & Hgone & _ & Hrestore).
  { rewrite Hid. vm_compute. discriminate. }
  { reflexivity. }
  split; [exact Hids|]. split; [exact Hgone|].
  destruct (Hrestore (sample.healthy 2000) sample.merchant (sample.item sample.old_gid)
              eq_refl eq_refl eq_refl) as [-> _].
  reflexivity.
Defined.



(** ** The end of a bulk run *)






Lemma happen_all_run_id evs b :
  (route.bulkRunIdRef b <= route.bulkRunIdRef (route.happen_all evs b))%nat
  /\ (route.processedIdsRef b = ∅ ->
      route.processedIdsRef (route.happen_all evs b) = ∅).
Proof.
  unfold route.happen_all. revert b.
  induction evs as [|ev evs IH]; intros b; simpl; [done|].
  destruct (IH (route.happen ev b)) as [Hle Hids].
  destruct (happen_refs ev b) as (_ & Hrun & Hset & _).
  rewrite Hrun in Hle. rewrite Hset in Hids.
  split; [destruct ev; lia|].
  intros Hb. apply Hids. by destruct ev.
Qed.

Lemma happen_all_superseded evs b :
  route.Superseded ∈ evs ->
  (route.bulkRunIdRef b < route.bulkRunIdRef (route.happen_all evs b))%nat
  /\ route.processedIdsRef (route.happen_all evs b) = ∅.
Proof.
  revert b. induction evs as [|ev evs IH]; intros b Hin.
  - by apply elem_of_nil in Hin.
  - rewrite happen_all_cons.
    destruct (happen_refs ev b) as (_ & Hrun & Hset & _).
    apply elem_of_cons in Hin as [<- | Hin].
    + destruct (happen_all_run_id evs (route.happen route.Superseded b)) as [Hle Hids].
      rewrite Hrun in Hle. rewrite Hset in Hids. split; [lia|by apply Hids].
    + destruct (IH (route.happen ev b) Hin) as [Hlt Hids].
      rewrite Hrun in Hlt. split; [destruct ev; lia|done].
Qed.

(** X28.  A run that is superseded while an entry is in flight still
    completes that entry: when the call succeeds it puts the entry's
    identifier into the set the new run has just cleared, counts it and
    writes its progress; then it stops, submitting nothing more and running
    no epilogue. *)
Theorem superseded_run_marks_entry ui intent runId total idx item rest b data b1 :
  live runId b ->
  c_id item ∉ route.processedIdsRef b ->
  route.Superseded ∈ route.ambient ui idx ->
  route.submitBulk ui intent idx item b = (route.Resolved data, b1) ->
  let b' := route.worker ui intent runId total idx (item :: rest) b in
  route.processedIdsRef b' = {[c_id item]}
  /\ (runId < route.bulkRunIdRef b')%nat
  /\ route.processedCount b' = S (route.processedCount b)
  /\ route.bulkProgress b'
     = (S (route.processedCount b + route.errorCount b), total)
  /\ route.submitted b' = (route.submitted b ++ [(idx, item)])%list
  /\ route.finish intent runId b' = b'.
Proof.
  intros Hlive Hnew Hsuper Hsubmit. cbv zeta.
  rewrite (worker_cons _ _ _ _ _ _ _ _ Hlive), (processItem_run _ _ _ _ _ _ Hlive).
  rewrite bool_decide_eq_false_2 by done.
  destruct (submitBulk_state ui intent idx item b) as [w' Hstate].
  rewrite Hsubmit in Hstate |- *. simpl in Hstate. injection Hstate as ->.
  destruct (happen_all_superseded (route.ambient ui idx)
              (route.in_flight idx item w' b) Hsuper) as [Hlt Hids].
  destruct (happen_all_fields (route.ambient ui idx) (route.in_flight idx item w' b))
    as (Hp & He & Hs & _ & _ & _).
  simpl in Hlt, Hp, He, Hs.
  destruct Hlive as [_ Hrun]. rewrite Hrun in Hlt.
  match goal with |- context [route.worker _ _ _ _ _ _ ?s] =>
    assert (~ live runId s) as Hdead by (intros [_ Hr]; simpl in Hr; lia);
    rewrite (worker_dead _ _ _ _ _ _ s Hdead)
  end.
  simpl. rewrite Hids, Hp, He, Hs.
  split; [by rewrite (right_id_L ∅ (∪))|]. split; [done|]. split; [done|].
  split; [done|]. split; [done|].
  unfold route.finish. simpl.
  match goal with |- context [(?n =? runId)%nat] =>
    destruct (Nat.eqb_spec n runId) as [Heq|_]; [lia|done]
  end.
Qed.

Lemma superseded_run_marks_entry_witness :
  let A := sample.item "gid://shopify/ProductImage/9001" in
  let B := sample.item "gid://shopify/ProductImage/9005" in
  let b0 := route.begin [A; B] sample.page in
  let b' := route.worker sample.restart_during_first "optimize" 1 2 0 [A; B] b0 in
  route.Superseded ∈ route.ambient sample.restart_during_first 0
  /\ route.processedIdsRef b' = {[c_id A]}
  /\ route.submitted b' = [(0%nat, A)]
  /\ route.finish "optimize" 1 b' = b'.
Proof.
  intros A B b0 b'.
  assert (Hsuper : route.Superseded ∈ route.ambient sample.restart_during_first 0).
  { right. by left. }
  split; [exact Hsuper|].
  destruct (route.submitBulk sample.restart_during_first "optimize" 0 A b0)
    as [[data|message] b1] eqn:Hsubmit.
  2: { exfalso. vm_compute in Hsubmit. discriminate. }
  destruct (superseded_run_marks_entry sample.restart_during_first "optimize" 1 2 0 A [B]
              b0 data b1) as (Hids & _ & _ & _ & Hsubs & Hfinish).
  - by split.
  - apply not_elem_of_empty.
  - exact Hsuper.
  - exact Hsubmit.
  - split; [exact Hids|]. split; [exact Hsubs|exact Hfinish].
Defined.
